(** * SwopTrader API: the offer-notification pipeline and its routes

    A shallow embedding of the server with push notifications (Express +
    Mongoose + firebase-admin). JavaScript values are an inductive type,
    strings are sequences of UTF-16 code units, the handlers are written in a
    state-and-exception monad over a [World] (the collections, the module
    variable [firebaseMessaging], the provider call log and the console), and
    everything the process cannot decide itself (the environment,
    [JSON.parse], the firebase SDK, storage faults) is read from an [Env]
    record. *)

From Stdlib Require Import ZArith NArith List String Ascii Lia DecimalString.
From Stdlib Require Import Sorted.
From stdpp Require Import base tactics option list countable gmap.
From Equations Require Import Equations.
Import ListNotations.

Set Warnings "-register-all".

Local Open Scope Z_scope.
Local Open Scope nat_scope.

(** ** JavaScript strings and values *)

(** A JavaScript string is a sequence of UTF-16 code units. *)
Abbreviation jsstring := (list N).

(** String literals of the source; every literal used below is ASCII. *)
Definition js (s : string) : jsstring :=
  map N_of_ascii (list_ascii_of_string s).

Arguments js : simpl never.

(** The primitive values that reach the modelled code. [VNum z] is the
    Number value nearest to the integer [z]: [z] itself up to 2^53, and
    beyond for the integers a double holds. *)
Inductive jsval : Type :=
  | VUndefined
  | VNull
  | VBool (b : bool)
  | VNum (z : Z)
  | VStr (s : jsstring).

#[global] Instance jsval_eq_dec : EqDecision jsval.
Proof. solve_decision. Defined.

Definition is_empty (s : jsstring) : bool :=
  match s with [] => true | _ => false end.

(** [Boolean(v)], the test of [if (v)], [!v], [v || w] and [filter(Boolean)]. *)
Definition truthy (v : jsval) : bool :=
  match v with
  | VUndefined | VNull => false
  | VBool b => b
  | VNum z => negb (Z.eqb z 0)
  | VStr s => negb (is_empty s)
  end.

(** [a || b] *)
Definition js_or (a b : jsval) : jsval := if truthy a then a else b.

(** Leading zeros stripped. *)
Fixpoint trimZeros (s : jsstring) : jsstring :=
  match s with
  | c :: s' => if N.eqb c 48 then trimZeros s' else s
  | [] => []
  end.

(** The decimal digits of an integer, with its sign. *)
Definition decimal (z : Z) : jsstring :=
  js (NilZero.string_of_int (Z.to_int z)).

(** The double nearest to the natural number [n] (round to nearest, ties to
    even), as mantissa and binary exponent: the value is [m * 2^e] with
    [m < 2^53], and [e = 0] when [n] is below 2^53. *)
Definition nearest_double (n : Z) : Z * Z :=
  let e := (Z.log2 n - 52)%Z in
  if (e <=? 0)%Z then (n, 0%Z)
  else
    let m := Z.shiftr n e in
    let r := Z.land n (Z.ones e) in
    let half := Z.shiftl 1 (e - 1) in
    let up := (half <? r)%Z || ((r =? half)%Z && Z.odd m) in
    let m' := if up then (m + 1)%Z else m in
    (* a carry out of the mantissa gives the next power of two *)
    if (m' =? 2 ^ 53)%Z then (2 ^ 52, e + 1)%Z else (m', e).

(** The shortest decimal the double [m * 2^e] (with [0 < e]) is the nearest
    double of, as an integer: of the decimals with the fewest significant
    digits that round to it, the closest one, the even one at a tie
    (Number::toString, steps 2 to 5). *)
Definition shortest_decimal (m e : Z) : Z :=
  let x := (m * 2 ^ e)%Z in
  (* four times the bounds of the interval that rounds to [x] *)
  let below := if (m =? 2 ^ 52)%Z then (2 ^ e)%Z else (2 ^ (e + 1))%Z in
  let lo := (4 * x - below)%Z in
  let hi := (4 * x + 2 ^ (e + 1))%Z in
  let inside c :=
    if Z.even m then (lo <=? 4 * c)%Z && (4 * c <=? hi)%Z
    else (lo <? 4 * c)%Z && (4 * c <? hi)%Z in
  let digits := Z.of_nat (length (decimal x)) in
  let candidate (k : nat) : option Z :=
    let p := (10 ^ (digits - Z.of_nat k))%Z in
    let c1 := (x / p * p)%Z in
    let c2 := (c1 + p)%Z in
    match inside c1, inside c2 with
    | true, true =>
        if (x - c1 <? c2 - x)%Z then Some c1
        else if (c2 - x <? x - c1)%Z then Some c2
        else if Z.even (c1 / p) then Some c1 else Some c2
    | true, false => Some c1
    | false, true => Some c2
    | false, false => None
    end in
  default x (list_find (fun c => bool_decide (c <> None))
                       (candidate <$> seq 1 17) ≫= snd).

(** The text of a positive decimal [c]: its digits up to 21 of them, the
    exponent form beyond (Number::toString, steps 6 to 10). *)
Definition decimal_text (c : Z) : jsstring :=
  let ds := decimal c in
  if Nat.leb (length ds) 21 then ds
  else
    let significant := rev (trimZeros (rev ds)) in
    take 1 significant
    ++ (if Nat.leb (length significant) 1 then []
        else js "." ++ drop 1 significant)
    ++ js "e+" ++ decimal (Z.of_nat (length ds) - 1).

(** [Number::toString(x)] for the Number value nearest to the integer [z]. *)
Definition Number_toString (z : Z) : jsstring :=
  let n := Z.abs z in
  let (m, e) := nearest_double n in
  let sign := if (z <? 0)%Z then js "-" else [] in
  if (e =? 0)%Z then decimal z
  else if (1024 <=? Z.log2 (m * 2 ^ e))%Z then sign ++ js "Infinity"
  else sign ++ decimal_text (shortest_decimal m e).

Arguments Number_toString : simpl never.

(** [String(v)], also the conversion of a template literal. *)
Definition ToString (v : jsval) : jsstring :=
  match v with
  | VUndefined => js "undefined"
  | VNull => js "null"
  | VBool true => js "true"
  | VBool false => js "false"
  | VNum z => Number_toString z
  | VStr s => s
  end.

(** WhiteSpace and LineTerminator code points, the ones [trim] strips. *)
Definition is_whitespace (c : N) : bool :=
  (existsb (N.eqb c)
     [0x09; 0x0A; 0x0B; 0x0C; 0x0D; 0x20; 0xA0; 0x1680; 0x2028; 0x2029;
      0x202F; 0x205F; 0x3000; 0xFEFF]
   || (N.leb 0x2000 c && N.leb c 0x200A))%N%bool.

Fixpoint trimStart (s : jsstring) : jsstring :=
  match s with
  | c :: s' => if is_whitespace c then trimStart s' else s
  | [] => []
  end.

Definition trimEnd (s : jsstring) : jsstring := rev (trimStart (rev s)).

Definition trim (s : jsstring) : jsstring := trimEnd (trimStart s).

(** [s.substring(from, to)] for non-negative integer arguments: both are
    clamped to the length and swapped when out of order. *)
Definition substring (s : jsstring) (from to : nat) : jsstring :=
  let a := Nat.min from (length s) in
  let b := Nat.min to (length s) in
  take (Nat.max a b - Nat.min a b) (drop (Nat.min a b) s).

Fixpoint startsWith (s p : jsstring) : bool :=
  match p, s with
  | [], _ => true
  | _ :: _, [] => false
  | c :: p', d :: s' => N.eqb c d && startsWith s' p'
  end.

(** [s.includes(p)] *)
Fixpoint includes (s p : jsstring) : bool :=
  startsWith s p ||
  match s with
  | [] => false
  | _ :: s' => includes s' p
  end.

(** Exceptions: an [Error] object, of which the code reads [message]. *)
Record exn : Type := Error { message : jsstring }.

#[global] Instance exn_eq_dec : EqDecision exn.
Proof. solve_decision. Defined.


(** ** The data model (the Mongoose schemas) *)

(** [userSchema]. The [location] sub-document is neither read nor written by
    any modelled operation and is left out. Dates are timestamps. *)
Module User.
Record t : Type := mk {
  id : jsstring;
  name : jsstring;
  email : jsstring;
  profileImageUrl : option jsstring;
  tradeScore : Z;
  level : Z;
  carbonSaved : Z;
  lastActive : Z;
  fcmTokens : list jsval;
  deviceTokens : gmap jsstring jsstring;
  createdAt : Z;
  updatedAt : Z
}.
End User.

(** [itemSchema] *)
Module Item.
Record t : Type := mk {
  id : jsstring;
  name : jsstring;
  description : jsstring;
  category : jsstring;
  condition : jsstring;
  images : list jsstring;
  ownerId : jsstring;
  isAvailable : bool;
  createdAt : Z;
  updatedAt : Z
}.
End Item.

(** [offerSchema], without the optional [meetup] sub-document. *)
Module Offer.
Record t : Type := mk {
  id : jsstring;
  fromUserId : jsstring;
  toUserId : jsstring;
  requestedItemId : jsstring;
  offeredItemIds : list jsstring;
  status : jsstring;
  message : jsval;
  cashAmount : option Z;
  createdAt : Z;
  updatedAt : Z
}.
End Offer.

(** ** The push provider's interface (firebase-admin messaging) *)

Module Notification.
Record t : Type := mk { title : jsstring; body : jsstring }.
End Notification.

(** The [android] argument of [sendPushNotification]; an absent property is
    [VUndefined]. *)
Module AndroidOptions.
Record t : Type := mk { channelId : jsval; tag : jsval; apnsCategory : jsval }.
Definition empty : t := mk VUndefined VUndefined VUndefined.
End AndroidOptions.

(** The argument of [messaging.sendEachForMulticast], nested objects
    flattened: [android.priority], [android.notification.{channelId,sound,tag}],
    [apns.headers['apns-priority']], [apns.payload.aps.{sound,category}]. *)
Module MulticastMessage.
Record t : Type := mk {
  tokens : list jsval;
  notification : Notification.t;
  data : gmap jsstring jsval;
  android_priority : jsstring;
  android_channelId : jsval;
  android_sound : jsstring;
  android_tag : jsval;
  apns_priority : jsstring;
  apns_sound : jsstring;
  apns_category : jsval
}.
End MulticastMessage.

Module FirebaseError.
Record t : Type := mk { code : jsstring }.
End FirebaseError.

Module SendResponse.
Record t : Type := mk { success : bool; error : option FirebaseError.t }.
End SendResponse.

Module BatchResponse.
Record t : Type := mk {
  responses : list SendResponse.t;
  successCount : nat;
  failureCount : nat
}.
End BatchResponse.

(** The value [sendPushNotification] resolves to. *)
Module PushResult.
Record t : Type := mk {
  successCount : nat;
  failureCount : nat;
  invalidTokens : list jsval
}.
End PushResult.

(** The value [sendOfferNotification] resolves to: either the object
    [{ skipped, reason }] or the push result. *)
Module SkipResult.
Record t : Type := mk { skipped : bool; reason : jsstring }.
End SkipResult.

Inductive OfferResult : Type :=
  | RSkip (r : SkipResult.t)
  | RPush (r : PushResult.t).

(** The argument object of [sendOfferNotification]. *)
Module OfferNotification.
Record t : Type := mk {
  offerId : jsval;
  recipientUserId : jsval;
  senderUserId : jsval;
  senderName : jsval;
  itemName : jsval;
  message : jsval
}.
End OfferNotification.

(** What [JSON.parse] returns; the code only tests its truthiness and hands
    it to the SDK. [JNumber z] is an integer-valued number. *)
Inductive json : Type :=
  | JNull
  | JBool (b : bool)
  | JNumber (z : Z)
  | JString (s : jsstring)
  | JArray (l : list json)
  | JObject (l : list (jsstring * json)).

Definition json_truthy (v : json) : bool :=
  match v with
  | JNull => false
  | JBool b => b
  | JNumber z => negb (Z.eqb z 0)
  | JString s => negb (is_empty s)
  | JArray _ | JObject _ => true
  end.

(** ** The environment: what the process reads but does not decide *)

Record Env : Type := mkEnv {
  (** [process.env.FIREBASE_SERVICE_ACCOUNT_JSON], [None] when unset *)
  FIREBASE_SERVICE_ACCOUNT_JSON : option jsstring;
  (** [process.env.FIREBASE_SERVICE_ACCOUNT] *)
  FIREBASE_SERVICE_ACCOUNT : option jsstring;
  (** [JSON.parse]; [inr] is the thrown SyntaxError *)
  JSON_parse : jsstring -> json + exn;
  (** [Buffer.from(s, 'base64').toString('utf8')], which never throws *)
  base64_utf8 : jsstring -> jsstring;
  (** [admin.initializeApp({credential: admin.credential.cert(c)})];
      [Some e] when either call throws [e] *)
  sdk_initializeApp : json -> option exn;
  (** [admin.messaging()], [Some e] when it throws *)
  sdk_messaging : option exn;
  (** [messaging.sendEachForMulticast], by the number of calls made before
      this one; [inr] is a rejection of the whole call *)
  sendEachForMulticast : nat -> MulticastMessage.t -> BatchResponse.t + exn;
  (** storage faults, by the number of storage operations issued before this
      one; [Some e] makes the operation reject with [e] *)
  db_fault : nat -> option exn;
  (** [$regex] with option [i]: [None] for a pattern the store rejects *)
  regex_i : jsstring -> option (jsstring -> bool)
}.

(** ** The state of the process and of its collaborators *)

Inductive LogLine : Type :=
  | LogInvalidCredential
  | LogNotConfigured
  | LogInitialized
  | LogInitFailed (e : exn)
  | LogPruneFailed (userId : jsval) (e : exn)
  | LogDispatchFailed (offerId : jsstring) (e : exn)
  | LogRegisterFailed (e : exn)
  | LogSendFailed (e : exn)
  | UnhandledRejection (e : exn).

Record World : Type := mkWorld {
  users : list User.t;
  items : list Item.t;
  offers : list Offer.t;
  (** the module variable [firebaseMessaging]: [false] is [null] *)
  firebaseMessaging : bool;
  (** [admin.apps.length] *)
  admin_apps : nat;
  (** the messages handed to the provider, oldest first *)
  pushed : list MulticastMessage.t;
  (** console output, oldest first *)
  console : list LogLine;
  (** number of storage operations issued so far *)
  db_calls : nat;
  (** what [new Date()] reads *)
  clock : Z
}.

Definition set_users (us : list User.t) (w : World) : World :=
  mkWorld us (items w) (offers w) (firebaseMessaging w) (admin_apps w)
          (pushed w) (console w) (db_calls w) (clock w).

Definition set_items (its : list Item.t) (w : World) : World :=
  mkWorld (users w) its (offers w) (firebaseMessaging w) (admin_apps w)
          (pushed w) (console w) (db_calls w) (clock w).

Definition set_offers (os : list Offer.t) (w : World) : World :=
  mkWorld (users w) (items w) os (firebaseMessaging w) (admin_apps w)
          (pushed w) (console w) (db_calls w) (clock w).

Definition set_firebaseMessaging (b : bool) (w : World) : World :=
  mkWorld (users w) (items w) (offers w) b (admin_apps w)
          (pushed w) (console w) (db_calls w) (clock w).

Definition set_admin_apps (n : nat) (w : World) : World :=
  mkWorld (users w) (items w) (offers w) (firebaseMessaging w) n
          (pushed w) (console w) (db_calls w) (clock w).

Definition set_pushed (ms : list MulticastMessage.t) (w : World) : World :=
  mkWorld (users w) (items w) (offers w) (firebaseMessaging w) (admin_apps w)
          ms (console w) (db_calls w) (clock w).

Definition set_console (ls : list LogLine) (w : World) : World :=
  mkWorld (users w) (items w) (offers w) (firebaseMessaging w) (admin_apps w)
          (pushed w) ls (db_calls w) (clock w).

Definition set_db_calls (n : nat) (w : World) : World :=
  mkWorld (users w) (items w) (offers w) (firebaseMessaging w) (admin_apps w)
          (pushed w) (console w) n (clock w).

(** ** The monad of the handlers: state and exceptions *)

Definition M (A : Type) : Type := World -> (A + exn) * World.

Definition ret {A} (a : A) : M A := fun w => (inl a, w).

Definition throw {A} (e : exn) : M A := fun w => (inr e, w).

Definition bind {A B} (m : M A) (k : A -> M B) : M B := fun w =>
  match m w with
  | (inl a, w') => k a w'
  | (inr e, w') => (inr e, w')
  end.

(** [try { m } catch (e) { h e }] *)
Definition try_catch {A} (m : M A) (h : exn -> M A) : M A := fun w =>
  match m w with
  | (inl a, w') => (inl a, w')
  | (inr e, w') => h e w'
  end.

Notation "'let*' x ':=' c 'in' k" := (bind c (fun x => k))
  (at level 10, x pattern, c at level 100, k at level 200).

Notation "c ';;' k" := (bind c (fun _ => k))
  (at level 100, k at level 200, right associativity).

Definition get : M World := fun w => (inl w, w).

Definition modify (f : World -> World) : M unit := fun w => (inl tt, f w).

(** [console.error], [console.warn], [console.log] *)
Definition log (l : LogLine) : M unit :=
  modify (fun w => set_console (console w ++ [l]) w).

(** [new Date()] *)
Definition new_Date : M Z := fun w => (inl (clock w), w).

(** A value or a thrown exception computed outside the state. *)
Definition lift {A} (r : A + exn) : M A := fun w => (r, w).

(** A call that returns nothing or throws. *)
Definition lift_opt (r : option exn) : M unit :=
  match r with
  | Some e => throw e
  | None => ret tt
  end.

(** [Promise.all([a, b])]: both are started; the result rejects when one of
    them does. *)
Definition Promise_all2 {A B} (a : M A) (b : M B) : M (A * B) := fun w =>
  let '(ra, w1) := a w in
  let '(rb, w2) := b w1 in
  (match ra, rb with
   | inl x, inl y => inl (x, y)
   | inr e, _ => inr e
   | _, inr e => inr e
   end, w2).

(** A call of an async function that is not awaited: its effects happen, its
    value is dropped, and a rejection nobody handles is reported by the
    runtime. The model runs it to completion at the point of the call. *)
Definition detached {A} (m : M A) : M unit := fun w =>
  match m w with
  | (inl _, w') => (inl tt, w')
  | (inr e, w') => (inl tt, set_console (console w' ++ [UnhandledRejection e]) w')
  end.

(** ** Array helpers *)

(** [a.slice(from, to)] for [0 <= from <= to] *)
Definition slice {A} (a : list A) (from to : nat) : list A :=
  take (to - from) (drop from a).

(** [set.add(v)] on the insertion-ordered content of a [Set] *)
Definition Set_add (s : list jsval) (v : jsval) : list jsval :=
  if bool_decide (v ∈ s) then s else s ++ [v].

(** [[...new Set(l)]] *)
Definition new_Set (l : list jsval) : list jsval := fold_left Set_add l [].

(** The first element satisfying [p] is replaced by its image. *)
Fixpoint update_first {A} (p : A -> bool) (f : A -> A) (l : list A) : list A :=
  match l with
  | [] => []
  | x :: l' => if p x then f x :: l' else x :: update_first p f l'
  end.


(** ** MongoDB update operators, as the handlers use them *)

(** [$pull: { fcmTokens: { $in: bad } }] *)
Definition pull_in (bad : list jsval) (ts : list jsval) : list jsval :=
  List.filter (fun t => negb (bool_decide (t ∈ bad))) ts.

(** [$addToSet: { fcmTokens: t }] *)
Definition addToSet (t : jsval) (ts : list jsval) : list jsval :=
  if bool_decide (t ∈ ts) then ts else ts ++ [t].

(** The value of a query on a String path: Mongoose casts it to a string;
    no document has a null id. *)
Definition cast_id (v : jsval) : option jsstring :=
  match v with
  | VUndefined | VNull => None
  | _ => Some (ToString v)
  end.

(** The path [k] names a field below the field at path [p]: [p.<rest>]. *)
Definition below (p k : jsstring) : bool := startsWith k (p ++ [46%N]).

(** [$set: { ['deviceTokens.' + path]: value }] on [deviceTokens], which is
    read by path (for a device id without a dot, the key of the Map): the
    value replaces what was stored at the path and below it. *)
Definition set_path (path value : jsstring) (m : gmap jsstring jsstring)
  : gmap jsstring jsstring :=
  <[path := value]> (filter (fun kv => below path kv.1 = false) m).

Definition user_has_id (v : jsval) (u : User.t) : bool :=
  bool_decide (cast_id v = Some (User.id u)).

Definition item_has_id (s : jsstring) (i : Item.t) : bool :=
  bool_decide (Item.id i = s).

(** [{ $pull: { fcmTokens: { $in: bad } }, $set: { updatedAt } }] *)
Definition pull_tokens (bad : list jsval) (updatedAt : Z) (u : User.t) : User.t :=
  User.mk (User.id u) (User.name u) (User.email u) (User.profileImageUrl u)
          (User.tradeScore u) (User.level u) (User.carbonSaved u)
          (User.lastActive u) (pull_in bad (User.fcmTokens u))
          (User.deviceTokens u) (User.createdAt u) updatedAt.

(** The update document of the registration route:
    [{ $addToSet: { fcmTokens }, $set: { updatedAt, lastActive,
    ['deviceTokens.' + deviceId] } }], the last entry optional. *)
Record TokenUpdate : Type := mkTokenUpdate {
  addToSet_fcmTokens : jsval;
  set_updatedAt : Z;
  set_lastActive : Z;
  set_deviceTokens : option (jsstring * jsval)
}.

(** Applying it; the values are cast to the paths' String type. *)
Definition apply_TokenUpdate (p : TokenUpdate) (u : User.t) : User.t :=
  User.mk (User.id u) (User.name u) (User.email u) (User.profileImageUrl u)
          (User.tradeScore u) (User.level u) (User.carbonSaved u)
          (set_lastActive p)
          (addToSet (VStr (ToString (addToSet_fcmTokens p))) (User.fcmTokens u))
          (match set_deviceTokens p with
           | Some (deviceId, token) =>
               set_path deviceId (ToString token) (User.deviceTokens u)
           | None => User.deviceTokens u
           end)
          (User.createdAt u) (set_updatedAt p).

(** [{ isAvailable: false, updatedAt }], which Mongoose wraps in [$set] *)
Definition soft_delete (updatedAt : Z) (i : Item.t) : Item.t :=
  Item.mk (Item.id i) (Item.name i) (Item.description i) (Item.category i)
          (Item.condition i) (Item.images i) (Item.ownerId i)
          false (Item.createdAt i) updatedAt.

(** ** HTTP requests and responses *)

(** The body of [POST /api/v1/notifications/token]; an absent property is
    [VUndefined]. *)
Module TokenBody.
Record t : Type := mk { userId : jsval; token : jsval; deviceId : jsval }.
End TokenBody.

(** The query of [GET /api/v1/items]. [page] and [limit] are the numeric
    values of the parameters ([None] when absent); the text parameters are
    [None] when absent. The parameters covered are the ones written as
    decimal integers: for them [limit * 1], [(page - 1) * limit],
    [total / limit], [parseInt(page)] and [parseInt(limit)] all work on the
    one number the text denotes. *)
Module ItemsQuery.
Record t : Type := mk {
  page : option Z;
  limit : option Z;
  category : option jsstring;
  search : option jsstring;
  ownerId : option jsstring
}.
End ItemsQuery.

Module Pagination.
(** [pages] is [None] when the quotient is not a finite number. *)
Record t : Type := mk { page : Z; limit : Z; total : Z; pages : option Z }.
End Pagination.

(** The JSON bodies the modelled routes send. *)
Inductive Body : Type :=
  | BError (error : jsstring)
  | BOffer (data : Offer.t)
  | BItem (data : Item.t)
  | BItems (data : list Item.t) (pagination : Pagination.t)
  | BTokens (tokens : list jsval) (registeredAt : Z) (message : jsstring)
  | BPush (data : PushResult.t) (message : jsstring)
  | BSkip (data : SkipResult.t) (message : jsstring).

Record Response : Type := mkResponse { status : nat; body : Body }.

(** The values of [status] in [offerSchema]. *)
Definition offer_statuses : list jsstring :=
  [js "PENDING"; js "ACCEPTED"; js "REJECTED"; js "COUNTERED"; js "EXPIRED";
   js "CANCELLED"].

Section Server.

Context (E : Env).

(** ** Storage operations *)

(** Every storage operation is counted and rejects when the environment
    says so. *)
Definition storage {A} (op : M A) : M A := fun w =>
  let w1 := set_db_calls (S (db_calls w)) w in
  match db_fault E (db_calls w) with
  | Some e => (inr e, w1)
  | None => op w1
  end.

(** [User.findOne({ id })] *)
Definition User_findOne (id : jsval) : M (option User.t) :=
  storage (fun w => (inl (List.find (user_has_id id) (users w)), w)).

(** [Item.findOne({ id })] *)
Definition Item_findOne (id : jsstring) : M (option Item.t) :=
  storage (fun w => (inl (List.find (item_has_id id) (items w)), w)).

(** [User.updateOne({ id }, { $pull, $set })] *)
Definition User_updateOne_pull (id : jsval) (bad : list jsval) (updatedAt : Z)
  : M unit :=
  storage (modify (fun w =>
    set_users (update_first (user_has_id id) (pull_tokens bad updatedAt)
                            (users w)) w)).

(** [User.findOneAndUpdate({ id }, update, { new: true })] for the update of
    the registration route. The device id goes into the path unchecked;
    where the store refuses the update, that is a failure of the operation
    like any other, a fault of [db_fault]. *)
Definition User_findOneAndUpdate_tokens (id : jsval) (p : TokenUpdate)
  : M (option User.t) :=
  storage (
    let* w := get in
    match List.find (user_has_id id) (users w) with
    | Some u =>
        modify (set_users (update_first (user_has_id id) (apply_TokenUpdate p)
                                        (users w)));;
        ret (Some (apply_TokenUpdate p u))
    | None => ret None
    end).

(** [Item.findOneAndUpdate({ id }, { isAvailable: false, updatedAt },
    { new: true })] *)
Definition Item_findOneAndUpdate_soft_delete (id : jsstring) (updatedAt : Z)
  : M (option Item.t) :=
  storage (
    let* w := get in
    match List.find (item_has_id id) (items w) with
    | Some i =>
        modify (set_items (update_first (item_has_id id) (soft_delete updatedAt)
                                        (items w)));;
        ret (Some (soft_delete updatedAt i))
    | None => ret None
    end).

(** [new Offer(body).save()]: the document is validated first, before the
    store is asked anything (the required String paths must be non-empty and
    [status] must be one of the schema's values), then inserted, where the
    unique index on [id] rejects a second document with the same id. The
    texts of the two errors stand for the ones Mongoose and the store
    compose, which name the paths and the key; no property below depends on
    them. *)
Definition Offer_save (o : Offer.t) : M Offer.t :=
  if is_empty (Offer.id o) || is_empty (Offer.fromUserId o)
     || is_empty (Offer.toUserId o) || is_empty (Offer.requestedItemId o)
     || negb (bool_decide (Offer.status o ∈ offer_statuses))
  then throw (Error (js "Offer validation failed"))
  else
    storage (
      let* w := get in
      if existsb (fun o' => bool_decide (Offer.id o' = Offer.id o)) (offers w)
      then throw (Error (js "E11000 duplicate key error"))
      else modify (set_offers (offers w ++ [o]));; ret o).

(** ** Firebase Admin / FCM helpers *)

Definition env_truthy (o : option jsstring) : bool :=
  match o with
  | Some s => negb (is_empty s)
  | None => false
  end.

(** [process.env.FIREBASE_SERVICE_ACCOUNT_JSON ||
    process.env.FIREBASE_SERVICE_ACCOUNT] *)
Definition getRawFirebaseCredential : option jsstring :=
  if env_truthy (FIREBASE_SERVICE_ACCOUNT_JSON E)
  then FIREBASE_SERVICE_ACCOUNT_JSON E
  else FIREBASE_SERVICE_ACCOUNT E.

(** The result is [JNull] where the source returns [null]. *)
Definition parseFirebaseCredential : M json :=
  let raw := getRawFirebaseCredential in
  if negb (env_truthy raw) then ret JNull
  else
    try_catch (lift (JSON_parse E (default [] raw)))
      (fun error =>
         try_catch
           (let decoded := base64_utf8 E (default [] raw) in
            lift (JSON_parse E decoded))
           (fun innerError => log LogInvalidCredential;; ret JNull)).

(** The result is [false] where the source returns [null], [true] where it
    returns the messaging handle. The inner [return null] of the source leaves
    the [try] block: here the block's first half yields whether to go on. *)
Definition initializeFirebaseMessaging : M bool :=
  let* w := get in
  if firebaseMessaging w then ret true
  else
    try_catch
      (let* w := get in
       let* ready :=
         (if Nat.eqb (admin_apps w) 0 then
            let* credential := parseFirebaseCredential in
            if negb (json_truthy credential) then
              log LogNotConfigured;; ret false
            else
              lift_opt (sdk_initializeApp E credential);;
              modify (fun w => set_admin_apps (S (admin_apps w)) w);;
              log LogInitialized;;
              ret true
          else ret true) in
       if ready then
         lift_opt (sdk_messaging E);;
         modify (set_firebaseMessaging true);;
         ret true
       else ret false)
      (fun error => log (LogInitFailed error);; ret false).

(** [firebaseMessaging || initializeFirebaseMessaging()] *)
Definition getFirebaseMessaging : M bool :=
  let* w := get in
  if firebaseMessaging w then ret true else initializeFirebaseMessaging.

(** [value === undefined || value === null ? '' : String(value)] *)
Definition coerce (value : jsval) : jsval :=
  match value with
  | VUndefined | VNull => VStr []
  | _ => VStr (ToString value)
  end.

(** [Object.entries(data).reduce((acc, [key, value]) => ..., {})] *)
Definition buildDataPayload (data : gmap jsstring jsval) : gmap jsstring jsval :=
  map_fold (fun key value acc => <[key := coerce value]> acc) ∅ data.

Definition chunkSize : nat := 500.

(** The loop [for (let i = 0; i < uniqueTokens.length; i += chunkSize)
    batches.push(uniqueTokens.slice(i, i + chunkSize))], from any [i]. *)
Equations? batches_from (uniqueTokens : list jsval) (i : nat)
  (batches : list (list jsval)) : list (list jsval)
  by wf (length uniqueTokens - i) lt :=
  batches_from uniqueTokens i batches with decide (i < length uniqueTokens) => {
    | left _ :=
        batches_from uniqueTokens (i + chunkSize)
          (batches ++ [slice uniqueTokens i (i + chunkSize)]);
    | right _ := batches }.
Proof. unfold chunkSize. lia. Qed.

(** [messaging.sendEachForMulticast(m)]: the call is recorded, the provider
    answers or rejects. *)
Definition messaging_sendEachForMulticast (m : MulticastMessage.t)
  : M BatchResponse.t := fun w =>
  (sendEachForMulticast E (length (pushed w)) m,
   set_pushed (pushed w ++ [m]) w).

(** [result.error?.code || ''] *)
Definition errorCode_of (result : SendResponse.t) : jsstring :=
  match SendResponse.error result with
  | Some e => FirebaseError.code e
  | None => []
  end.

(** One step of [response.responses.forEach((result, index) => ...)]:
    the new content of [invalidTokens]. *)
Definition collect_invalid (batch : list jsval) (invalidTokens : list jsval)
  (result : SendResponse.t) (index : nat) : list jsval :=
  if negb (SendResponse.success result) then
    let errorCode := errorCode_of result in
    if includes errorCode (js "registration-token-not-registered")
       || includes errorCode (js "invalid-registration-token")
    then invalidTokens ++ [default VUndefined (batch !! index)]
    else invalidTokens
  else invalidTokens.

Fixpoint forEach_responses (batch : list jsval) (responses : list SendResponse.t)
  (index : nat) (invalidTokens : list jsval) : list jsval :=
  match responses with
  | [] => invalidTokens
  | result :: rest =>
      forEach_responses batch rest (S index)
        (collect_invalid batch invalidTokens result index)
  end.

(** The message built for one batch. *)
Definition multicast_message (batch : list jsval) (notification : Notification.t)
  (data : gmap jsstring jsval) (android : AndroidOptions.t)
  : MulticastMessage.t :=
  MulticastMessage.mk batch notification (buildDataPayload data)
    (js "high")
    (js_or (AndroidOptions.channelId android)
           (VStr (js "swoptrader_notifications")))
    (js "default")
    (AndroidOptions.tag android)
    (js "10")
    (js "default")
    (js_or (AndroidOptions.apnsCategory android) (VStr (js "SWOPTRADER_EVENT"))).

(** The loop [for (const batch of batches)] with its three accumulators. *)
Fixpoint send_batches (batches : list (list jsval))
  (notification : Notification.t) (data : gmap jsstring jsval)
  (android : AndroidOptions.t)
  (successCount failureCount : nat) (invalidTokens : list jsval)
  : M PushResult.t :=
  match batches with
  | [] => ret (PushResult.mk successCount failureCount invalidTokens)
  | batch :: rest =>
      let* response :=
        messaging_sendEachForMulticast
          (multicast_message batch notification data android) in
      send_batches rest notification data android
        (successCount + BatchResponse.successCount response)
        (failureCount + BatchResponse.failureCount response)
        (forEach_responses batch (BatchResponse.responses response) 0
                           invalidTokens)
  end.

(** [[...new Set((tokens || []).filter(Boolean))]]; the callers pass an
    array, which [||] leaves as it is. *)
Definition uniqueTokens_of (tokens : list jsval) : list jsval :=
  new_Set (List.filter truthy tokens).

Definition not_configured : exn :=
  Error (js "Firebase messaging is not configured").

Definition sendPushNotification (tokens : list jsval)
  (notification : Notification.t) (data : gmap jsstring jsval)
  (android : AndroidOptions.t) : M PushResult.t :=
  let* messaging := getFirebaseMessaging in
  if negb messaging then throw not_configured
  else
    let uniqueTokens := uniqueTokens_of tokens in
    if Nat.eqb (length uniqueTokens) 0 then ret (PushResult.mk 0 0 [])
    else
      let batches := batches_from uniqueTokens 0 [] in
      send_batches batches notification data android 0 0 [].

(** ** The offer notification *)

Definition removeInvalidTokens (userId : jsval) (invalidTokens : list jsval)
  : M unit :=
  if Nat.eqb (length invalidTokens) 0 then ret tt
  else
    try_catch
      (let* now := new_Date in
       User_updateOne_pull userId invalidTokens now)
      (fun error => log (LogPruneFailed userId error)).

(** [message.trim()]: a method of strings only. *)
Definition String_trim (v : jsval) : M jsstring :=
  match v with
  | VStr s => ret (trim s)
  | _ => throw (Error (js "message.trim is not a function"))
  end.

(** [(message && message.trim().substring(0, 140)) ||
    `New pitch on ${itemName || 'your listing'}`] *)
Definition notification_body (message itemName : jsval) : M jsstring :=
  let fallback :=
    js "New pitch on " ++ ToString (js_or itemName (VStr (js "your listing"))) in
  if truthy message then
    let* trimmed := String_trim message in
    let cut := substring trimmed 0 140 in
    ret (if is_empty cut then fallback else cut)
  else ret fallback.

Definition offer_data (a : OfferNotification.t) (resolvedSenderName : jsval)
  : gmap jsstring jsval :=
  list_to_map
    [ (js "type", VStr (js "offer"));
      (js "offerId", OfferNotification.offerId a);
      (js "senderUserId", OfferNotification.senderUserId a);
      (js "senderName", resolvedSenderName);
      (js "recipientUserId", OfferNotification.recipientUserId a);
      (js "itemName", js_or (OfferNotification.itemName a) (VStr []));
      (js "message", js_or (OfferNotification.message a) (VStr [])) ].

Definition no_tokens : OfferResult :=
  RSkip (SkipResult.mk true (js "no_tokens")).

Definition sendOfferNotification (a : OfferNotification.t) : M OfferResult :=
  let resolvedSenderName :=
    js_or (OfferNotification.senderName a) (VStr (js "A SwopTrader user")) in
  let* recipient := User_findOne (OfferNotification.recipientUserId a) in
  let recipientTokens :=
    match recipient with
    | Some u => List.filter truthy (User.fcmTokens u)
    | None => []
    end in
  if Nat.eqb (length recipientTokens) 0 then ret no_tokens
  else
    let* body :=
      notification_body (OfferNotification.message a)
                        (OfferNotification.itemName a) in
    let* response :=
      sendPushNotification recipientTokens
        (Notification.mk
           (ToString resolvedSenderName ++ js " sent you an offer") body)
        (offer_data a resolvedSenderName)
        (AndroidOptions.mk
           (VStr (js "swoptrader_offers"))
           (VStr (js "offer_" ++ ToString (OfferNotification.offerId a)))
           (VStr (js "SWOPTRADER_OFFER"))) in
    (if negb (Nat.eqb (length (PushResult.invalidTokens response)) 0) then
       removeInvalidTokens (OfferNotification.recipientUserId a)
                           (PushResult.invalidTokens response)
     else ret tt);;
    ret (RPush response).

(** The [try] block of [queueOfferNotificationForOffer]. *)
Definition queueOfferNotification_try (offer : Offer.t) : M unit :=
  let* (sender, requestedItem) :=
    Promise_all2 (User_findOne (VStr (Offer.fromUserId offer)))
                 (Item_findOne (Offer.requestedItemId offer)) in
  sendOfferNotification
    (OfferNotification.mk
       (VStr (Offer.id offer))
       (VStr (Offer.toUserId offer))
       (VStr (Offer.fromUserId offer))
       (js_or (match sender with
               | Some u => VStr (User.name u)
               | None => VUndefined
               end) (VStr (js "A SwopTrader user")))
       (js_or (match requestedItem with
               | Some i => VStr (Item.name i)
               | None => VUndefined
               end) (VStr []))
       (js_or (Offer.message offer) (VStr [])));;
  ret tt.

(** The argument is [None] for a falsy [offer]. *)
Definition queueOfferNotificationForOffer (offer : option Offer.t) : M unit :=
  match offer with
  | None => ret tt
  | Some offer =>
      try_catch (queueOfferNotification_try offer)
        (fun error => log (LogDispatchFailed (Offer.id offer) error))
  end.

(** ** Routes *)

(** [POST /api/v1/notifications/token] *)
Definition post_notifications_token (b : TokenBody.t) : M Response :=
  try_catch
    (if negb (truthy (TokenBody.userId b)) || negb (truthy (TokenBody.token b))
     then ret (mkResponse 400 (BError (js "userId and token are required")))
     else
       let* updatedAt := new_Date in
       let* lastActive := new_Date in
       let updatePayload :=
         mkTokenUpdate (TokenBody.token b) updatedAt lastActive
           (if truthy (TokenBody.deviceId b)
            then Some (ToString (TokenBody.deviceId b), TokenBody.token b)
            else None) in
       let* user := User_findOneAndUpdate_tokens (TokenBody.userId b)
                                                 updatePayload in
       match user with
       | None => ret (mkResponse 404 (BError (js "User not found")))
       | Some u =>
           let* registeredAt := new_Date in
           ret (mkResponse 200
                  (BTokens (User.fcmTokens u) registeredAt
                           (js "Device token registered")))
       end)
    (fun error =>
       log (LogRegisterFailed error);;
       ret (mkResponse 500 (BError (js "Failed to register device token")))).

(** [POST /api/v1/notifications/offers] *)
Definition post_notifications_offers (b : OfferNotification.t) : M Response :=
  try_catch
    (if negb (truthy (OfferNotification.offerId b))
        || negb (truthy (OfferNotification.recipientUserId b))
        || negb (truthy (OfferNotification.senderUserId b))
        || negb (truthy (OfferNotification.senderName b))
     then ret (mkResponse 400 (BError (js
       "offerId, recipientUserId, senderUserId and senderName are required")))
     else
       let* result := sendOfferNotification b in
       match result with
       | RSkip r =>
           if SkipResult.skipped r
           then ret (mkResponse 404 (BError (js
                  "Recipient has no registered notification tokens")))
           else ret (mkResponse 200
                       (BSkip r (js "No valid device tokens available")))
       | RPush r =>
           ret (mkResponse 200
                  (BPush r (if Nat.eqb (PushResult.successCount r) 0
                            then js "No valid device tokens available"
                            else js "Notification dispatched")))
       end)
    (fun error =>
       if bool_decide (message error = js "Firebase messaging is not configured")
       then ret (mkResponse 503 (BError (js
              "Push notifications not configured on the server")))
       else
         log (LogSendFailed error);;
         ret (mkResponse 500 (BError (js "Failed to send offer notification")))).

(** The filter of [GET /api/v1/items]: [{ isAvailable: true }] and, when the
    parameters are given, [category], [$or] of the two regexes, [ownerId]. *)
Definition items_filter (q : ItemsQuery.t) (re : jsstring -> bool) (i : Item.t)
  : bool :=
  Item.isAvailable i
  && match ItemsQuery.category q with
     | Some c => if is_empty c then true else bool_decide (Item.category i = c)
     | None => true
     end
  && (if env_truthy (ItemsQuery.search q)
      then re (Item.name i) || re (Item.description i)
      else true)
  && match ItemsQuery.ownerId q with
     | Some o => if is_empty o then true else bool_decide (Item.ownerId i = o)
     | None => true
     end.

(** [.sort({ createdAt: -1 })]. The store promises no order among documents
    with the same [createdAt]; the sort below keeps, for them, one order (an
    insertion sort's), so what is stated of a listing beyond [newest_first]
    is stated for items with distinct [createdAt]. *)
Fixpoint insert_desc (i : Item.t) (l : list Item.t) : list Item.t :=
  match l with
  | [] => [i]
  | j :: l' =>
      if Z.leb (Item.createdAt j) (Item.createdAt i) then i :: j :: l'
      else j :: insert_desc i l'
  end.

Definition sort_createdAt_desc (l : list Item.t) : list Item.t :=
  fold_right insert_desc [] l.

(** The compiled regex of the [search] parameter; a pattern the store
    rejects makes both queries fail. *)
Definition search_regex (q : ItemsQuery.t) : M (jsstring -> bool) :=
  if env_truthy (ItemsQuery.search q) then
    match regex_i E (default [] (ItemsQuery.search q)) with
    | Some re => ret re
    | None => throw (Error (js "Regular expression is invalid"))
    end
  else ret (fun _ => true).

(** [Item.find(query).sort(...).limit(limit).skip(skip)]: the store skips,
    then limits; limit 0 is no limit, a negative limit counts as its
    absolute value, a negative skip is rejected. *)
Definition Item_find (q : ItemsQuery.t) (limit skip : Z) : M (list Item.t) :=
  storage (
    let* re := search_regex q in
    if Z.ltb skip 0 then throw (Error (js "Skip value must be non-negative"))
    else
      let* w := get in
      let sorted := sort_createdAt_desc (List.filter (items_filter q re) (items w)) in
      let skipped := drop (Z.to_nat skip) sorted in
      ret (if Z.eqb limit 0 then skipped else take (Z.abs_nat limit) skipped)).

(** [Item.countDocuments(query)] *)
Definition Item_countDocuments (q : ItemsQuery.t) : M Z :=
  storage (
    let* re := search_regex q in
    let* w := get in
    ret (Z.of_nat (length (List.filter (items_filter q re) (items w))))).

(** [Math.ceil(total / limit)] *)
Definition ceil_div (total limit : Z) : option Z :=
  if Z.eqb limit 0 then None else Some (- ((- total) / limit))%Z.

(** [GET /api/v1/items] *)
Definition get_items (q : ItemsQuery.t) : M Response :=
  try_catch
    (let page := default 1%Z (ItemsQuery.page q) in
     let limit := default 20%Z (ItemsQuery.limit q) in
     let* items := Item_find q (limit * 1)%Z ((page - 1) * limit)%Z in
     let* total := Item_countDocuments q in
     ret (mkResponse 200
            (BItems items (Pagination.mk page limit total (ceil_div total limit)))))
    (fun error => ret (mkResponse 500 (BError (message error)))).

(** [DELETE /api/v1/items/:itemId] *)
Definition delete_item (itemId : jsstring) : M Response :=
  try_catch
    (let* updatedAt := new_Date in
     let* item := Item_findOneAndUpdate_soft_delete itemId updatedAt in
     match item with
     | None => ret (mkResponse 404 (BError (js "Item not found")))
     | Some i => ret (mkResponse 200 (BItem i))
     end)
    (fun error => ret (mkResponse 500 (BError (message error)))).

(** [POST /api/v1/offers]; [b] is the document [new Offer(req.body)]. *)
Definition post_offers (b : Offer.t) : M Response :=
  try_catch
    (let* offer := Offer_save b in
     detached (queueOfferNotificationForOffer (Some offer));;
     ret (mkResponse 201 (BOffer offer)))
    (fun error => ret (mkResponse 500 (BError (message error)))).

End Server.

Arguments chunkSize : simpl never.

(** ** Definitions used to state the properties *)

(** The sizes of the batches made of [r] remaining tokens. *)
Definition batch_sizes (r : nat) : list nat :=
  replicate (r / chunkSize) chunkSize ++
  (if Nat.eqb (r mod chunkSize) 0 then [] else [r mod chunkSize]).


(** The provider's answers to the successive messages, the first being call
    number [k]; [None] when one of the calls rejects. *)
Fixpoint provider_answers (E : Env) (k : nat) (msgs : list MulticastMessage.t)
  : option (list BatchResponse.t) :=
  match msgs with
  | [] => Some []
  | m :: ms =>
      match sendEachForMulticast E k m with
      | inl r => cons r <$> provider_answers E (S k) ms
      | inr _ => None
      end
  end.

(** A delivery result that marks its token as permanently invalid. *)
Definition token_rejected (result : SendResponse.t) : bool :=
  negb (SendResponse.success result)
  && (includes (errorCode_of result) (js "registration-token-not-registered")
      || includes (errorCode_of result) (js "invalid-registration-token")).

(** The invalid tokens one batch response reports. *)
Definition invalid_in (batch : list jsval) (response : BatchResponse.t)
  : list jsval :=
  forEach_responses batch (BatchResponse.responses response) 0 [].

(** The transport is usable: initialised already, or initialisable now. *)
Definition configured (E : Env) (w : World) : Prop :=
  fst (getFirebaseMessaging E w) = inl true.

(** Two worlds with the same collections, call log, operation count and
    clock: they differ at most in the transport's state and the console. *)
Definition same_data (w w' : World) : Prop :=
  users w' = users w /\ items w' = items w /\ offers w' = offers w /\
  pushed w' = pushed w /\ db_calls w' = db_calls w /\ clock w' = clock w.

(** No credential can be obtained from the environment. *)
Definition credential_unavailable (E : Env) : Prop :=
  match getRawFirebaseCredential E with
  | Some raw =>
      raw = [] \/
      (exists e1 e2, JSON_parse E raw = inr e1 /\
                     JSON_parse E (base64_utf8 E raw) = inr e2)
  | None => True
  end.

(** The transport has never been initialised. *)
Definition unconfigured (w : World) : Prop :=
  firebaseMessaging w = false /\ admin_apps w = 0.

(** ** Concrete environments and worlds, used to run the model *)

Module Demo.

(** Token number [n]: the text "t" followed by the decimal digits of [n]. *)
Definition tok (n : nat) : jsval :=
  VStr (js "t" ++ ToString (VNum (Z.of_nat n))).

Definition unregistered : FirebaseError.t :=
  FirebaseError.mk (js "messaging/registration-token-not-registered").

(** A provider that accepts every call and rejects exactly the tokens in
    [bad] as unregistered. *)
Definition provider (bad : list jsval) (k : nat) (m : MulticastMessage.t)
  : BatchResponse.t + exn :=
  let ok t := negb (bool_decide (t ∈ bad)) in
  inl (BatchResponse.mk
         (map (fun t => if ok t then SendResponse.mk true None
                        else SendResponse.mk false (Some unregistered))
              (MulticastMessage.tokens m))
         (length (List.filter ok (MulticastMessage.tokens m)))
         (length (List.filter (fun t => negb (ok t))
                              (MulticastMessage.tokens m)))).

(** A parser that accepts the text of an object only. *)
Definition parse (s : jsstring) : json + exn :=
  if startsWith s (js "{") then inl (JObject [])
  else inr (Error (js "Unexpected token in JSON")).

(** A decoder that knows one encoded text. *)
Definition decode (s : jsstring) : jsstring :=
  if bool_decide (s = js "e30=") then js "{}" else [].

(** An environment with a credential, a working SDK, the provider above and
    the storage faults [faults]. *)
Definition env (bad : list jsval) (faults : nat -> option exn) : Env :=
  mkEnv (Some (js "{}")) None parse decode (fun _ => None) None
        (provider bad) faults (fun p => Some (fun s => includes s p)).

(** The same without any credential. *)
Definition env_no_credential : Env :=
  mkEnv None None parse decode (fun _ => None) None
        (provider []) (fun _ => None) (fun p => Some (fun s => includes s p)).

Definition no_faults : nat -> option exn := fun _ => None.

(** Only storage operation number [k] fails. *)
Definition fault_at (k : nat) : nat -> option exn :=
  fun n => if Nat.eqb n k then Some (Error (js "connection lost")) else None.

Definition user (id : string) (tokens : list jsval) : User.t :=
  User.mk (js id) (js id) (js id ++ js "@example.org") None 0 1 0 0
          tokens ∅ 0 0.

Definition item (id : string) (available : bool) (created : Z) : Item.t :=
  Item.mk (js id) (js "guitar") (js "a guitar") (js "Music") (js "good") []
          (js "u1") available created created.

Definition offer : Offer.t :=
  Offer.mk (js "o1") (js "u2") (js "u1") (js "i1") [] (js "PENDING")
           (VStr (js " hi")) None 0 0.

(** A fresh process: two users, the first with two tokens. *)
Definition world : World :=
  mkWorld [user "u1" [tok 1; tok 2]; user "u2" []]
          [item "i1" true 5; item "i2" true 7]
          [] false 0 [] [] 0 1000.

(** The first user holds [n] distinct tokens. *)
Definition world_with (tokens : list jsval) : World :=
  mkWorld [user "u1" tokens; user "u2" []] [] [] false 0 [] [] 0 1000.

Definition notification : Notification.t :=
  Notification.mk (js "title") (js "body").

Definition offer_notification (message : jsval) : OfferNotification.t :=
  OfferNotification.mk (VStr (js "o1")) (VStr (js "u1")) (VStr (js "u2"))
                       (VStr (js "Bob")) VUndefined message.

End Demo.

(** The recipient document a dispatch reads, if any. *)
Definition recipient_of (a : OfferNotification.t) (w : World) : option User.t :=
  List.find (user_has_id (OfferNotification.recipientUserId a)) (users w).

(** The tokens a dispatch to that recipient starts from. *)
Definition recipient_tokens (a : OfferNotification.t) (w : World) : list jsval :=
  match recipient_of a w with
  | Some u => List.filter truthy (User.fcmTokens u)
  | None => []
  end.

(** A message that is a string or is absent (falsy): the values for which
    [message.trim()] is not called on a non-string. *)
Definition text_or_absent (message : jsval) : Prop :=
  match message with
  | VStr _ => True
  | v => truthy v = false
  end.

(** The sender name a dispatch shows: [senderName || 'A SwopTrader user']. *)
Definition resolved_sender (a : OfferNotification.t) : jsval :=
  js_or (OfferNotification.senderName a) (VStr (js "A SwopTrader user")).

(** The text of the fallback body. *)
Definition pitch_on (itemName : jsval) : jsstring :=
  js "New pitch on " ++ ToString (js_or itemName (VStr (js "your listing"))).

(** The body of the notification for a message that is a string or absent:
    the message trimmed and cut to 140 code units, or the fallback when
    nothing is left. *)
Definition offer_body (message itemName : jsval) : jsstring :=
  match message with
  | VStr s =>
      if is_empty (substring (trim s) 0 140) then pitch_on itemName
      else substring (trim s) 0 140
  | _ => pitch_on itemName
  end.

(** The message a dispatch builds for one batch. *)
Definition offer_message (a : OfferNotification.t) (batch : list jsval)
  : MulticastMessage.t :=
  multicast_message batch
    (Notification.mk (ToString (resolved_sender a) ++ js " sent you an offer")
                     (offer_body (OfferNotification.message a)
                                 (OfferNotification.itemName a)))
    (offer_data a (resolved_sender a))
    (AndroidOptions.mk
       (VStr (js "swoptrader_offers"))
       (VStr (js "offer_" ++ ToString (OfferNotification.offerId a)))
       (VStr (js "SWOPTRADER_OFFER"))).

(** The update document the registration route builds at time [now]. *)
Definition token_update (b : TokenBody.t) (now : Z) : TokenUpdate :=
  mkTokenUpdate (TokenBody.token b) now now
    (if truthy (TokenBody.deviceId b)
     then Some (ToString (TokenBody.deviceId b), TokenBody.token b)
     else None).

(** ** The server as a whole *)

(** The requests of the modelled routes. *)
Inductive Request : Type :=
  | PostNotificationsToken (b : TokenBody.t)
  | PostNotificationsOffers (b : OfferNotification.t)
  | GetItems (q : ItemsQuery.t)
  | DeleteItem (itemId : jsstring)
  | PostOffers (b : Offer.t).

(** The handler Express routes a request to. *)
Definition handle (E : Env) (r : Request) : M Response :=
  match r with
  | PostNotificationsToken b => post_notifications_token E b
  | PostNotificationsOffers b => post_notifications_offers E b
  | GetItems q => get_items E q
  | DeleteItem itemId => delete_item E itemId
  | PostOffers b => post_offers E b
  end.

(** The world after a sequence of requests, each handled to completion. *)
Definition serve (E : Env) (rs : list Request) (w : World) : World :=
  fold_left (fun w r => snd (handle E r w)) rs w.

(** A computation that keeps a property of the world. *)
Definition preserves {A} (P : World -> Prop) (m : M A) : Prop :=
  forall w, P w -> P (snd (m w)).

(** The state of the firebase-admin SDK the process can be in: at most one
    app, and a messaging handle only with an app. *)
Definition transport_inv (w : World) : Prop :=
  admin_apps w <= 1 /\ (firebaseMessaging w = true -> admin_apps w = 1).



(** The provider's contract on its answers: at most one delivery result per
    token of the batch. *)
Definition one_result_per_token (batches : list (list jsval))
  (rs : list BatchResponse.t) : Prop :=
  Forall2 (fun batch response =>
             length (BatchResponse.responses response) <= length batch)
          batches rs.

(** [u'] is [u] with some tokens removed from the flat token set and,
    possibly, another [updatedAt]; everything else is the same. *)
Definition pruned_of (u u' : User.t) : Prop :=
  User.id u' = User.id u /\ User.name u' = User.name u /\
  User.email u' = User.email u /\
  User.profileImageUrl u' = User.profileImageUrl u /\
  User.tradeScore u' = User.tradeScore u /\ User.level u' = User.level u /\
  User.carbonSaved u' = User.carbonSaved u /\
  User.lastActive u' = User.lastActive u /\
  User.deviceTokens u' = User.deviceTokens u /\
  User.createdAt u' = User.createdAt u /\
  sublist (User.fcmTokens u') (User.fcmTokens u).


(** The compiled [search] pattern of a query, if the store accepts it; a
    query without [search] matches every text. *)
Definition query_regex (E : Env) (q : ItemsQuery.t)
  : option (jsstring -> bool) :=
  if env_truthy (ItemsQuery.search q)
  then regex_i E (default [] (ItemsQuery.search q))
  else Some (fun _ => true).

(** The items a query selects, as the collection holds them. *)
Definition selected (E : Env) (q : ItemsQuery.t) (w : World) : list Item.t :=
  match query_regex E q with
  | Some re => List.filter (items_filter q re) (items w)
  | None => []
  end.

(** All the items a query selects, newest first. *)
Definition listing (E : Env) (q : ItemsQuery.t) (w : World) : list Item.t :=
  match query_regex E q with
  | Some re => sort_createdAt_desc (List.filter (items_filter q re) (items w))
  | None => []
  end.

(** The same query for page [p]. *)
Definition at_page (p : Z) (q : ItemsQuery.t) : ItemsQuery.t :=
  ItemsQuery.mk (Some p) (ItemsQuery.limit q) (ItemsQuery.category q)
                (ItemsQuery.search q) (ItemsQuery.ownerId q).

(** The [data] and the [pagination] of a listing's answer. *)
Definition data_of (r : (Response + exn) * World) : list Item.t :=
  match fst r with
  | inl (mkResponse _ (BItems data _)) => data
  | _ => []
  end.

Definition pagination_of (r : (Response + exn) * World)
  : option Pagination.t :=
  match fst r with
  | inl (mkResponse _ (BItems _ pagination)) => Some pagination
  | _ => None
  end.

(** Newest first. *)
Definition newest_first (l : list Item.t) : Prop :=
  StronglySorted (fun a b => (Item.createdAt b <= Item.createdAt a)%Z) l.

(** [GET /api/v1/items/:itemId] *)
Definition get_item (E : Env) (itemId : jsstring) : M Response :=
  try_catch
    (let* item := Item_findOne E itemId in
     match item with
     | None => ret (mkResponse 404 (BError (js "Item not found")))
     | Some i => ret (mkResponse 200 (BItem i))
     end)
    (fun error => ret (mkResponse 500 (BError (message error)))).

(** The status of an answer. *)
Definition status_of (r : Response + exn) : option nat :=
  match r with
  | inl response => Some (status response)
  | inr _ => None
  end.

(** What [new Offer(body).save()] checks of the document itself. *)
Definition offer_valid (o : Offer.t) : Prop :=
  Offer.id o <> [] /\ Offer.fromUserId o <> [] /\ Offer.toUserId o <> [] /\
  Offer.requestedItemId o <> [] /\ Offer.status o ∈ offer_statuses.

(** The arguments [queueOfferNotificationForOffer] passes on for an offer,
    the sender and the requested item being looked up in [w]. *)
Definition notification_of_offer (offer : Offer.t) (w : World)
  : OfferNotification.t :=
  OfferNotification.mk
    (VStr (Offer.id offer))
    (VStr (Offer.toUserId offer))
    (VStr (Offer.fromUserId offer))
    (js_or (match List.find (user_has_id (VStr (Offer.fromUserId offer)))
                            (users w) with
            | Some u => VStr (User.name u)
            | None => VUndefined
            end) (VStr (js "A SwopTrader user")))
    (js_or (match List.find (item_has_id (Offer.requestedItemId offer))
                            (items w) with
            | Some i => VStr (Item.name i)
            | None => VUndefined
            end) (VStr []))
    (js_or (Offer.message offer) (VStr [])).

(** The fields of a user document that say who the user is. *)
Definition same_user_identity (u u' : User.t) : Prop :=
  User.id u' = User.id u /\ User.name u' = User.name u /\
  User.email u' = User.email u /\
  User.profileImageUrl u' = User.profileImageUrl u /\
  User.tradeScore u' = User.tradeScore u /\ User.level u' = User.level u /\
  User.carbonSaved u' = User.carbonSaved u /\
  User.createdAt u' = User.createdAt u.

(** [i'] is [i], possibly withdrawn and with another [updatedAt]. *)
Definition item_kept (i i' : Item.t) : Prop :=
  Item.id i' = Item.id i /\ Item.name i' = Item.name i /\
  Item.description i' = Item.description i /\
  Item.category i' = Item.category i /\
  Item.condition i' = Item.condition i /\ Item.images i' = Item.images i /\
  Item.ownerId i' = Item.ownerId i /\ Item.createdAt i' = Item.createdAt i /\
  (Item.isAvailable i' = true -> Item.isAvailable i = true).

(** What one request can do to the three collections. *)
Definition documents_step (w w' : World) : Prop :=
  Forall2 same_user_identity (users w) (users w') /\
  Forall2 item_kept (items w) (items w') /\
  (offers w' = offers w \/
   exists o, offers w' = offers w ++ [o] /\ offer_valid o /\
             Offer.id o ∉ map Offer.id (offers w)).

(** ** The admin clean-up of orphaned items *)

(** The body [DELETE /api/v1/admin/cleanup-orphaned-items] answers with;
    [orphanedOwnerIds] is absent when nothing was found. *)
Module Cleanup.
Record t : Type := mk {
  message : jsstring;
  deletedCount : nat;
  orphanedOwnerIds : option (list jsstring)
}.
End Cleanup.

(** [Item.distinct('ownerId')]; the store decides the order of the values,
    here that of their last occurrence. *)
Definition Item_distinct_ownerId (E : Env) : M (list jsstring) :=
  storage E (fun w => (inl (remove_dups (map Item.ownerId (items w))), w)).

(** [User.distinct('id')] *)
Definition User_distinct_id (E : Env) : M (list jsstring) :=
  storage E (fun w => (inl (remove_dups (map User.id (users w))), w)).

(** [Item.deleteMany({ ownerId: { $in: ownerIds } })], which resolves to
    the number of documents removed. *)
Definition Item_deleteMany_ownerId_in (E : Env) (ownerIds : list jsstring)
  : M nat :=
  storage E (
    let* w := get in
    let kept :=
      List.filter (fun i => negb (bool_decide (Item.ownerId i ∈ ownerIds)))
                  (items w) in
    modify (set_items kept);;
    ret (length (items w) - length kept)).

(** The [try] block of [DELETE /api/v1/admin/cleanup-orphaned-items]. *)
Definition cleanup_orphaned_items_try (E : Env) : M Cleanup.t :=
  let* itemsWithOwners := Item_distinct_ownerId E in
  let* allUsers := User_distinct_id E in
  let orphanedOwnerIds :=
    List.filter (fun ownerId => negb (bool_decide (ownerId ∈ allUsers)))
                itemsWithOwners in
  if Nat.eqb (length orphanedOwnerIds) 0
  then ret (Cleanup.mk (js "No orphaned items found") 0 None)
  else
    let* deletedCount := Item_deleteMany_ownerId_in E orphanedOwnerIds in
    ret (Cleanup.mk
           (js "Cleaned up " ++ ToString (VNum (Z.of_nat deletedCount))
            ++ js " orphaned items")
           deletedCount (Some orphanedOwnerIds)).

(** The owner of an item is a user of the collection. *)
Definition has_owner (w : World) (i : Item.t) : bool :=
  bool_decide (Item.ownerId i ∈ map User.id (users w)).


(** ** Creating an item *)

(** [new Item(body).save()]: the document is validated first (the required
    String paths must be non-empty), then inserted, where the unique index
    on [id] rejects a second document with the same id. *)
Definition Item_save (E : Env) (i : Item.t) : M Item.t :=
  if is_empty (Item.id i) || is_empty (Item.name i)
     || is_empty (Item.description i) || is_empty (Item.category i)
     || is_empty (Item.condition i) || is_empty (Item.ownerId i)
  then throw (Error (js "Item validation failed"))
  else
    storage E (
      let* w := get in
      if existsb (fun i' => bool_decide (Item.id i' = Item.id i)) (items w)
      then throw (Error (js "E11000 duplicate key error"))
      else modify (set_items (items w ++ [i]));; ret i).

(** [POST /api/v1/items]; [b] is the document [new Item(req.body)]. *)
Definition post_items (E : Env) (b : Item.t) : M Response :=
  try_catch
    (let* item := Item_save E b in
     ret (mkResponse 201 (BItem item)))
    (fun error => ret (mkResponse 500 (BError (message error)))).

(** What [new Item(body).save()] checks of the document itself. *)
Definition item_valid (i : Item.t) : Prop :=
  Item.id i <> [] /\ Item.name i <> [] /\ Item.description i <> [] /\
  Item.category i <> [] /\ Item.condition i <> [] /\ Item.ownerId i <> [].

(** ** The offers listing *)

(** The query string of [GET /api/v1/offers]. *)
Module OffersQuery.
Record t : Type := mk {
  page : option Z;
  limit : option Z;
  status : option jsstring;
  userId : option jsstring
}.
End OffersQuery.

Inductive OffersBody : Type :=
  | OError (error : jsstring)
  | OOffers (data : list Offer.t) (pagination : Pagination.t).

Record OffersResponse : Type :=
  mkOffersResponse { offers_status : nat; offers_body : OffersBody }.

(** The filter of [GET /api/v1/offers]: [status] and, for [userId], [$or]
    of [fromUserId] and [toUserId], each when the parameter is given. *)
Definition offers_filter (q : OffersQuery.t) (o : Offer.t) : bool :=
  match OffersQuery.status q with
  | Some s => if is_empty s then true else bool_decide (Offer.status o = s)
  | None => true
  end
  && match OffersQuery.userId q with
     | Some u =>
         if is_empty u then true
         else bool_decide (Offer.fromUserId o = u)
              || bool_decide (Offer.toUserId o = u)
     | None => true
     end.

(** [.sort({ createdAt: -1 })] on offers *)
Fixpoint insert_offer_desc (o : Offer.t) (l : list Offer.t) : list Offer.t :=
  match l with
  | [] => [o]
  | p :: l' =>
      if Z.leb (Offer.createdAt p) (Offer.createdAt o) then o :: p :: l'
      else p :: insert_offer_desc o l'
  end.

Definition sort_offers_desc (l : list Offer.t) : list Offer.t :=
  fold_right insert_offer_desc [] l.

(** [Offer.find(query).sort(...).limit(limit).skip(skip)] *)
Definition Offer_find (E : Env) (q : OffersQuery.t) (limit skip : Z)
  : M (list Offer.t) :=
  storage E (
    if Z.ltb skip 0 then throw (Error (js "Skip value must be non-negative"))
    else
      let* w := get in
      let sorted := sort_offers_desc (List.filter (offers_filter q) (offers w)) in
      let skipped := drop (Z.to_nat skip) sorted in
      ret (if Z.eqb limit 0 then skipped else take (Z.abs_nat limit) skipped)).

(** [Offer.countDocuments(query)] *)
Definition Offer_countDocuments (E : Env) (q : OffersQuery.t) : M Z :=
  storage E (
    let* w := get in
    ret (Z.of_nat (length (List.filter (offers_filter q) (offers w))))).

(** [GET /api/v1/offers] *)
Definition get_offers (E : Env) (q : OffersQuery.t) : M OffersResponse :=
  try_catch
    (let page := default 1%Z (OffersQuery.page q) in
     let limit := default 20%Z (OffersQuery.limit q) in
     let* offers := Offer_find E q (limit * 1)%Z ((page - 1) * limit)%Z in
     let* total := Offer_countDocuments E q in
     ret (mkOffersResponse 200
            (OOffers offers
                     (Pagination.mk page limit total (ceil_div total limit)))))
    (fun error => ret (mkOffersResponse 500 (OError (message error)))).

(** The position of the first occurrence of [t] in [l] (the length of [l]
    when there is none). *)
Fixpoint first_index (t : jsval) (l : list jsval) : nat :=
  match l with
  | [] => 0
  | x :: l' => if bool_decide (x = t) then 0 else S (first_index t l')
  end.

(** * Properties *)

(** ** The model runs *)

Example ToString_num : ToString (VNum (-42)) = js "-42".
Proof. reflexivity. Qed.

Example trim_ex : trim (js "  hi there ") = js "hi there".
Proof. reflexivity. Qed.

Example includes_ex :
  includes (js "messaging/registration-token-not-registered")
           (js "registration-token-not-registered") = true.
Proof. reflexivity. Qed.

Example new_Set_ex :
  new_Set [VStr (js "a"); VStr (js "b"); VStr (js "a")] =
  [VStr (js "a"); VStr (js "b")].
Proof. reflexivity. Qed.

Example batches_1001 :
  map length (batches_from (map Demo.tok (seq 1 1001)) 0 []) = [500; 500; 1].
Proof. vm_compute. reflexivity. Qed.

(** A user without tokens registers one, an offer is then announced to them
    and the provider accepts the delivery. *)
Example register_then_offer :
  let E := Demo.env [] Demo.no_faults in
  let w0 := Demo.world_with [] in
  let '(r1, w1) :=
    post_notifications_token E
      (TokenBody.mk (VStr (js "u1")) (Demo.tok 1) VUndefined) w0 in
  let '(r2, w2) :=
    post_notifications_offers E (Demo.offer_notification VUndefined) w1 in
  r1 = inl (mkResponse 200 (BTokens [Demo.tok 1] 1000
                                    (js "Device token registered"))) /\
  r2 = inl (mkResponse 200 (BPush (PushResult.mk 1 0 [])
                                  (js "Notification dispatched"))) /\
  map (fun m => (MulticastMessage.tokens m,
                 Notification.title (MulticastMessage.notification m),
                 Notification.body (MulticastMessage.notification m)))
      (pushed w2) =
  [([Demo.tok 1], js "Bob sent you an offer", js "New pitch on your listing")].
Proof. vm_compute. repeat split. Qed.

(** A credential given as base64 text is tried as it is first, then decoded. *)
Example credential_in_base64 :
  let E := mkEnv (Some (js "e30=")) None Demo.parse Demo.decode
                 (fun _ => None) None (Demo.provider []) Demo.no_faults
                 (fun _ => None) in
  parseFirebaseCredential E Demo.world = (inl (JObject []), Demo.world) /\
  configured E Demo.world.
Proof. vm_compute. repeat split. Qed.

(** ** Sets of tokens *)

Lemma elem_of_Set_add s v x : x ∈ Set_add s v <-> x ∈ s \/ x = v.
Proof.
  unfold Set_add. case_bool_decide.
  - split; [auto | intros [?| ->]; auto].
  - rewrite elem_of_app, list_elem_of_singleton. tauto.
Qed.

Lemma NoDup_Set_add s v : NoDup s -> NoDup (Set_add s v).
Proof.
  intros Hs. unfold Set_add. case_bool_decide; [done|].
  apply NoDup_app. split_and!; [done | | apply NoDup_singleton].
  intros x Hx ->%list_elem_of_singleton. contradiction.
Qed.

Lemma elem_of_fold_Set_add l s x :
  x ∈ fold_left Set_add l s <-> x ∈ s \/ x ∈ l.
Proof.
  revert s. induction l as [|v l IH]; intros s; simpl.
  - rewrite elem_of_nil. tauto.
  - rewrite IH, elem_of_Set_add, elem_of_cons. tauto.
Qed.

Lemma NoDup_fold_Set_add l s : NoDup s -> NoDup (fold_left Set_add l s).
Proof.
  revert s. induction l as [|v l IH]; intros s Hs; simpl; [done|].
  apply IH, NoDup_Set_add, Hs.
Qed.

Lemma fold_Set_add_NoDup l s : NoDup (s ++ l) -> fold_left Set_add l s = s ++ l.
Proof.
  revert s. induction l as [|v l IH]; intros s Hs; simpl.
  - now rewrite app_nil_r.
  - assert (v ∉ s) as Hv.
    { apply NoDup_app in Hs as (_ & Hs & _). intros Hin.
      apply (Hs v Hin). left. }
    unfold Set_add at 2. rewrite bool_decide_eq_false_2 by done.
    rewrite IH; rewrite <- app_assoc; simpl; done.
Qed.

Lemma NoDup_new_Set l : NoDup (new_Set l).
Proof. apply NoDup_fold_Set_add, NoDup_nil_2. Qed.

Lemma elem_of_new_Set l x : x ∈ new_Set l <-> x ∈ l.
Proof.
  unfold new_Set. rewrite elem_of_fold_Set_add, elem_of_nil. tauto.
Qed.

Lemma new_Set_NoDup l : NoDup l -> new_Set l = l.
Proof. intros H. unfold new_Set. now rewrite fold_Set_add_NoDup. Qed.

Lemma filter_truthy_all l :
  Forall (fun t => truthy t = true) l -> List.filter truthy l = l.
Proof.
  induction 1 as [|t l Ht _ IH]; simpl; [done|]. now rewrite Ht, IH.
Qed.

Lemma filter_truthy_none l :
  Forall (fun t => truthy t = false) l -> List.filter truthy l = [].
Proof.
  induction 1 as [|t l Ht _ IH]; simpl; [done|]. now rewrite Ht.
Qed.

Lemma elem_of_filter_truthy l x :
  x ∈ List.filter truthy l <-> x ∈ l /\ truthy x = true.
Proof. rewrite !list_elem_of_In, filter_In. tauto. Qed.

(** ** Batching *)

Lemma chunkSize_pos : 0 < chunkSize.
Proof. unfold chunkSize. lia. Qed.

Lemma length_slice {A} (a : list A) i n :
  length (slice a i (i + n)) = Nat.min n (length a - i).
Proof. unfold slice. rewrite length_take, length_drop. f_equal. lia. Qed.

Lemma concat_batches_from u i batches :
  concat (batches_from u i batches) = concat batches ++ drop i u.
Proof.
  funelim (batches_from u i batches).
  - match goal with IH : concat _ = _ |- _ => rewrite IH end.
    rewrite concat_app. simpl. rewrite app_nil_r, <- app_assoc. f_equal.
    unfold slice. replace (i + chunkSize - i) with chunkSize by lia.
    rewrite <- drop_drop. apply take_drop.
  - rewrite drop_ge by lia. now rewrite app_nil_r.
Qed.

Lemma batch_sizes_small r : 0 < r -> r <= chunkSize -> batch_sizes r = [r].
Proof.
  intros H0 H1. unfold batch_sizes.
  destruct (decide (r = chunkSize)) as [->|Hne].
  - rewrite Nat.div_same, Nat.Div0.mod_same by (pose proof chunkSize_pos; lia).
    reflexivity.
  - rewrite Nat.div_small, Nat.mod_small by lia. simpl.
    destruct (Nat.eqb_spec r 0); [lia | done].
Qed.

Lemma batch_sizes_add r :
  batch_sizes (r + chunkSize) = chunkSize :: batch_sizes r.
Proof.
  unfold batch_sizes. pose proof chunkSize_pos.
  replace (r + chunkSize) with (r + 1 * chunkSize) by lia.
  rewrite Nat.div_add, Nat.Div0.mod_add by lia.
  replace (r / chunkSize + 1) with (S (r / chunkSize)) by lia.
  reflexivity.
Qed.

Lemma lengths_batches_from u i batches :
  map length (batches_from u i batches) =
  map length batches ++
  (if decide (i < length u) then batch_sizes (length u - i) else []).
Proof.
  funelim (batches_from u i batches).
  - match goal with IH : map length _ = _ |- _ => rewrite IH end.
    rewrite map_app. simpl. rewrite <- app_assoc. f_equal. simpl.
    rewrite length_slice.
    destruct (decide (i < length uniqueTokens)); [|lia].
    destruct (decide (i + chunkSize < length uniqueTokens)).
    + replace (length uniqueTokens - i)
        with (length uniqueTokens - (i + chunkSize) + chunkSize) by lia.
      rewrite batch_sizes_add, Nat.min_l by lia. reflexivity.
    + rewrite batch_sizes_small by lia. f_equal. lia.
  - destruct (decide (i < length uniqueTokens)); [lia|].
    now rewrite app_nil_r.
Qed.

Lemma batch_sizes_bounds r :
  Forall (fun n => 1 <= n <= chunkSize) (batch_sizes r).
Proof.
  unfold batch_sizes. pose proof chunkSize_pos. apply Forall_app. split.
  - apply Forall_replicate. lia.
  - destruct (Nat.eqb_spec (r mod chunkSize) 0); [constructor|].
    apply Forall_singleton.
    pose proof (Nat.mod_upper_bound r chunkSize). lia.
Qed.

Lemma batches_from_nil : batches_from [] 0 [] = [].
Proof. reflexivity. Qed.

(** ** Sending the batches *)

Lemma set_pushed_id w : set_pushed (pushed w) w = w.
Proof. now destruct w. Qed.

Lemma collect_invalid_app batch acc result index :
  collect_invalid batch acc result index =
  acc ++ collect_invalid batch [] result index.
Proof.
  unfold collect_invalid.
  repeat match goal with |- context [if ?b then _ else _] => destruct b end;
    simpl; now rewrite ?app_nil_r.
Qed.

Lemma forEach_responses_app batch rs index acc :
  forEach_responses batch rs index acc =
  acc ++ forEach_responses batch rs index [].
Proof.
  revert index acc. induction rs as [|r rs IH]; intros index acc; simpl.
  - now rewrite app_nil_r.
  - rewrite IH, (IH _ (collect_invalid batch [] r index)).
    rewrite (collect_invalid_app batch acc). now rewrite app_assoc.
Qed.

Lemma collect_invalid_rejected batch result index :
  collect_invalid batch [] result index =
  if token_rejected result then [default VUndefined (batch !! index)] else [].
Proof.
  unfold collect_invalid, token_rejected.
  destruct (SendResponse.success result); simpl; [done|].
  now destruct (_ || _).
Qed.

Lemma elem_of_forEach_responses batch rs index t :
  t ∈ forEach_responses batch rs index [] <->
  exists i result,
    rs !! i = Some result /\ token_rejected result = true /\
    default VUndefined (batch !! (index + i)) = t.
Proof.
  revert index. induction rs as [|r rs IH]; intros index; simpl.
  - rewrite elem_of_nil. split; [done|]. now intros (i & result & ? & _).
  - rewrite forEach_responses_app, elem_of_app, IH, collect_invalid_rejected.
    split.
    + intros [Hin | (i & result & Hi & Hr & Ht)].
      * destruct (token_rejected r) eqn:Hr; [|now apply elem_of_nil in Hin].
        apply list_elem_of_singleton in Hin. exists 0, r.
        now rewrite Nat.add_0_r.
      * exists (S i), result. now rewrite <- Nat.add_succ_comm.
    + intros (i & result & Hi & Hr & Ht). destruct i as [|i]; simpl in Hi.
      * left. injection Hi as ->. rewrite Hr, Nat.add_0_r in *.
        now apply list_elem_of_singleton.
      * right. exists i, result. now rewrite Nat.add_succ_comm.
Qed.

Section Sending.

Context (E : Env) (notification : Notification.t)
        (data : gmap jsstring jsval) (android : AndroidOptions.t).

Let message_of (batch : list jsval) : MulticastMessage.t :=
  multicast_message batch notification data android.

(** When the provider answers every batch, the loop returns the running
    totals and has handed over one message per batch. *)
Lemma send_batches_answers batches : forall rs sc fc inv w,
  provider_answers E (length (pushed w)) (map message_of batches) = Some rs ->
  send_batches E batches notification data android sc fc inv w =
  (inl (PushResult.mk
          (sc + sum_list (map BatchResponse.successCount rs))
          (fc + sum_list (map BatchResponse.failureCount rs))
          (inv ++ concat (zip_with invalid_in batches rs))),
   set_pushed (pushed w ++ map message_of batches) w).
Proof.
  induction batches as [|batch rest IH]; intros rs sc fc inv w Hrs; simpl in *.
  - injection Hrs as <-. simpl.
    now rewrite !Nat.add_0_r, !app_nil_r, set_pushed_id.
  - unfold bind, messaging_sendEachForMulticast. fold (message_of batch).
    destruct (sendEachForMulticast E _ _) as [r|e]; [|done].
    destruct (provider_answers E _ _) as [rs'|] eqn:Hrs'; [|done].
    injection Hrs as <-.
    rewrite (IH rs'); simpl.
    + f_equal; [|destruct w; simpl; now rewrite <- app_assoc].
      rewrite forEach_responses_app, <- app_assoc, !Nat.add_assoc.
      reflexivity.
    + rewrite length_app. simpl. now rewrite Nat.add_1_r.
Qed.

(** Whatever the provider does, the loop changes nothing but the call log,
    to which it adds the messages of a prefix of the batches: all of them
    when it returns. *)
Lemma send_batches_pushed batches : forall sc fc inv w,
  exists k,
    k <= length batches /\
    snd (send_batches E batches notification data android sc fc inv w) =
    set_pushed (pushed w ++ map message_of (take k batches)) w /\
    (forall r, fst (send_batches E batches notification data android
                                 sc fc inv w) = inl r ->
               k = length batches).
Proof.
  induction batches as [|batch rest IH]; intros sc fc inv w; simpl.
  - exists 0. simpl. now rewrite app_nil_r, set_pushed_id.
  - unfold bind, messaging_sendEachForMulticast. fold (message_of batch).
    destruct (sendEachForMulticast E _ _) as [r|e].
    + edestruct IH as (k & Hk & Hw & Hr). exists (S k).
      split; [lia|]. split.
      * rewrite Hw. destruct w; simpl. now rewrite <- app_assoc.
      * intros r' Hr'. f_equal. eapply Hr, Hr'.
    + exists 1. split; [lia|]. split; [reflexivity|done].
Qed.

End Sending.

(** ** The transport *)

Lemma same_data_refl w : same_data w w.
Proof. now repeat split. Qed.

Ltac run_monad :=
  unfold bind, try_catch, ret, throw, get, modify, log, lift, lift_opt,
         new_Date in *; simpl in *.

Lemma parseFirebaseCredential_total E w :
  exists c ls,
    parseFirebaseCredential E w = (inl c, set_console (console w ++ ls) w).
Proof.
  unfold parseFirebaseCredential.
  destruct (env_truthy _); simpl.
  2:{ exists JNull, []. run_monad. destruct w; simpl; now rewrite app_nil_r. }
  run_monad.
  destruct (JSON_parse E (default [] _)) as [c|e].
  { exists c, []. destruct w; simpl; now rewrite app_nil_r. }
  destruct (JSON_parse E (base64_utf8 E _)) as [c|e'].
  { exists c, []. destruct w; simpl; now rewrite app_nil_r. }
  now exists JNull, [LogInvalidCredential].
Qed.

(** [getFirebaseMessaging] never throws; it returns the state in which it
    leaves the module variable and touches neither the collections nor the
    call log. *)
Lemma getFirebaseMessaging_spec E w :
  exists b w',
    getFirebaseMessaging E w = (inl b, w') /\
    firebaseMessaging w' = b /\ same_data w w'.
Proof.
  unfold getFirebaseMessaging, initializeFirebaseMessaging.
  run_monad.
  destruct (firebaseMessaging w) eqn:Hfm.
  { exists true, w. split_and!; [done | done | apply same_data_refl]. }
  rewrite Hfm.
  destruct (Nat.eqb (admin_apps w) 0).
  - destruct (parseFirebaseCredential_total E w) as (c & ls & ->).
    destruct (json_truthy c); simpl.
    + destruct (sdk_initializeApp E c); simpl.
      * eexists _, _. split_and!; [reflexivity | done | now repeat split].
      * destruct (sdk_messaging E); simpl;
          eexists _, _; (split_and!; [reflexivity | done | now repeat split]).
    + eexists _, _. split_and!; [reflexivity | done | now repeat split].
  - destruct (sdk_messaging E); simpl;
      eexists _, _; (split_and!; [reflexivity | done | now repeat split]).
Qed.

(** Without a credential the transport stays as it was: never initialised. *)
Lemma getFirebaseMessaging_unavailable E w :
  credential_unavailable E -> unconfigured w ->
  exists w',
    getFirebaseMessaging E w = (inl false, w') /\
    unconfigured w' /\ same_data w w'.
Proof.
  unfold credential_unavailable, unconfigured.
  unfold getFirebaseMessaging, initializeFirebaseMessaging,
         parseFirebaseCredential.
  intros Hcred [Hfm Happs]. run_monad.
  rewrite Hfm. cbn beta iota. rewrite Hfm, Happs. simpl.
  destruct (getRawFirebaseCredential E) as [raw|]; simpl.
  - destruct raw as [|c raw]; simpl.
    + eexists. split_and!; [reflexivity | done | done | now repeat split].
    + destruct Hcred as [Hnil | (e1 & e2 & H1 & H2)]; [discriminate Hnil|].
      rewrite H1, H2. simpl.
      eexists. split_and!; [reflexivity | done | done | now repeat split].
  - eexists. split_and!; [reflexivity | done | done | now repeat split].
Qed.

Lemma sendPushNotification_unfold E tokens notification data android w :
  sendPushNotification E tokens notification data android w =
  match getFirebaseMessaging E w with
  | (inl true, w') =>
      send_batches E (batches_from (uniqueTokens_of tokens) 0 [])
                   notification data android 0 0 [] w'
  | (inl false, w') => (inr not_configured, w')
  | (inr e, w') => (inr e, w')
  end.
Proof.
  unfold sendPushNotification. unfold bind at 1.
  destruct (getFirebaseMessaging E w) as [[[|]|e] w']; simpl; try done.
  destruct (uniqueTokens_of tokens) as [|t u] eqn:Hu; simpl; [|done].
  now rewrite batches_from_nil.
Qed.

Lemma provider_answers_length E msgs : forall k rs,
  provider_answers E k msgs = Some rs -> length rs = length msgs.
Proof.
  induction msgs as [|m ms IH]; intros k rs; simpl.
  - now intros [= <-].
  - destruct (sendEachForMulticast E k m); [|done].
    destruct (provider_answers E (S k) ms) eqn:H; [|done].
    intros [= <-]. simpl. f_equal. eapply IH, H.
Qed.

Lemma configured_run E w :
  configured E w ->
  exists w', getFirebaseMessaging E w = (inl true, w') /\
             firebaseMessaging w' = true /\ same_data w w'.
Proof.
  unfold configured.
  destruct (getFirebaseMessaging_spec E w) as (b & w' & Hrun & Hb & Hsame).
  rewrite Hrun. simpl. intros [= ->]. now exists w'.
Qed.

(** ** Properties of the specification *)

(** C5: when the transport is usable and the provider answers every batch,
    [sendPushNotification] returns exactly the record whose [successCount]
    and [failureCount] are the sums of the per-batch counts over all batches
    and whose [invalidTokens] is the concatenation, in batch order, of the
    invalid tokens collected from each batch. *)
Theorem sendPushNotification_aggregates
  E tokens notification data android w rs :
  let batches := batches_from (uniqueTokens_of tokens) 0 [] in
  configured E w ->
  provider_answers E (length (pushed w))
    (map (fun b => multicast_message b notification data android) batches)
    = Some rs ->
  length rs = length batches /\
  fst (sendPushNotification E tokens notification data android w) =
  inl (PushResult.mk
         (sum_list (map BatchResponse.successCount rs))
         (sum_list (map BatchResponse.failureCount rs))
         (concat (zip_with invalid_in batches rs))).
Proof.
  intros batches Hconf Hrs. split.
  { apply provider_answers_length in Hrs. now rewrite length_map in Hrs. }
  destruct (configured_run E w Hconf) as (w' & Hrun & _ & Hsame).
  rewrite sendPushNotification_unfold, Hrun.
  destruct Hsame as (_ & _ & _ & Hpushed & _).
  rewrite <- Hpushed in Hrs.
  now rewrite (send_batches_answers E notification data android _ rs).
Qed.

Lemma sendPushNotification_aggregates_witness :
  let E := Demo.env [Demo.tok 3; Demo.tok 501] Demo.no_faults in
  configured E Demo.world /\
  fst (sendPushNotification E (map Demo.tok (seq 1 501)) Demo.notification
                            ∅ AndroidOptions.empty Demo.world) =
  inl (PushResult.mk 499 2 [Demo.tok 3; Demo.tok 501]).
Proof.
  intros E. split; [reflexivity|].
  pose (batches := batches_from (uniqueTokens_of (map Demo.tok (seq 1 501))) 0 []).
  pose (rs := default [] (provider_answers E 0
          (map (fun b => multicast_message b Demo.notification ∅
                                           AndroidOptions.empty) batches))).
  refine (eq_trans (proj2 (sendPushNotification_aggregates E
            (map Demo.tok (seq 1 501)) Demo.notification ∅
            AndroidOptions.empty Demo.world rs _ _)) _).
  - reflexivity.
  - vm_compute. reflexivity.
  - vm_compute. reflexivity.
Defined.

Lemma lengths_batches u : map length (batches_from u 0 []) = batch_sizes (length u).
Proof.
  rewrite lengths_batches_from. simpl. rewrite Nat.sub_0_r.
  destruct (decide (0 < length u)) as [|Hz]; [done|].
  replace (length u) with 0 by lia. unfold batch_sizes.
  rewrite Nat.Div0.div_0_l, Nat.Div0.mod_0_l. reflexivity.
Qed.

Lemma send_batches_rejected E n d a pre batch post : forall rs sc fc inv w e,
  provider_answers E (length (pushed w))
    (map (fun b => multicast_message b n d a) pre) = Some rs ->
  sendEachForMulticast E (length (pushed w) + length pre)
    (multicast_message batch n d a) = inr e ->
  send_batches E (pre ++ batch :: post) n d a sc fc inv w =
  (inr e,
   set_pushed (pushed w ++ map (fun b => multicast_message b n d a)
                               (pre ++ [batch])) w).
Proof.
  induction pre as [|b pre IH]; intros rs sc fc inv w e Hrs Hrej; simpl in *.
  - unfold bind, messaging_sendEachForMulticast.
    rewrite Nat.add_0_r in Hrej. now rewrite Hrej.
  - unfold bind, messaging_sendEachForMulticast.
    destruct (sendEachForMulticast E _ _) as [r|e']; [|done].
    destruct (provider_answers E _ _) as [rs'|] eqn:Hrs'; [|done].
    rewrite (IH rs' _ _ _ _ e); simpl.
    + destruct w; simpl. now rewrite <- app_assoc.
    + rewrite length_app. simpl. now rewrite Nat.add_1_r.
    + rewrite length_app. simpl. rewrite <- Hrej. f_equal. lia.
Qed.

(** When the provider does not answer every batch, there is a first batch
    it rejects. *)
Lemma provider_rejects E (f : list jsval -> MulticastMessage.t) batches :
  forall k,
    provider_answers E k (map f batches) = None ->
    exists pre batch post rs e,
      batches = pre ++ batch :: post /\
      provider_answers E k (map f pre) = Some rs /\
      sendEachForMulticast E (k + length pre) (f batch) = inr e.
Proof.
  induction batches as [|b batches IH]; intros k; simpl; [discriminate|].
  destruct (sendEachForMulticast E k (f b)) as [r|e] eqn:Hb.
  - destruct (provider_answers E (S k) (map f batches)) as [rs|] eqn:Hrs;
      [discriminate|].
    intros _. destruct (IH (S k) Hrs) as (pre & batch & post & rs' & e & -> & Hpre & He).
    exists (b :: pre), batch, post, (r :: rs'), e. split_and!.
    + reflexivity.
    + simpl. now rewrite Hb, Hpre.
    + simpl. rewrite <- He. f_equal. lia.
  - intros _. exists [], b, batches, [], e. split_and!; try reflexivity.
    now rewrite Nat.add_0_r.
Qed.

(** C2: [sendPushNotification] deduplicates the (truthy) tokens and cuts the
    deduplicated list into consecutive batches of at most 500 tokens, and
    these are the token lists it hands to the provider, one call per batch,
    in order: all of them when the provider answers every call, and
    otherwise those up to the first call the provider rejects, whose error
    the function throws; 501 distinct tokens make two batches, of 500 and
    of 1. *)
Theorem sendPushNotification_batches E tokens notification data android w :
  let unique := uniqueTokens_of tokens in
  let batches := batches_from unique 0 [] in
  let message_of b := multicast_message b notification data android in
  let run := sendPushNotification E tokens notification data android w in
  (NoDup unique /\ forall t, t ∈ unique <-> t ∈ tokens /\ truthy t = true) /\
  concat batches = unique /\
  Forall (fun b => 1 <= length b <= 500) batches /\
  map length batches =
    replicate (length unique / 500) 500 ++
    (if Nat.eqb (length unique mod 500) 0 then [] else [length unique mod 500]) /\
  (configured E w ->
   match provider_answers E (length (pushed w)) (map message_of batches) with
   | Some rs =>
       (exists r, fst run = inl r) /\
       pushed (snd run) = pushed w ++ map message_of batches /\
       map MulticastMessage.tokens (drop (length (pushed w)) (pushed (snd run)))
         = batches
   | None =>
       exists pre batch post e,
         batches = pre ++ batch :: post /\
         fst run = inr e /\
         pushed (snd run) = pushed w ++ map message_of (pre ++ [batch]) /\
         map MulticastMessage.tokens
             (drop (length (pushed w)) (pushed (snd run))) = pre ++ [batch]
   end) /\
  (length tokens = 501 -> NoDup tokens ->
   Forall (fun t => truthy t = true) tokens ->
   map length batches = [500; 1]).
Proof.
  intros unique batches message_of run. split_and!.
  - apply NoDup_new_Set.
  - intros t. unfold unique, uniqueTokens_of.
    now rewrite elem_of_new_Set, elem_of_filter_truthy.
  - unfold batches. now rewrite concat_batches_from.
  - pose proof (batch_sizes_bounds (length unique)) as Hb.
    unfold batches. rewrite <- lengths_batches in Hb.
    now apply Forall_map in Hb.
  - apply lengths_batches.
  - intros Hconf.
    destruct (configured_run E w Hconf) as (w' & Hrun & _ & Hsame).
    assert (pushed w' = pushed w) as Hp
      by now destruct Hsame as (_ & _ & _ & -> & _).
    assert (forall bs : list (list jsval),
              map MulticastMessage.tokens
                  (drop (length (pushed w)) (pushed w ++ map message_of bs))
              = bs) as Htokens.
    { intros bs. rewrite drop_app_length, map_map. apply map_id. }
    assert (run = send_batches E batches notification data android 0 0 [] w')
      as Hsend.
    { unfold run. now rewrite sendPushNotification_unfold, Hrun. }
    destruct (provider_answers E (length (pushed w)) (map message_of batches))
      as [rs|] eqn:Hrs.
    + rewrite <- Hp in Hrs.
      rewrite Hsend, (send_batches_answers E notification data android _ rs)
        by exact Hrs.
      cbn [fst snd pushed set_pushed]. rewrite Hp.
      split_and!; [now eexists | reflexivity | apply Htokens].
    + destruct (provider_rejects E message_of batches _ Hrs)
        as (pre & batch & post & rs' & e & Hsplit & Hpre & He).
      exists pre, batch, post, e. rewrite <- Hp in Hpre, He.
      rewrite Hsend, Hsplit,
        (send_batches_rejected E notification data android pre batch post
           rs' 0 0 [] w' e Hpre He).
      cbn [fst snd pushed set_pushed]. rewrite Hp.
      split_and!; [reflexivity | reflexivity | reflexivity | apply Htokens].
  - intros Hlen Hnodup Htruthy.
    assert (unique = tokens) as Hu.
    { unfold unique, uniqueTokens_of.
      now rewrite filter_truthy_all, new_Set_NoDup. }
    unfold batches. rewrite lengths_batches, Hu, Hlen. reflexivity.
Qed.

Lemma sendPushNotification_batches_witness :
  let E := Demo.env [] Demo.no_faults in
  let tokens := map Demo.tok (seq 1 501) in
  let batches := batches_from (uniqueTokens_of tokens) 0 [] in
  let run := sendPushNotification E tokens Demo.notification ∅
               AndroidOptions.empty Demo.world in
  (configured E Demo.world /\ length tokens = 501 /\ NoDup tokens /\
   Forall (fun t => truthy t = true) tokens) /\
  map length batches = [500; 1] /\
  (exists r, fst run = inl r) /\
  map MulticastMessage.tokens (pushed (snd run)) = batches /\
  map (fun m => length (MulticastMessage.tokens m)) (pushed (snd run))
    = [500; 1].
Proof.
  intros E tokens batches run.
  assert (configured E Demo.world) as Hconf by reflexivity.
  assert (length tokens = 501) as Hlen by reflexivity.
  assert (NoDup tokens) as Hnodup.
  { refine (bool_decide_unpack (NoDup tokens) _). vm_compute. exact I. }
  assert (Forall (fun t => truthy t = true) tokens) as Htruthy.
  { refine (bool_decide_unpack (Forall _ tokens) _). vm_compute. exact I. }
  destruct (sendPushNotification_batches E tokens Demo.notification ∅
              AndroidOptions.empty Demo.world)
    as (_ & _ & _ & _ & Hsent & H501).
  specialize (Hsent Hconf). specialize (H501 Hlen Hnodup Htruthy).
  cbv zeta in Hsent. fold batches run in Hsent. fold batches in H501.
  destruct (provider_answers E (length (pushed Demo.world)) _) as [rs|] eqn:Hrs.
  2:{ exfalso. vm_compute in Hrs. discriminate Hrs. }
  destruct Hsent as (Hr & _ & Htok).
  change (drop (length (pushed Demo.world)) (pushed (snd run)))
    with (pushed (snd run)) in Htok.
  split; [split_and!; assumption|].
  split; [exact H501|]. split; [exact Hr|]. split; [exact Htok|].
  rewrite <- (map_map MulticastMessage.tokens length), Htok. exact H501.
Defined.


(** ** Storage and the recipient lookup *)

Lemma storage_ok {A} E (op : M A) w :
  db_fault E (db_calls w) = None ->
  storage E op w = op (set_db_calls (S (db_calls w)) w).
Proof. intros H. unfold storage. now rewrite H. Qed.

Lemma find_update_first {A} (p : A -> bool) f l x :
  List.find p l = Some x -> p (f x) = true ->
  List.find p (update_first p f l) = Some (f x).
Proof.
  intros Hfind Hp. induction l as [|y l IH]; simpl in *; [done|].
  destruct (p y) eqn:Hy; simpl.
  - injection Hfind as ->. now rewrite Hp.
  - rewrite Hy. now apply IH.
Qed.

Lemma update_first_split {A} (p : A -> bool) f l x :
  List.find p l = Some x ->
  exists l1 l2,
    l = l1 ++ x :: l2 /\ update_first p f l = l1 ++ f x :: l2 /\
    Forall (fun y => p y = false) l1.
Proof.
  induction l as [|y l IH]; simpl; [done|].
  destruct (p y) eqn:Hy.
  - intros [= ->]. now exists [], l.
  - intros (l1 & l2 & -> & -> & Hl1)%IH.
    exists (y :: l1), l2. split_and!; [done | done | now constructor].
Qed.

(** A dispatch to a recipient without a usable token reads the recipient and
    does nothing else. *)
Lemma sendOfferNotification_skip E a w :
  db_fault E (db_calls w) = None ->
  recipient_tokens a w = [] ->
  sendOfferNotification E a w =
  (inl (RSkip (SkipResult.mk true (js "no_tokens"))),
   set_db_calls (S (db_calls w)) w).
Proof.
  intros Hdb Htok. unfold sendOfferNotification, User_findOne.
  unfold bind at 1. rewrite storage_ok by done. simpl.
  unfold recipient_tokens, recipient_of in Htok. now rewrite Htok.
Qed.

(** C3: a dispatch to a recipient whose token set is empty (the lookup
    itself succeeding) returns [{skipped: true, reason: "no_tokens"}], hands
    nothing to the provider and raises nothing: the call log, the console and
    the users are as before. *)
Theorem sendOfferNotification_no_tokens E a w :
  db_fault E (db_calls w) = None ->
  (forall u, recipient_of a w = Some u -> User.fcmTokens u = []) ->
  exists w',
    sendOfferNotification E a w =
      (inl (RSkip (SkipResult.mk true (js "no_tokens"))), w') /\
    pushed w' = pushed w /\ console w' = console w /\ users w' = users w.
Proof.
  intros Hdb Hempty. exists (set_db_calls (S (db_calls w)) w). split; [|done].
  apply sendOfferNotification_skip; [done|].
  unfold recipient_tokens. destruct (recipient_of a w) as [u|]; [|done].
  now rewrite (Hempty u).
Qed.

Lemma sendOfferNotification_no_tokens_witness :
  let E := Demo.env [] Demo.no_faults in
  let a := OfferNotification.mk (VStr (js "o1")) (VStr (js "u2"))
             (VStr (js "u1")) (VStr (js "Ann")) VUndefined VUndefined in
  recipient_of a Demo.world = Some (Demo.user "u2" []) /\
  exists w',
    sendOfferNotification E a Demo.world =
      (inl (RSkip (SkipResult.mk true (js "no_tokens"))), w') /\
    pushed w' = pushed Demo.world /\ console w' = console Demo.world /\
    users w' = users Demo.world.
Proof.
  intros E a. split; [reflexivity|].
  apply (sendOfferNotification_no_tokens E a Demo.world); [reflexivity|].
  intros u [= <-]. reflexivity.
Defined.

(** C10: falsy entries of the stored token set are dropped before the
    emptiness test, so a recipient holding only falsy entries gets the
    no-tokens result in every environment and state of the transport, usable
    or not, and the transport is not even consulted (its state and the
    console are as before); and [sendPushNotification], on a usable
    transport and a list without a truthy token, returns
    [{successCount: 0, failureCount: 0, invalidTokens: []}] and hands nothing
    to the provider. *)
Theorem falsy_tokens_are_skipped E :
  (forall a w,
     db_fault E (db_calls w) = None ->
     (forall u, recipient_of a w = Some u ->
                Forall (fun t => truthy t = false) (User.fcmTokens u)) ->
     exists w',
       sendOfferNotification E a w =
         (inl (RSkip (SkipResult.mk true (js "no_tokens"))), w') /\
       pushed w' = pushed w /\ console w' = console w /\
       firebaseMessaging w' = firebaseMessaging w /\
       admin_apps w' = admin_apps w) /\
  (forall tokens notification data android w,
     configured E w ->
     Forall (fun t => truthy t = false) tokens ->
     fst (sendPushNotification E tokens notification data android w) =
       inl (PushResult.mk 0 0 []) /\
     pushed (snd (sendPushNotification E tokens notification data android w)) =
       pushed w).
Proof.
  split.
  - intros a w Hdb Hfalsy.
    exists (set_db_calls (S (db_calls w)) w). split; [|done].
    apply sendOfferNotification_skip; [done|].
    unfold recipient_tokens. destruct (recipient_of a w) as [u|]; [|done].
    now apply filter_truthy_none, Hfalsy.
  - intros tokens notification data android w Hconf Hfalsy.
    destruct (configured_run E w Hconf) as (w' & Hrun & _ & Hsame).
    rewrite sendPushNotification_unfold, Hrun.
    unfold uniqueTokens_of. rewrite filter_truthy_none by done.
    change (new_Set []) with (@nil jsval). rewrite batches_from_nil. simpl.
    split; [done|]. now destruct Hsame as (_ & _ & _ & -> & _).
Qed.

Lemma falsy_tokens_are_skipped_witness :
  let E := Demo.env_no_credential in
  let w := Demo.world_with [VStr []; VNull] in
  let a := Demo.offer_notification (VStr (js "hello")) in
  (unconfigured w /\ credential_unavailable E /\
   recipient_of a w = Some (Demo.user "u1" [VStr []; VNull])) /\
  (exists w',
     sendOfferNotification E a w =
       (inl (RSkip (SkipResult.mk true (js "no_tokens"))), w') /\
     pushed w' = pushed w /\ console w' = console w /\
     firebaseMessaging w' = firebaseMessaging w /\
     admin_apps w' = admin_apps w) /\
  fst (sendPushNotification (Demo.env [] Demo.no_faults) [VStr []; VUndefined]
         Demo.notification ∅ AndroidOptions.empty Demo.world) =
    inl (PushResult.mk 0 0 []) /\
  pushed (snd (sendPushNotification (Demo.env [] Demo.no_faults)
                 [VStr []; VUndefined] Demo.notification ∅
                 AndroidOptions.empty Demo.world)) = pushed Demo.world.
Proof.
  intros E w a. split; [repeat split|]. split.
  - apply (proj1 (falsy_tokens_are_skipped E) a w); [reflexivity|].
    intros u [= <-]. repeat constructor.
  - apply (proj2 (falsy_tokens_are_skipped (Demo.env [] Demo.no_faults)));
      [reflexivity | repeat constructor].
Defined.

(** ** The dispatch of an offer notification *)

Lemma notification_body_ok message itemName w :
  text_or_absent message ->
  notification_body message itemName w = (inl (offer_body message itemName), w).
Proof.
  unfold notification_body, offer_body, text_or_absent, pitch_on.
  destruct message as [| |b|z|s]; simpl; try (intros ->; reflexivity).
  - intros _. reflexivity.
  - intros _. reflexivity.
  - intros _. destruct s as [|c s]; simpl; [|reflexivity].
    reflexivity.
Qed.

Lemma parseFirebaseCredential_uniform E :
  exists c ls, forall w,
    parseFirebaseCredential E w = (inl c, set_console (console w ++ ls) w).
Proof.
  unfold parseFirebaseCredential.
  destruct (env_truthy _); simpl.
  2:{ exists JNull, []. intros w. run_monad.
      destruct w; simpl; now rewrite app_nil_r. }
  run_monad.
  destruct (JSON_parse E (default [] _)) as [c|e].
  { exists c, []. intros w. destruct w; simpl; now rewrite app_nil_r. }
  destruct (JSON_parse E (base64_utf8 E _)) as [c|e'].
  { exists c, []. intros w. destruct w; simpl; now rewrite app_nil_r. }
  now exists JNull, [LogInvalidCredential].
Qed.

#[local] Arguments parseFirebaseCredential : simpl never.

(** The transport does not look at the storage counter. *)
Lemma getFirebaseMessaging_set_db_calls E n w :
  getFirebaseMessaging E (set_db_calls n w) =
  (fst (getFirebaseMessaging E w), set_db_calls n (snd (getFirebaseMessaging E w))).
Proof.
  unfold getFirebaseMessaging, initializeFirebaseMessaging.
  destruct (parseFirebaseCredential_uniform E) as (c & ls & Hparse).
  destruct w as [us its os fm apps ps cs dc ck].
  destruct fm; [reflexivity|].
  unfold set_db_calls. run_monad.
  destruct (Nat.eqb apps 0).
  - rewrite !Hparse. simpl.
    destruct (json_truthy c); simpl; [|reflexivity].
    destruct (sdk_initializeApp E c); simpl; [reflexivity|].
    destruct (sdk_messaging E); reflexivity.
  - destruct (sdk_messaging E); reflexivity.
Qed.

Lemma configured_set_db_calls E n w :
  configured E w -> configured E (set_db_calls n w).
Proof.
  unfold configured. now rewrite getFirebaseMessaging_set_db_calls.
Qed.

(** Pruning never throws: the write happens, or its failure is logged. *)
Lemma removeInvalidTokens_spec E userId invalid w :
  invalid <> [] ->
  removeInvalidTokens E userId invalid w =
  match db_fault E (db_calls w) with
  | None =>
      (inl tt,
       set_users (update_first (user_has_id userId)
                               (pull_tokens invalid (clock w)) (users w))
                 (set_db_calls (S (db_calls w)) w))
  | Some e =>
      (inl tt,
       set_console (console w ++ [LogPruneFailed userId e])
                   (set_db_calls (S (db_calls w)) w))
  end.
Proof.
  intros Hne. unfold removeInvalidTokens.
  destruct invalid as [|t invalid]; [done|]. simpl.
  unfold User_updateOne_pull, storage. run_monad.
  destruct (db_fault E (db_calls w)); reflexivity.
Qed.

Lemma pull_in_spec bad ts t : t ∈ pull_in bad ts <-> t ∈ ts /\ t ∉ bad.
Proof.
  unfold pull_in. rewrite !list_elem_of_In, filter_In, <- !list_elem_of_In.
  rewrite negb_true_iff, bool_decide_eq_false. tauto.
Qed.

#[local] Opaque js.

Section Dispatch.

Context (E : Env) (a : OfferNotification.t) (w : World) (u : User.t).

Let tokens := List.filter truthy (User.fcmTokens u).
Let batches := batches_from (uniqueTokens_of tokens) 0 [].

Hypothesis lookup_ok : db_fault E (db_calls w) = None.
Hypothesis recipient_found : recipient_of a w = Some u.
Hypothesis some_token : tokens <> [].
Hypothesis message_ok : text_or_absent (OfferNotification.message a).
Hypothesis transport_ok : configured E w.

(** What a dispatch does once the recipient is found with a usable token,
    up to the pruning step. *)
Lemma sendOfferNotification_run rs :
  provider_answers E (length (pushed w)) (map (offer_message a) batches)
    = Some rs ->
  exists w1,
    same_data w (set_db_calls (db_calls w) w1) /\
    db_calls w1 = S (db_calls w) /\
    let invalid := concat (zip_with invalid_in batches rs) in
    let w2 := set_pushed (pushed w ++ map (offer_message a) batches) w1 in
    sendOfferNotification E a w =
    (inl (RPush (PushResult.mk
                   (sum_list (map BatchResponse.successCount rs))
                   (sum_list (map BatchResponse.failureCount rs))
                   invalid)),
     if decide (invalid = []) then w2
     else snd (removeInvalidTokens E (OfferNotification.recipientUserId a)
                                   invalid w2)).
Proof.
  intros Hrs.
  pose proof (configured_set_db_calls E (S (db_calls w)) w transport_ok) as Hc.
  destruct (configured_run E _ Hc) as (w1 & Hrun & _ & Hsame).
  exists w1. split_and!.
  { destruct Hsame as (? & ? & ? & ? & ? & ?). split_and!; simpl in *; done. }
  { now destruct Hsame as (_ & _ & _ & _ & -> & _). }
  intros invalid w2.
  unfold sendOfferNotification, User_findOne.
  unfold bind at 1. rewrite storage_ok by done. simpl.
  unfold recipient_of in recipient_found. rewrite recipient_found.
  fold tokens.
  destruct (Nat.eqb_spec (length tokens) 0) as [Hz|_].
  { now apply nil_length_inv in Hz. }
  unfold bind at 1. rewrite notification_body_ok by done.
  unfold bind at 1. rewrite sendPushNotification_unfold, Hrun.
  fold batches.
  assert (pushed w1 = pushed w) as Hpushed
    by now destruct Hsame as (_ & _ & _ & -> & _).
  erewrite send_batches_answers; last first.
  { rewrite Hpushed. exact Hrs. }
  rewrite Hpushed. unfold bind at 1.
  change (set_pushed _ w1) with w2.
  change (concat (zip_with invalid_in batches rs)) with invalid.
  cbn [PushResult.invalidTokens app Nat.add].
  destruct (decide (invalid = [])) as [Hnil|Hne].
  { rewrite Hnil. reflexivity. }
  destruct (Nat.eqb_spec (length invalid) 0) as [Hz|_].
  { now apply nil_length_inv in Hz. }
  cbn [negb]. rewrite removeInvalidTokens_spec by done.
  destruct (db_fault E (db_calls w2)); reflexivity.
Qed.

End Dispatch.

#[local] Transparent js.

Lemma elem_of_concat_zip_with {A B C} (f : A -> B -> list C) l1 l2 x :
  x ∈ concat (zip_with f l1 l2) <->
  exists k a b, l1 !! k = Some a /\ l2 !! k = Some b /\ x ∈ f a b.
Proof.
  rewrite list_elem_of_In, in_concat. split.
  - intros (l & Hl & Hx). apply list_elem_of_In, list_elem_of_lookup in Hl.
    destruct Hl as (k & Hk). apply lookup_zip_with_Some in Hk.
    destruct Hk as (a & b & -> & Ha & Hb).
    exists k, a, b. now rewrite list_elem_of_In.
  - intros (k & a & b & Ha & Hb & Hx). exists (f a b).
    split; [|now apply list_elem_of_In].
    apply list_elem_of_In, list_elem_of_lookup. exists k.
    apply lookup_zip_with_Some. now exists a, b.
Qed.

(** C1: in a dispatch whose batches the provider all answers, the returned
    [invalidTokens] holds exactly the tokens whose own delivery result is a
    failure with an unregistered-token or invalid-token error code; once the
    batches are done these tokens, and no others, are removed from the
    recipient's flat token set; and when that write fails, the failure is
    logged, the users are left as they were and the returned result is the
    same (it does not depend on the outcome of the write at all). *)
Theorem invalid_tokens_are_pruned E a w u rs :
  let rid := OfferNotification.recipientUserId a in
  let batches :=
    batches_from (uniqueTokens_of (List.filter truthy (User.fcmTokens u))) 0 [] in
  let invalid := concat (zip_with invalid_in batches rs) in
  db_fault E (db_calls w) = None ->
  recipient_of a w = Some u ->
  List.filter truthy (User.fcmTokens u) <> [] ->
  text_or_absent (OfferNotification.message a) ->
  configured E w ->
  provider_answers E (length (pushed w)) (map (offer_message a) batches)
    = Some rs ->
  exists w',
    sendOfferNotification E a w =
      (inl (RPush (PushResult.mk
                     (sum_list (map BatchResponse.successCount rs))
                     (sum_list (map BatchResponse.failureCount rs))
                     invalid)), w') /\
    (forall t,
       t ∈ invalid <->
       exists k batch response i result,
         batches !! k = Some batch /\ rs !! k = Some response /\
         BatchResponse.responses response !! i = Some result /\
         token_rejected result = true /\
         default VUndefined (batch !! i) = t) /\
    (invalid <> [] ->
     match db_fault E (S (db_calls w)) with
     | None =>
         exists u',
           recipient_of a w' = Some u' /\
           User.fcmTokens u' = pull_in invalid (User.fcmTokens u) /\
           (forall t, t ∈ User.fcmTokens u' <->
                      t ∈ User.fcmTokens u /\ t ∉ invalid)
     | Some e =>
         users w' = users w /\
         last (console w') = Some (LogPruneFailed rid e)
     end).
Proof.
  intros rid batches invalid Hdb Hu Htok Hmsg Hconf Hrs.
  destruct (sendOfferNotification_run E a w u Hdb Hu Htok Hmsg Hconf rs Hrs)
    as (w1 & Hsame & Hcalls & Hrun).
  cbv zeta in Hrun. fold batches in Hrun. fold invalid in Hrun.
  eexists. split; [exact Hrun|]. split.
  - intros t. unfold invalid. rewrite elem_of_concat_zip_with.
    unfold invalid_in. setoid_rewrite elem_of_forEach_responses.
    split.
    + intros (k & b & r & Hb & Hr & i & result & Hi & Hrej & Ht).
      now exists k, b, r, i, result.
    + intros (k & b & r & i & result & Hb & Hr & Hi & Hrej & Ht).
      exists k, b, r. split_and!; [done | done |]. now exists i, result.
  - intros Hne. destruct (decide (invalid = [])) as [|_]; [done|].
    rewrite removeInvalidTokens_spec by done.
    destruct Hsame as (Husers & _ & _ & _ & _ & Hclock). simpl in Husers, Hclock.
    cbn [db_calls set_pushed]. rewrite Hcalls.
    destruct (db_fault E (S (db_calls w))) as [e|]; cbn [snd].
    + split; [exact Husers|]. cbn [console set_console]. apply last_snoc.
    + exists (pull_tokens invalid (clock w) u). split_and!.
      * unfold recipient_of.
        cbn [users clock set_users set_db_calls set_pushed].
        rewrite Husers, Hclock.
        apply find_update_first; [exact Hu|].
        apply find_some in Hu as [_ Hp]. exact Hp.
      * reflexivity.
      * intros t. apply pull_in_spec.
Qed.

Lemma invalid_tokens_are_pruned_witness :
  let a := Demo.offer_notification (VStr (js " hi")) in
  let u := Demo.user "u1" [Demo.tok 1; Demo.tok 2] in
  let ok := SendResponse.mk true None in
  let ko := SendResponse.mk false (Some Demo.unregistered) in
  let rs := [BatchResponse.mk [ok; ko] 1 1] in
  let result := RPush (PushResult.mk 1 1 [Demo.tok 2]) in
  (exists w',
     sendOfferNotification (Demo.env [Demo.tok 2] Demo.no_faults) a Demo.world
       = (inl result, w') /\
     exists u', recipient_of a w' = Some u' /\
                User.fcmTokens u' = [Demo.tok 1]) /\
  (exists w',
     sendOfferNotification (Demo.env [Demo.tok 2] (Demo.fault_at 1)) a
                           Demo.world = (inl result, w') /\
     users w' = users Demo.world /\
     last (console w') =
       Some (LogPruneFailed (VStr (js "u1")) (Error (js "connection lost")))).
Proof.
  intros a u ok ko rs result. split.
  - destruct (invalid_tokens_are_pruned
                (Demo.env [Demo.tok 2] Demo.no_faults) a Demo.world u rs)
      as (w' & Hrun & _ & Hprune);
      [reflexivity | reflexivity | discriminate | exact I | reflexivity
      | reflexivity |].
    exists w'. split; [exact Hrun|].
    destruct Hprune as (u' & Hu' & Htokens & _); [discriminate|].
    exists u'. split; [exact Hu' | exact Htokens].
  - destruct (invalid_tokens_are_pruned
                (Demo.env [Demo.tok 2] (Demo.fault_at 1)) a Demo.world u rs)
      as (w' & Hrun & _ & Hprune);
      [reflexivity | reflexivity | discriminate | exact I | reflexivity
      | reflexivity |].
    exists w'. split; [exact Hrun|]. apply Hprune. discriminate.
Defined.

(** ** The payload *)

Lemma buildDataPayload_fmap data : buildDataPayload data = coerce <$> data.
Proof.
  unfold buildDataPayload.
  apply (map_fold_weak_ind (fun r m => r = coerce <$> m)).
  - now rewrite fmap_empty.
  - intros k v m r _ ->. now rewrite fmap_insert.
Qed.

Lemma coerce_is_string v : exists s, coerce v = VStr s.
Proof. destruct v; simpl; eauto. Qed.

Lemma removeInvalidTokens_pushed E userId invalid w :
  pushed (snd (removeInvalidTokens E userId invalid w)) = pushed w.
Proof.
  destruct (decide (invalid = [])) as [->|Hne]; [reflexivity|].
  rewrite removeInvalidTokens_spec by done.
  destruct (db_fault E (db_calls w)); reflexivity.
Qed.

Lemma removeInvalidTokens_total E userId invalid w :
  fst (removeInvalidTokens E userId invalid w) = inl tt.
Proof.
  destruct (decide (invalid = [])) as [->|Hne]; [reflexivity|].
  rewrite removeInvalidTokens_spec by done.
  destruct (db_fault E (db_calls w)); reflexivity.
Qed.

Lemma notification_body_inl message itemName w body w' :
  notification_body message itemName w = (inl body, w') ->
  text_or_absent message.
Proof.
  unfold notification_body, text_or_absent, bind, String_trim, throw.
  destruct message as [| |[|]|z|s]; simpl; try done.
  destruct (negb (Z.eqb z 0)); [discriminate | done].
Qed.

Lemma notification_body_state message itemName w r w' :
  notification_body message itemName w = (r, w') -> w' = w.
Proof.
  unfold notification_body, bind, String_trim, throw, ret.
  destruct (truthy message); [|now intros [= _ <-]].
  destruct message; simpl; now intros [= _ <-].
Qed.

#[local] Opaque js.

(** Whatever happens, a dispatch hands the provider the messages of a prefix
    of the recipient's batches, each built by [offer_message]. *)
Lemma sendOfferNotification_pushed E a w :
  exists k,
    pushed (snd (sendOfferNotification E a w)) =
    pushed w ++
    map (offer_message a)
        (take k (batches_from (uniqueTokens_of (recipient_tokens a w)) 0 [])).
Proof.
  unfold sendOfferNotification, User_findOne, storage.
  unfold bind at 1.
  destruct (db_fault E (db_calls w)) as [e|].
  { exists 0. simpl. now rewrite app_nil_r. }
  cbn beta iota. cbn [users set_db_calls].
  unfold recipient_tokens, recipient_of.
  set (tokens := match List.find _ (users w) with
                 | Some u => List.filter truthy (User.fcmTokens u)
                 | None => []
                 end).
  destruct (Nat.eqb (length tokens) 0).
  { exists 0. simpl. now rewrite app_nil_r. }
  unfold bind at 1.
  destruct (notification_body _ _ _) as [[body|e] w0] eqn:Hbody.
  2:{ exists 0. rewrite app_nil_r.
      apply notification_body_state in Hbody. now subst w0. }
  pose proof (notification_body_inl _ _ _ _ _ Hbody) as Hmsg.
  rewrite notification_body_ok in Hbody by done.
  injection Hbody as <- <-.
  unfold bind at 1. rewrite sendPushNotification_unfold.
  destruct (getFirebaseMessaging_spec E (set_db_calls (S (db_calls w)) w))
    as (b & w1 & -> & _ & Hsame).
  assert (pushed w1 = pushed w) as Hpushed
    by now destruct Hsame as (_ & _ & _ & -> & _).
  destruct b.
  2:{ exists 0. simpl. now rewrite app_nil_r. }
  destruct (send_batches_pushed E
              (Notification.mk
                 (ToString (resolved_sender a) ++ js " sent you an offer")
                 (offer_body (OfferNotification.message a)
                             (OfferNotification.itemName a)))
              (offer_data a (resolved_sender a))
              (AndroidOptions.mk
                 (VStr (js "swoptrader_offers"))
                 (VStr (js "offer_" ++ ToString (OfferNotification.offerId a)))
                 (VStr (js "SWOPTRADER_OFFER")))
              (batches_from (uniqueTokens_of tokens) 0 []) 0 0 [] w1)
    as (k & _ & Hw & _).
  exists k. unfold resolved_sender in Hw.
  destruct (send_batches _ _ _ _ _ _ _ _ _) as [[r|e] w2]; simpl in Hw; subst w2.
  - unfold bind.
    match goal with
    | |- context [(if ?c then _ else _) ?x] =>
        destruct c;
        [ pose proof (removeInvalidTokens_pushed E
            (OfferNotification.recipientUserId a)
            (PushResult.invalidTokens r) x) as Hp;
          pose proof (removeInvalidTokens_total E
            (OfferNotification.recipientUserId a)
            (PushResult.invalidTokens r) x) as Ht;
          destruct (removeInvalidTokens _ _ _ x) as [[[]|e] w3];
          [|discriminate Ht]; simpl in Hp |- *; rewrite Hp
        | ]
    end; simpl; now rewrite Hpushed.
  - simpl. now rewrite Hpushed.
Qed.

#[local] Transparent js.

(** C4, as the code has it: every message a dispatch hands to the provider
    has the title "<sender> sent you an offer", where <sender> is the sender
    name or, when that is empty, "A SwopTrader user"; its body is the message
    trimmed of surrounding white space and then cut to 140 code units or,
    when the message is absent or nothing is left of it, "New pitch on
    <item>", where <item> is the item name or, when that is empty, "your
    listing"; and its data map holds the seven entries type, offerId,
    senderUserId, senderName, recipientUserId, itemName and message, each
    value a string, null and undefined being turned into the empty string. *)
Theorem offer_notification_payload E a w ms :
  pushed (snd (sendOfferNotification E a w)) = pushed w ++ ms ->
  let sender :=
    js_or (OfferNotification.senderName a) (VStr (js "A SwopTrader user")) in
  let pitch :=
    js "New pitch on " ++
    ToString (js_or (OfferNotification.itemName a) (VStr (js "your listing"))) in
  Forall (fun m =>
    let n := MulticastMessage.notification m in
    Notification.title n = ToString sender ++ js " sent you an offer" /\
    (forall s, OfferNotification.message a = VStr s ->
       Notification.body n =
         if is_empty (substring (trim s) 0 140) then pitch
         else substring (trim s) 0 140) /\
    (truthy (OfferNotification.message a) = false ->
       Notification.body n = pitch) /\
    MulticastMessage.data m =
      list_to_map
        [ (js "type", VStr (js "offer"));
          (js "offerId", coerce (OfferNotification.offerId a));
          (js "senderUserId", coerce (OfferNotification.senderUserId a));
          (js "senderName", coerce sender);
          (js "recipientUserId", coerce (OfferNotification.recipientUserId a));
          (js "itemName", coerce (js_or (OfferNotification.itemName a) (VStr [])));
          (js "message", coerce (js_or (OfferNotification.message a) (VStr []))) ] /\
    (forall key v, MulticastMessage.data m !! key = Some v ->
                   exists s, v = VStr s) /\
    coerce VNull = VStr [] /\ coerce VUndefined = VStr []) ms.
Proof.
  intros Hms sender pitch.
  destruct (sendOfferNotification_pushed E a w) as (k & Hk).
  rewrite Hms in Hk. apply app_inv_head in Hk. subst ms.
  apply Forall_map, Forall_forall. intros batch _.
  unfold offer_message, multicast_message. cbn [MulticastMessage.notification
    MulticastMessage.data Notification.title Notification.body].
  rewrite buildDataPayload_fmap. split_and!.
  - reflexivity.
  - intros s ->. reflexivity.
  - unfold offer_body. destruct (OfferNotification.message a); try reflexivity.
    simpl. destruct s; [reflexivity | discriminate].
  - unfold offer_data. rewrite <- list_to_map_fmap. reflexivity.
  - intros key v. rewrite lookup_fmap.
    destruct (offer_data _ _ !! key) as [x|]; [|discriminate].
    intros [= <-]. apply coerce_is_string.
  - reflexivity.
  - reflexivity.
Qed.

Lemma offer_notification_payload_witness :
  let E := Demo.env [] Demo.no_faults in
  let a := Demo.offer_notification (VStr (js "  I can add a strap  ")) in
  let ms := pushed (snd (sendOfferNotification E a Demo.world)) in
  length ms = 1 /\
  Forall (fun m =>
    let n := MulticastMessage.notification m in
    Notification.title n = js "Bob sent you an offer" /\
    Notification.body n = js "I can add a strap" /\
    MulticastMessage.data m !! js "itemName" = Some (VStr []) /\
    MulticastMessage.data m !! js "message" =
      Some (VStr (js "  I can add a strap  "))) ms.
Proof.
  intros E a ms. split; [reflexivity|].
  pose proof (offer_notification_payload E a Demo.world ms eq_refl) as H.
  cbv zeta in H. eapply Forall_impl; [exact H|].
  intros m (Htitle & Hbody & _ & Hdata & _). cbv zeta. split_and!.
  - exact Htitle.
  - exact (Hbody _ eq_refl).
  - rewrite Hdata. reflexivity.
  - rewrite Hdata. reflexivity.
Defined.

(** C4 as stated fails: the body is not the message cut to 140 characters
    when the message starts with white space (it is trimmed first), and a
    message of white space only gets the fallback body although a message was
    given. *)
Lemma offer_body_counterexample :
  let E := Demo.env [] Demo.no_faults in
  let bodies message :=
    map (fun m => Notification.body (MulticastMessage.notification m))
        (pushed (snd (sendOfferNotification E (Demo.offer_notification message)
                                            Demo.world))) in
  (bodies (VStr (js " hi")) = [js "hi"] /\
   js "hi" <> substring (js " hi") 0 140) /\
  (bodies (VStr (js "   ")) = [js "New pitch on your listing"] /\
   js "New pitch on your listing" <> substring (js "   ") 0 140).
Proof.
  intros E bodies. split; (split; [vm_compute; reflexivity | discriminate]).
Qed.

(** ** An unconfigured transport *)

Lemma sendPushNotification_unavailable E tokens notification data android w :
  credential_unavailable E -> unconfigured w ->
  exists w',
    sendPushNotification E tokens notification data android w =
      (inr not_configured, w') /\
    unconfigured w' /\ same_data w w'.
Proof.
  intros Hcred Hw.
  destruct (getFirebaseMessaging_unavailable E w Hcred Hw)
    as (w' & Hrun & Hw' & Hsame).
  exists w'. now rewrite sendPushNotification_unfold, Hrun.
Qed.

#[local] Opaque js.

Lemma sendOfferNotification_unavailable E a w :
  credential_unavailable E -> unconfigured w ->
  db_fault E (db_calls w) = None ->
  recipient_tokens a w <> [] ->
  text_or_absent (OfferNotification.message a) ->
  exists w',
    sendOfferNotification E a w = (inr not_configured, w') /\
    unconfigured w' /\ pushed w' = pushed w /\ users w' = users w.
Proof.
  intros Hcred Hw Hdb Htok Hmsg.
  unfold sendOfferNotification, User_findOne.
  unfold bind at 1. rewrite storage_ok by done. cbn beta iota.
  cbn [users set_db_calls].
  unfold recipient_tokens, recipient_of in Htok.
  match goal with
  | |- context [Nat.eqb (length ?l) 0] =>
      destruct (Nat.eqb_spec (length l) 0) as [Hz|_]
  end.
  { now apply nil_length_inv in Hz. }
  unfold bind at 1. rewrite notification_body_ok by done.
  unfold bind at 1.
  edestruct (sendPushNotification_unavailable E) as (w' & -> & Hw' & Hsame);
    [exact Hcred | | ].
  { destruct Hw. split; simpl; eassumption. }
  exists w'. split; [reflexivity|]. split; [exact Hw'|].
  destruct Hsame as (Hu & _ & _ & Hp & _). simpl in Hu, Hp. now split.
Qed.

#[local] Transparent js.

(** ** Offer creation *)

Lemma queueOfferNotificationForOffer_total E offer w :
  fst (queueOfferNotificationForOffer E offer w) = inl tt.
Proof.
  destruct offer as [offer|]; [|reflexivity].
  unfold queueOfferNotificationForOffer, try_catch.
  destruct (queueOfferNotification_try E offer w) as [[[]|e] w']; reflexivity.
Qed.

(** C7: when the write of a new offer succeeds, [POST /api/v1/offers]
    answers 201 with the saved offer, whatever the environment does to the
    notification: [queueOfferNotificationForOffer] never rejects (nothing is
    left unhandled: the world after the request is the one it leaves), and
    an exception of its [try] block, be it from the lookups or from the
    dispatch, ends as a line of the log. *)
Theorem offer_creation_ignores_notification E b w o w1 :
  Offer_save E b w = (inl o, w1) ->
  (o = b /\ b ∈ offers w1) /\
  post_offers E b w =
    (inl (mkResponse 201 (BOffer o)),
     snd (queueOfferNotificationForOffer E (Some o) w1)) /\
  (forall offer w0, fst (queueOfferNotificationForOffer E offer w0) = inl tt) /\
  (forall offer w0 e w0',
     queueOfferNotification_try E offer w0 = (inr e, w0') ->
     queueOfferNotificationForOffer E (Some offer) w0 =
       (inl tt,
        set_console (console w0' ++ [LogDispatchFailed (Offer.id offer) e]) w0')).
Proof.
  intros Hsave. split; [|split_and!].
  - unfold Offer_save, storage in Hsave.
    destruct (_ || _); [discriminate|].
    destruct (db_fault E (db_calls w)); [discriminate|].
    unfold bind, get, modify, ret, throw in Hsave. cbn in Hsave.
    destruct (existsb _ _); [discriminate|].
    injection Hsave as <- <-. split; [reflexivity|].
    cbn. apply elem_of_app. right. now left.
  - unfold post_offers, try_catch. unfold bind at 1. rewrite Hsave.
    unfold bind, detached.
    pose proof (queueOfferNotificationForOffer_total E (Some o) w1) as Ht.
    destruct (queueOfferNotificationForOffer E (Some o) w1) as [[[]|e] w'];
      [reflexivity | discriminate Ht].
  - apply queueOfferNotificationForOffer_total.
  - intros offer w0 e w0' Htry.
    unfold queueOfferNotificationForOffer, try_catch. now rewrite Htry.
Qed.

Lemma offer_creation_ignores_notification_witness :
  let o := Demo.offer in
  (exists w1 w',
     Offer_save Demo.env_no_credential o Demo.world = (inl o, w1) /\
     post_offers Demo.env_no_credential o Demo.world =
       (inl (mkResponse 201 (BOffer o)), w') /\
     console w' = [LogNotConfigured; LogDispatchFailed (js "o1") not_configured]) /\
  (exists w1 w',
     Offer_save (Demo.env [] (Demo.fault_at 1)) o Demo.world = (inl o, w1) /\
     post_offers (Demo.env [] (Demo.fault_at 1)) o Demo.world =
       (inl (mkResponse 201 (BOffer o)), w') /\
     console w' =
       [LogDispatchFailed (js "o1") (Error (js "connection lost"))]).
Proof.
  intros o. split.
  - eexists _, _. split; [reflexivity|].
    split; [exact (proj1 (proj2 (offer_creation_ignores_notification
                     Demo.env_no_credential o Demo.world o _ eq_refl)))
           | reflexivity].
  - eexists _, _. split; [reflexivity|].
    split; [exact (proj1 (proj2 (offer_creation_ignores_notification
                     (Demo.env [] (Demo.fault_at 1)) o Demo.world o _ eq_refl)))
           | reflexivity].
Defined.

(** ** Token registration *)

Lemma post_notifications_token_ok E b w u :
  truthy (TokenBody.userId b) = true ->
  truthy (TokenBody.token b) = true ->
  db_fault E (db_calls w) = None ->
  List.find (user_has_id (TokenBody.userId b)) (users w) = Some u ->
  let u' := apply_TokenUpdate (token_update b (clock w)) u in
  post_notifications_token E b w =
    (inl (mkResponse 200 (BTokens (User.fcmTokens u') (clock w)
                                  (js "Device token registered"))),
     set_users (update_first (user_has_id (TokenBody.userId b))
                             (apply_TokenUpdate (token_update b (clock w)))
                             (users w))
               (set_db_calls (S (db_calls w)) w)) /\
  List.find (user_has_id (TokenBody.userId b))
            (update_first (user_has_id (TokenBody.userId b))
                          (apply_TokenUpdate (token_update b (clock w)))
                          (users w)) = Some u'.
Proof.
  intros Hu Ht Hdb Hfind u'. split.
  - unfold post_notifications_token. rewrite Hu, Ht. cbn [negb orb].
    unfold try_catch, bind at 1, new_Date. unfold bind at 1.
    unfold bind at 1, User_findOneAndUpdate_tokens.
    rewrite storage_ok by done.
    fold (token_update b (clock w)).
    unfold bind at 1, get. cbn [users set_db_calls]. rewrite Hfind.
    reflexivity.
  - apply find_update_first; [exact Hfind|].
    apply find_some in Hfind as [_ Hp]. exact Hp.
Qed.

Lemma count_occ_addToSet t ts :
  NoDup ts -> NoDup (addToSet t ts) /\ count_occ jsval_eq_dec (addToSet t ts) t = 1.
Proof.
  intros Hnd. unfold addToSet. case_bool_decide as Hin.
  - split; [done|]. apply NoDup_ListNoDup in Hnd.
    apply list_elem_of_In in Hin.
    pose proof (proj1 (NoDup_count_occ jsval_eq_dec ts) Hnd t).
    pose proof (proj1 (count_occ_In jsval_eq_dec ts t) Hin). lia.
  - split.
    + apply NoDup_app. split_and!; [done | | apply NoDup_singleton].
      intros x Hx ->%list_elem_of_singleton. contradiction.
    + rewrite count_occ_app. simpl.
      rewrite (proj1 (count_occ_not_In jsval_eq_dec ts t))
        by now rewrite <- list_elem_of_In.
      destruct (jsval_eq_dec t t); [reflexivity | contradiction].
Qed.

Lemma count_occ_addToSet_max t ts :
  count_occ jsval_eq_dec (addToSet t ts) t =
  Nat.max 1 (count_occ jsval_eq_dec ts t).
Proof.
  unfold addToSet. case_bool_decide as Hin.
  - apply list_elem_of_In in Hin.
    pose proof (proj1 (count_occ_In jsval_eq_dec ts t) Hin). lia.
  - rewrite count_occ_app. simpl.
    rewrite (proj1 (count_occ_not_In jsval_eq_dec ts t))
      by now rewrite <- list_elem_of_In.
    destruct (jsval_eq_dec t t); [reflexivity | contradiction].
Qed.

Lemma lookup_set_path path value m :
  set_path path value m !! path = Some value.
Proof. unfold set_path. apply lookup_insert_eq. Qed.

Lemma lookup_set_path_ne path value m d :
  d <> path -> below path d = false ->
  set_path path value m !! d = m !! d.
Proof.
  intros Hne Hbelow. unfold set_path.
  rewrite lookup_insert_ne by done.
  destruct (m !! d) as [v|] eqn:Hd.
  - now apply map_lookup_filter_Some.
  - apply map_lookup_filter_None. left. exact Hd.
Qed.

Lemma addToSet_idem t ts : addToSet t (addToSet t ts) = addToSet t ts.
Proof.
  assert (t ∈ addToSet t ts) as Hin.
  { unfold addToSet. case_bool_decide; [done|].
    apply elem_of_app. right. now left. }
  unfold addToSet at 1. now rewrite bool_decide_eq_true_2.
Qed.

Lemma elem_of_addToSet t ts x : x ∈ addToSet t ts <-> x ∈ ts \/ x = t.
Proof.
  unfold addToSet. case_bool_decide.
  - split; [auto | intros [?| ->]; auto].
  - rewrite elem_of_app, list_elem_of_singleton. tauto.
Qed.

(** C8, as amended: registering one token twice for a user is answered 200
    both times and leaves the flat token set as the first registration left
    it; the token is then in it as often as it was stored before, and once
    when it was not stored or stored once (so exactly once unless the
    stored set held it several times); and registering a second token under
    the same device id makes the per-device map hold that second token for
    the device, while the flat token set holds both tokens. *)
Theorem token_registration E w u userId token :
  truthy userId = true -> truthy token = true ->
  List.find (user_has_id userId) (users w) = Some u ->
  db_fault E (db_calls w) = None -> db_fault E (S (db_calls w)) = None ->
  let registered b := post_notifications_token E b in
  let t := VStr (ToString token) in
  (forall deviceId,
     let b := TokenBody.mk userId token deviceId in
     let w1 := snd (registered b w) in
     let w2 := snd (registered b w1) in
     exists u1 u2,
       (status_of (fst (registered b w)) = Some 200 /\
        status_of (fst (registered b w1)) = Some 200) /\
       List.find (user_has_id userId) (users w1) = Some u1 /\
       List.find (user_has_id userId) (users w2) = Some u2 /\
       User.fcmTokens u2 = User.fcmTokens u1 /\
       count_occ jsval_eq_dec (User.fcmTokens u2) t =
         Nat.max 1 (count_occ jsval_eq_dec (User.fcmTokens u) t) /\
       (count_occ jsval_eq_dec (User.fcmTokens u) t <= 1 ->
        count_occ jsval_eq_dec (User.fcmTokens u2) t = 1) /\
       (NoDup (User.fcmTokens u) -> NoDup (User.fcmTokens u2))) /\
  (forall deviceId token2,
     truthy deviceId = true -> truthy token2 = true ->
     let w1 := snd (registered (TokenBody.mk userId token deviceId) w) in
     let w2 := snd (registered (TokenBody.mk userId token2 deviceId) w1) in
     exists u1 u2,
       List.find (user_has_id userId) (users w1) = Some u1 /\
       User.deviceTokens u1 !! ToString deviceId = Some (ToString token) /\
       List.find (user_has_id userId) (users w2) = Some u2 /\
       User.deviceTokens u2 !! ToString deviceId = Some (ToString token2) /\
       t ∈ User.fcmTokens u2 /\ VStr (ToString token2) ∈ User.fcmTokens u2).
Proof.
  intros Hu Ht Hfind Hdb0 Hdb1 registered t. split.
  - intros deviceId b w1 w2.
    destruct (post_notifications_token_ok E b w u Hu Ht Hdb0 Hfind)
      as [Hrun1 Hfind1].
    assert (db_fault E (db_calls w1) = None) as Hdb1'.
    { unfold w1, registered. rewrite Hrun1. exact Hdb1. }
    assert (List.find (user_has_id userId) (users w1) =
            Some (apply_TokenUpdate (token_update b (clock w)) u)) as Hfind1'.
    { unfold w1, registered. rewrite Hrun1. exact Hfind1. }
    destruct (post_notifications_token_ok E b w1 _ Hu Ht Hdb1' Hfind1')
      as [Hrun2 Hfind2].
    eexists _, _. split.
    { unfold registered. now rewrite Hrun1, Hrun2. }
    split; [exact Hfind1'|]. split.
    { unfold w2, registered. rewrite Hrun2. exact Hfind2. }
    cbn [apply_TokenUpdate User.fcmTokens token_update addToSet_fcmTokens
         TokenBody.token b].
    rewrite addToSet_idem. split_and!.
    + reflexivity.
    + apply count_occ_addToSet_max.
    + intros Hle. rewrite count_occ_addToSet_max. lia.
    + intros Hnd. now apply count_occ_addToSet.
  - intros deviceId token2 Hd Ht2 w1 w2.
    destruct (post_notifications_token_ok E (TokenBody.mk userId token deviceId)
                w u Hu Ht Hdb0 Hfind) as [Hrun1 Hfind1].
    assert (db_fault E (db_calls w1) = None) as Hdb1'.
    { unfold w1, registered. rewrite Hrun1. exact Hdb1. }
    cbn [TokenBody.userId] in Hfind1.
    assert (List.find (user_has_id userId) (users w1) = Some
              (apply_TokenUpdate
                 (token_update (TokenBody.mk userId token deviceId) (clock w)) u))
      as Hfind1'.
    { unfold w1, registered. rewrite Hrun1. exact Hfind1. }
    destruct (post_notifications_token_ok E (TokenBody.mk userId token2 deviceId)
                w1 _ Hu Ht2 Hdb1' Hfind1') as [Hrun2 Hfind2].
    eexists _, _. split; [exact Hfind1'|]. split.
    { cbn [apply_TokenUpdate User.deviceTokens token_update set_deviceTokens
           TokenBody.deviceId TokenBody.token].
      rewrite Hd. apply lookup_set_path. }
    split.
    { unfold w2, registered. rewrite Hrun2. exact Hfind2. }
    cbn [apply_TokenUpdate User.deviceTokens User.fcmTokens token_update
         set_deviceTokens addToSet_fcmTokens TokenBody.deviceId TokenBody.token].
    rewrite Hd. split; [apply lookup_set_path|].
    rewrite !elem_of_addToSet. split; [left|]; right; reflexivity.
Qed.

Lemma token_registration_witness :
  let E := Demo.env [] Demo.no_faults in
  let w := Demo.world in
  let userId := VStr (js "u1") in
  let D1 := VStr (js "D1") in
  let registered b := post_notifications_token E b in
  List.find (user_has_id userId) (users w) =
    Some (Demo.user "u1" [Demo.tok 1; Demo.tok 2]) /\
  (let b := TokenBody.mk userId (Demo.tok 3) D1 in
   let w1 := snd (registered b w) in
   let w2 := snd (registered b w1) in
   exists u1 u2,
     List.find (user_has_id userId) (users w1) = Some u1 /\
     List.find (user_has_id userId) (users w2) = Some u2 /\
     User.fcmTokens u2 = User.fcmTokens u1 /\
     count_occ jsval_eq_dec (User.fcmTokens u2) (Demo.tok 3) = 1) /\
  (let w1 := snd (registered (TokenBody.mk userId (Demo.tok 3) D1) w) in
   let w2 := snd (registered (TokenBody.mk userId (Demo.tok 4) D1) w1) in
   exists u1 u2,
     List.find (user_has_id userId) (users w1) = Some u1 /\
     User.deviceTokens u1 !! js "D1" = Some (js "t3") /\
     List.find (user_has_id userId) (users w2) = Some u2 /\
     User.deviceTokens u2 !! js "D1" = Some (js "t4") /\
     Demo.tok 3 ∈ User.fcmTokens u2 /\ Demo.tok 4 ∈ User.fcmTokens u2).
Proof.
  intros E w userId D1 registered.
  destruct (token_registration E w (Demo.user "u1" [Demo.tok 1; Demo.tok 2])
              userId (Demo.tok 3) eq_refl eq_refl eq_refl eq_refl eq_refl)
    as [Hsame Hdevice].
  split; [reflexivity|]. split.
  - destruct (Hsame D1) as (u1 & u2 & _ & H1 & H2 & Heq & _ & Hcount & _).
    exists u1, u2. split_and!; [exact H1 | exact H2 | exact Heq |].
    apply Hcount. vm_compute. lia.
  - exact (Hdevice D1 (Demo.tok 4) eq_refl eq_refl).
Defined.

(** C8 as stated fails for a user whose stored token set holds a token
    twice (a document written by [POST /api/v1/users]): [$addToSet] adds
    nothing and removes nothing, so after two registrations of that token,
    both answered 200, the set still holds it twice. *)
Lemma token_registration_counterexample :
  let E := Demo.env [] Demo.no_faults in
  let w := Demo.world_with [Demo.tok 1; Demo.tok 1] in
  let b := TokenBody.mk (VStr (js "u1")) (Demo.tok 1) VUndefined in
  let w1 := snd (post_notifications_token E b w) in
  let w2 := snd (post_notifications_token E b w1) in
  status_of (fst (post_notifications_token E b w)) = Some 200 /\
  status_of (fst (post_notifications_token E b w1)) = Some 200 /\
  (User.fcmTokens <$> List.find (user_has_id (VStr (js "u1"))) (users w2)) =
    Some [Demo.tok 1; Demo.tok 1] /\
  ~ (exists u2, List.find (user_has_id (VStr (js "u1"))) (users w2) = Some u2 /\
                count_occ jsval_eq_dec (User.fcmTokens u2) (Demo.tok 1) = 1).
Proof.
  intros E w b w1 w2. split_and!; [reflexivity | reflexivity | reflexivity |].
  intros (u2 & Hfind & Hcount).
  assert (List.find (user_has_id (VStr (js "u1"))) (users w2) =
          Some (apply_TokenUpdate (token_update b 1000)
                  (apply_TokenUpdate (token_update b 1000)
                     (Demo.user "u1" [Demo.tok 1; Demo.tok 1])))) as Hu2
    by reflexivity.
  rewrite Hu2 in Hfind. injection Hfind as <-.
  vm_compute in Hcount. discriminate Hcount.
Qed.

Example registration_history :
  let E := Demo.env [] Demo.no_faults in
  let userId := VStr (js "u1") in
  let D1 := VStr (js "D1") in
  let w1 := snd (post_notifications_token E
                   (TokenBody.mk userId (Demo.tok 3) D1) Demo.world) in
  let w2 := snd (post_notifications_token E
                   (TokenBody.mk userId (Demo.tok 3) D1) w1) in
  let w3 := snd (post_notifications_token E
                   (TokenBody.mk userId (Demo.tok 4) D1) w2) in
  (fun u => (User.fcmTokens u, map_to_list (User.deviceTokens u)))
    <$> List.find (user_has_id userId) (users w3) =
  Some ([Demo.tok 1; Demo.tok 2; Demo.tok 3; Demo.tok 4], [(js "D1", js "t4")]).
Proof. vm_compute. reflexivity. Qed.

(** ** Items: soft delete and listing *)

Lemma insert_desc_Forall (P : Item.t -> Prop) i l :
  P i -> Forall P l -> Forall P (insert_desc i l).
Proof.
  intros Hi. induction 1 as [|j l Hj Hl IH]; simpl.
  - now repeat constructor.
  - destruct (Z.leb _ _); repeat constructor; auto.
Qed.

Lemma sort_createdAt_desc_Forall (P : Item.t -> Prop) l :
  Forall P l -> Forall P (sort_createdAt_desc l).
Proof.
  induction 1 as [|i l Hi Hl IH]; simpl; [constructor|].
  now apply insert_desc_Forall.
Qed.

Lemma items_filter_available q re l :
  Forall (fun x => Item.isAvailable x = true) (List.filter (items_filter q re) l).
Proof.
  apply Forall_forall. intros x Hx%list_elem_of_In%filter_In.
  destruct Hx as [_ Hx]. unfold items_filter in Hx.
  now destruct (Item.isAvailable x).
Qed.

Lemma Item_find_available E q limit skip w data w' :
  Item_find E q limit skip w = (inl data, w') ->
  Forall (fun x => Item.isAvailable x = true) data.
Proof.
  unfold Item_find, storage.
  destruct (db_fault E (db_calls w)); [discriminate|].
  unfold bind at 1.
  destruct (search_regex E q _) as [[re|e] w0]; [|discriminate].
  destruct (Z.ltb skip 0); [discriminate|].
  unfold bind, get, ret. intros [= <- _].
  pose proof (sort_createdAt_desc_Forall _ _
                (items_filter_available q re (items w0))) as Hs.
  destruct (Z.eqb limit 0).
  - now apply Forall_drop.
  - now apply Forall_take, Forall_drop.
Qed.

Lemma get_items_available E q w data pagination w' :
  get_items E q w = (inl (mkResponse 200 (BItems data pagination)), w') ->
  Forall (fun x => Item.isAvailable x = true) data.
Proof.
  unfold get_items, try_catch. unfold bind at 1.
  destruct (Item_find E q _ _ w) as [[found|e] w0] eqn:Hfind;
    [|discriminate].
  unfold bind.
  destruct (Item_countDocuments E q w0) as [[total|e] w1]; [|discriminate].
  unfold ret. intros [= <- _ _].
  eapply Item_find_available, Hfind.
Qed.

(** C9: for an existing item, [DELETE /api/v1/items/:itemId] answers with the
    item in which [isAvailable] is false and [updatedAt] is the current time,
    every other field being as before; the document stays where it was in the
    collection and no other document or collection changes; and a listing
    returns only items whose [isAvailable] is true, so the deleted item is not
    in it. *)
Theorem soft_delete_item E itemId w i :
  db_fault E (db_calls w) = None ->
  List.find (item_has_id itemId) (items w) = Some i ->
  exists i' w',
    delete_item E itemId w = (inl (mkResponse 200 (BItem i')), w') /\
    (Item.isAvailable i' = false /\ Item.updatedAt i' = clock w) /\
    (Item.id i' = Item.id i /\ Item.name i' = Item.name i /\
     Item.description i' = Item.description i /\
     Item.category i' = Item.category i /\
     Item.condition i' = Item.condition i /\
     Item.images i' = Item.images i /\ Item.ownerId i' = Item.ownerId i /\
     Item.createdAt i' = Item.createdAt i) /\
    (exists before after,
       items w = before ++ i :: after /\ items w' = before ++ i' :: after) /\
    (users w' = users w /\ offers w' = offers w) /\
    (forall E' q w0 data pagination w0',
       get_items E' q w0 = (inl (mkResponse 200 (BItems data pagination)), w0') ->
       (forall x, x ∈ data -> Item.isAvailable x = true) /\ i' ∉ data).
Proof.
  intros Hdb Hfind.
  exists (soft_delete (clock w) i).
  exists (set_items (update_first (item_has_id itemId) (soft_delete (clock w))
                                  (items w))
                    (set_db_calls (S (db_calls w)) w)).
  split_and!; try reflexivity.
  - unfold delete_item, try_catch, new_Date. unfold bind at 1.
    unfold bind at 1, Item_findOneAndUpdate_soft_delete.
    rewrite storage_ok by done.
    unfold bind at 1, get. cbn [items set_db_calls]. rewrite Hfind.
    reflexivity.
  - destruct (update_first_split (item_has_id itemId)
                (soft_delete (clock w)) (items w) i Hfind)
      as (before & after & H1 & H2 & _).
    now exists before, after.
  - intros E' q w0 data pagination w0' Hget.
    pose proof (get_items_available _ _ _ _ _ _ Hget) as Hall.
    rewrite Forall_forall in Hall. split; [exact Hall|].
    intros Hin. now apply Hall in Hin.
Qed.

Lemma soft_delete_item_witness :
  let E := Demo.env [] Demo.no_faults in
  let i := Demo.item "i1" true 5 in
  let i' := Item.mk (js "i1") (js "guitar") (js "a guitar") (js "Music")
                    (js "good") [] (js "u1") false 5 1000 in
  let q := ItemsQuery.mk None None None None None in
  List.find (item_has_id (js "i1")) (items Demo.world) = Some i /\
  exists w' w'',
    delete_item E (js "i1") Demo.world = (inl (mkResponse 200 (BItem i')), w') /\
    items w' = [i'; Demo.item "i2" true 7] /\
    get_items E q w' =
      (inl (mkResponse 200 (BItems [Demo.item "i2" true 7]
                                   (Pagination.mk 1 20 1 (Some 1%Z)))), w'') /\
    i' ∉ [Demo.item "i2" true 7].
Proof.
  intros E i i' q. split; [reflexivity|].
  destruct (soft_delete_item E (js "i1") Demo.world i eq_refl eq_refl)
    as (j & w' & Hrun & _ & _ & _ & _ & Hlist).
  assert (j = i' /\ items w' = [i'; Demo.item "i2" true 7]) as [-> Hitems].
  { vm_compute in Hrun. injection Hrun as <- <-. split; reflexivity. }
  eexists w', _. split; [exact Hrun|]. split; [exact Hitems|].
  assert (get_items E q w' =
          (inl (mkResponse 200 (BItems [Demo.item "i2" true 7]
                                       (Pagination.mk 1 20 1 (Some 1%Z)))),
           snd (get_items E q w'))) as Hget.
  { vm_compute in Hrun. injection Hrun as <-. vm_compute. reflexivity. }
  split; [exact Hget|]. exact (proj2 (Hlist E q w' _ _ _ Hget)).
Defined.

(** ** What the handlers leave untouched *)

Section Preserves.

Context (P : World -> Prop).

Lemma preserves_ret {A} (a : A) : preserves P (ret a).
Proof. now intros w. Qed.

Lemma preserves_throw {A} e : preserves P (@throw A e).
Proof. now intros w. Qed.

Lemma preserves_get : preserves P get.
Proof. now intros w. Qed.

Lemma preserves_lift {A} (r : A + exn) : preserves P (lift r).
Proof. now intros w. Qed.

Lemma preserves_lift_opt r : preserves P (lift_opt r).
Proof. destruct r; now intros w. Qed.

Lemma preserves_new_Date : preserves P new_Date.
Proof. now intros w. Qed.

Lemma preserves_modify f :
  (forall w, P w -> P (f w)) -> preserves P (modify f).
Proof. intros Hf w. apply Hf. Qed.

Lemma preserves_bind {A B} (m : M A) (k : A -> M B) :
  preserves P m -> (forall a, preserves P (k a)) -> preserves P (bind m k).
Proof.
  intros Hm Hk w Hw. unfold bind. specialize (Hm w Hw).
  destruct (m w) as [[a|e] w']; [now apply Hk | exact Hm].
Qed.

Lemma preserves_try_catch {A} (m : M A) h :
  preserves P m -> (forall e, preserves P (h e)) -> preserves P (try_catch m h).
Proof.
  intros Hm Hh w Hw. unfold try_catch. specialize (Hm w Hw).
  destruct (m w) as [[a|e] w']; [exact Hm | now apply Hh].
Qed.

Lemma preserves_Promise_all2 {A B} (a : M A) (b : M B) :
  preserves P a -> preserves P b -> preserves P (Promise_all2 a b).
Proof.
  intros Ha Hb w Hw. unfold Promise_all2. specialize (Ha w Hw).
  destruct (a w) as [ra w1]. specialize (Hb w1 Ha).
  now destruct (b w1) as [rb w2].
Qed.

Hypothesis P_console : forall ls w, P w -> P (set_console ls w).
Hypothesis P_db_calls : forall n w, P w -> P (set_db_calls n w).
Hypothesis P_users : forall us w, P w -> P (set_users us w).
Hypothesis P_items : forall its w, P w -> P (set_items its w).
Hypothesis P_offers : forall os w, P w -> P (set_offers os w).
Hypothesis P_pushed : forall ms w, P w -> P (set_pushed ms w).

Lemma preserves_log l : preserves P (log l).
Proof. intros w. apply P_console. Qed.

Lemma preserves_detached {A} (m : M A) : preserves P m -> preserves P (detached m).
Proof.
  intros Hm w Hw. unfold detached. specialize (Hm w Hw).
  destruct (m w) as [[a|e] w']; [exact Hm | now apply P_console].
Qed.

Lemma preserves_storage E {A} (op : M A) :
  preserves P op -> preserves P (storage E op).
Proof.
  intros Hop w Hw. unfold storage.
  destruct (db_fault E (db_calls w)); [now apply P_db_calls|].
  now apply Hop, P_db_calls.
Qed.

Lemma preserves_sendEachForMulticast E m :
  preserves P (messaging_sendEachForMulticast E m).
Proof. intros w. apply P_pushed. Qed.

End Preserves.

Create HintDb preserve.

(** Steps through a handler, one construct at a time; the lemmas about the
    functions it calls come from the hint database. *)
Ltac preserve :=
  repeat first
    [ progress intros
    | solve [auto 2 with preserve nocore]
    | apply preserves_ret | apply preserves_throw | apply preserves_get
    | apply preserves_lift | apply preserves_lift_opt
    | apply preserves_new_Date
    | apply preserves_log; solve [auto]
    | apply preserves_sendEachForMulticast; solve [auto]
    | apply preserves_bind | apply preserves_try_catch
    | apply preserves_Promise_all2
    | apply preserves_detached; [solve [auto]|]
    | apply preserves_storage; [solve [auto]|]
    | apply preserves_modify; solve [auto]
    | match goal with
      | |- preserves _ (match ?x with _ => _ end) => destruct x
      | |- preserves _ (let (_, _) := ?x in _) => destruct x
      end ].

Lemma unconfigured_console ls w : unconfigured w -> unconfigured (set_console ls w).
Proof. now intros []. Qed.

Lemma unconfigured_db_calls n w : unconfigured w -> unconfigured (set_db_calls n w).
Proof. now intros []. Qed.

Lemma unconfigured_users us w : unconfigured w -> unconfigured (set_users us w).
Proof. now intros []. Qed.

Lemma unconfigured_items its w : unconfigured w -> unconfigured (set_items its w).
Proof. now intros []. Qed.

Lemma unconfigured_offers os w : unconfigured w -> unconfigured (set_offers os w).
Proof. now intros []. Qed.

Lemma unconfigured_pushed ms w : unconfigured w -> unconfigured (set_pushed ms w).
Proof. now intros []. Qed.

#[local] Hint Resolve unconfigured_console unconfigured_db_calls
  unconfigured_users unconfigured_items unconfigured_offers
  unconfigured_pushed : core.

Section Unconfigured.

Context (E : Env) (no_credential : credential_unavailable E).

Lemma getFirebaseMessaging_unconfigured :
  preserves unconfigured (getFirebaseMessaging E).
Proof.
  intros w Hw.
  destruct (getFirebaseMessaging_unavailable E w no_credential Hw)
    as (w' & -> & Hw' & _).
  exact Hw'.
Qed.

#[local] Hint Resolve getFirebaseMessaging_unconfigured : preserve.

Lemma send_batches_unconfigured batches n d a : forall sc fc inv,
  preserves unconfigured (send_batches E batches n d a sc fc inv).
Proof.
  induction batches as [|batch rest IH]; intros sc fc inv; simpl; preserve.
Qed.

#[local] Hint Resolve send_batches_unconfigured : preserve.

Lemma sendPushNotification_unconfigured tokens n d a :
  preserves unconfigured (sendPushNotification E tokens n d a).
Proof. unfold sendPushNotification. preserve. Qed.

#[local] Hint Resolve sendPushNotification_unconfigured : preserve.

Lemma sendOfferNotification_unconfigured a :
  preserves unconfigured (sendOfferNotification E a).
Proof.
  unfold sendOfferNotification, User_findOne, notification_body, String_trim,
         removeInvalidTokens, User_updateOne_pull.
  preserve.
Qed.

#[local] Hint Resolve sendOfferNotification_unconfigured : preserve.

Lemma handle_unconfigured r : preserves unconfigured (handle E r).
Proof.
  destruct r; unfold handle.
  - unfold post_notifications_token, User_findOneAndUpdate_tokens. preserve.
  - unfold post_notifications_offers. preserve.
  - unfold get_items, Item_find, Item_countDocuments, search_regex. preserve.
  - unfold delete_item, Item_findOneAndUpdate_soft_delete. preserve.
  - unfold post_offers, Offer_save, queueOfferNotificationForOffer,
           queueOfferNotification_try, User_findOne, Item_findOne.
    preserve.
Qed.

Lemma serve_unconfigured rs : forall w,
  unconfigured w -> unconfigured (serve E rs w).
Proof.
  induction rs as [|r rs IH]; intros w Hw; simpl; [exact Hw|].
  apply IH, handle_unconfigured, Hw.
Qed.

End Unconfigured.

(** C6: when the environment yields no credential (no value, or a value that
    parses neither as it is nor after base64 decoding) and the transport has
    not been initialised, every call of [sendPushNotification] throws the
    error "Firebase messaging is not configured" and leaves the transport
    uninitialised, and so does every call made after any sequence of
    requests to the server; the offer route
    turns this into a 503 for a recipient who has tokens, where a recipient
    without tokens gets the 404 of the no-tokens result, and a delivery with
    failures is a returned value, not an exception; parsing tries the raw
    text first and the base64-decoded text second. *)
Theorem not_configured_without_credential E w :
  credential_unavailable E -> unconfigured w ->
  (forall tokens notification data android,
     exists w',
       sendPushNotification E tokens notification data android w =
         (inr (Error (js "Firebase messaging is not configured")), w') /\
       unconfigured w' /\ same_data w w') /\
  (forall requests tokens notification data android,
     fst (sendPushNotification E tokens notification data android
                               (serve E requests w)) =
       inr (Error (js "Firebase messaging is not configured")) /\
     unconfigured (serve E requests w)) /\
  (forall b,
     truthy (OfferNotification.offerId b) = true ->
     truthy (OfferNotification.recipientUserId b) = true ->
     truthy (OfferNotification.senderUserId b) = true ->
     truthy (OfferNotification.senderName b) = true ->
     db_fault E (db_calls w) = None ->
     text_or_absent (OfferNotification.message b) ->
     exists w',
       post_notifications_offers E b w =
         (inl (mkResponse
                 (if decide (recipient_tokens b w = []) then 404 else 503)
                 (BError (if decide (recipient_tokens b w = [])
                          then js "Recipient has no registered notification tokens"
                          else js "Push notifications not configured on the server"))),
          w') /\
       unconfigured w' /\ pushed w' = pushed w) /\
  (forall E' raw w0,
     getRawFirebaseCredential E' = Some raw -> raw <> [] ->
     parseFirebaseCredential E' w0 =
       match JSON_parse E' raw with
       | inl credential => (inl credential, w0)
       | inr _ =>
           match JSON_parse E' (base64_utf8 E' raw) with
           | inl credential => (inl credential, w0)
           | inr _ =>
               (inl JNull, set_console (console w0 ++ [LogInvalidCredential]) w0)
           end
       end).
Proof.
  intros Hcred Hw. split_and!.
  - intros. now apply sendPushNotification_unavailable.
  - intros requests tokens notification data android.
    pose proof (serve_unconfigured E Hcred requests w Hw) as Hw'.
    destruct (sendPushNotification_unavailable E tokens notification data
                android _ Hcred Hw') as (w' & -> & _).
    now split.
  - intros b H1 H2 H3 H4 Hdb Hmsg.
    unfold post_notifications_offers. rewrite H1, H2, H3, H4. cbn [negb orb].
    destruct (decide (recipient_tokens b w = [])) as [Hnil|Hne].
    + exists (set_db_calls (S (db_calls w)) w).
      unfold try_catch, bind.
      rewrite sendOfferNotification_skip by done. cbn.
      split; [reflexivity|]. now destruct Hw.
    + destruct (sendOfferNotification_unavailable E b w)
        as (w' & Hrun & Hw' & Hp & _); try done.
      exists w'. unfold try_catch, bind. rewrite Hrun.
      split; [reflexivity|]. now split.
  - intros E' raw w0 Hraw Hne. unfold parseFirebaseCredential.
    rewrite Hraw. destruct raw as [|c raw]; [done|]. cbn.
    unfold try_catch, lift, bind, log, modify, ret.
    destruct (JSON_parse E' (c :: raw)); [reflexivity|].
    destruct (JSON_parse E' (base64_utf8 E' (c :: raw))); reflexivity.
Qed.

Lemma not_configured_without_credential_witness :
  let E := Demo.env_no_credential in
  let b := Demo.offer_notification (VStr (js "hello")) in
  (credential_unavailable E /\ unconfigured Demo.world) /\
  (exists w',
     sendPushNotification E [Demo.tok 1] Demo.notification ∅
                          AndroidOptions.empty Demo.world =
       (inr (Error (js "Firebase messaging is not configured")), w') /\
     unconfigured w' /\ same_data Demo.world w') /\
  (exists w',
     post_notifications_offers E b Demo.world =
       (inl (mkResponse 503
               (BError (js "Push notifications not configured on the server"))),
        w') /\
     unconfigured w' /\ pushed w' = pushed Demo.world) /\
  fst (sendPushNotification E [Demo.tok 1] Demo.notification ∅
         AndroidOptions.empty
         (serve E [PostOffers Demo.offer; PostNotificationsOffers b]
                Demo.world)) =
    inr (Error (js "Firebase messaging is not configured")).
Proof.
  intros E b.
  assert (credential_unavailable E) as Hcred by exact I.
  assert (unconfigured Demo.world) as Hw by (split; reflexivity).
  destruct (not_configured_without_credential E Demo.world Hcred Hw)
    as (Hpush & Hlater & Hroute & _).
  split; [now split|]. split; [apply Hpush|]. split.
  - apply (Hroute b); try reflexivity; exact I.
  - apply Hlater.
Defined.

(** * More properties of the code *)

(** ** The transport over the life of the process *)

Section HandlersPreserve.

Context (E : Env) (P : World -> Prop).

Hypothesis P_console : forall ls w, P w -> P (set_console ls w).
Hypothesis P_db_calls : forall n w, P w -> P (set_db_calls n w).
Hypothesis P_users : forall us w, P w -> P (set_users us w).
Hypothesis P_items : forall its w, P w -> P (set_items its w).
Hypothesis P_offers : forall os w, P w -> P (set_offers os w).
Hypothesis P_pushed : forall ms w, P w -> P (set_pushed ms w).
Hypothesis P_transport : preserves P (getFirebaseMessaging E).

#[local] Hint Resolve P_transport : preserve.

Lemma send_batches_preserves batches n d a : forall sc fc inv,
  preserves P (send_batches E batches n d a sc fc inv).
Proof.
  induction batches as [|batch rest IH]; intros sc fc inv; simpl; preserve.
Qed.

#[local] Hint Resolve send_batches_preserves : preserve.

Lemma sendPushNotification_preserves tokens n d a :
  preserves P (sendPushNotification E tokens n d a).
Proof. unfold sendPushNotification. preserve. Qed.

#[local] Hint Resolve sendPushNotification_preserves : preserve.

Lemma sendOfferNotification_preserves a :
  preserves P (sendOfferNotification E a).
Proof.
  unfold sendOfferNotification, User_findOne, notification_body, String_trim,
         removeInvalidTokens, User_updateOne_pull.
  preserve.
Qed.

#[local] Hint Resolve sendOfferNotification_preserves : preserve.

Lemma handle_preserves r : preserves P (handle E r).
Proof.
  destruct r; unfold handle.
  - unfold post_notifications_token, User_findOneAndUpdate_tokens. preserve.
  - unfold post_notifications_offers. preserve.
  - unfold get_items, Item_find, Item_countDocuments, search_regex. preserve.
  - unfold delete_item, Item_findOneAndUpdate_soft_delete. preserve.
  - unfold post_offers, Offer_save, queueOfferNotificationForOffer,
           queueOfferNotification_try, User_findOne, Item_findOne.
    preserve.
Qed.

Lemma serve_preserves rs : forall w, P w -> P (serve E rs w).
Proof.
  induction rs as [|r rs IH]; intros w Hw; simpl; [exact Hw|].
  apply IH, handle_preserves, Hw.
Qed.

End HandlersPreserve.

Lemma getFirebaseMessaging_transport_inv E :
  preserves transport_inv (getFirebaseMessaging E).
Proof.
  intros w [Hle Hfm].
  unfold getFirebaseMessaging, initializeFirebaseMessaging.
  destruct (parseFirebaseCredential_uniform E) as (c & ls & Hparse).
  destruct w as [us its os fm apps ps cs dc ck]. simpl in Hle, Hfm.
  destruct fm; [now split|].
  unfold transport_inv. run_monad.
  destruct (Nat.eqb_spec apps 0) as [->|Hnz].
  - rewrite Hparse. simpl.
    destruct (json_truthy c); simpl; [|split; [lia | discriminate]].
    destruct (sdk_initializeApp E c); simpl; [split; [lia | discriminate]|].
    destruct (sdk_messaging E); simpl;
      (split; [lia | first [discriminate | reflexivity]]).
  - destruct (sdk_messaging E); simpl;
      (split; [lia | first [discriminate | intros _; lia]]).
Qed.

(** X1: [admin.initializeApp] succeeds at most once in the life of the
    process: started without an app, after any sequence of requests the SDK
    holds at most one app, and exactly one whenever the messaging handle is
    set. *)
Theorem initializeApp_at_most_once E requests w :
  admin_apps w = 0 -> firebaseMessaging w = false ->
  admin_apps (serve E requests w) <= 1 /\
  (firebaseMessaging (serve E requests w) = true ->
   admin_apps (serve E requests w) = 1).
Proof.
  intros Happs Hfm.
  apply (serve_preserves E transport_inv); try (now intros ? ? []).
  - apply getFirebaseMessaging_transport_inv.
  - split; [lia | congruence].
Qed.

Lemma initializeApp_at_most_once_witness :
  let E := Demo.env [] Demo.no_faults in
  let requests :=
    [PostOffers Demo.offer;
     PostNotificationsOffers (Demo.offer_notification VUndefined);
     PostNotificationsOffers (Demo.offer_notification VUndefined)] in
  (admin_apps Demo.world = 0 /\ firebaseMessaging Demo.world = false) /\
  firebaseMessaging (serve E requests Demo.world) = true /\
  admin_apps (serve E requests Demo.world) = 1.
Proof.
  intros E requests. split; [split; reflexivity|].
  split; [reflexivity|].
  exact (proj2 (initializeApp_at_most_once E requests Demo.world
                  eq_refl eq_refl) eq_refl).
Defined.

(** X2: the messaging handle is memoised: once it is set, it stays set
    through any sequence of requests, and [getFirebaseMessaging] returns it
    without reading the environment, calling the SDK or writing a log line,
    whatever the environment has become. *)
Theorem transport_is_memoised E E' requests w :
  firebaseMessaging w = true ->
  getFirebaseMessaging E' (serve E requests w) =
    (inl true, serve E requests w).
Proof.
  intros Hfm.
  assert (firebaseMessaging (serve E requests w) = true) as Hfm'.
  { apply (serve_preserves E (fun w => firebaseMessaging w = true));
      try (now intros ? ?); [|exact Hfm].
    intros w0 Hw0. unfold getFirebaseMessaging, bind, get. now rewrite Hw0. }
  unfold getFirebaseMessaging, bind, get. now rewrite Hfm'.
Qed.

Lemma transport_is_memoised_witness :
  let E := Demo.env [] Demo.no_faults in
  let w := snd (getFirebaseMessaging E Demo.world) in
  let requests := [PostOffers Demo.offer; DeleteItem (js "i1")] in
  firebaseMessaging w = true /\
  getFirebaseMessaging Demo.env_no_credential (serve E requests w) =
    (inl true, serve E requests w).
Proof.
  intros E w requests. split; [reflexivity|].
  exact (transport_is_memoised E Demo.env_no_credential requests w eq_refl).
Defined.

(** X3: [getFirebaseMessaging] never throws, whatever [JSON.parse] and the
    SDK do: it returns the handle or null, leaves the collections, the call
    log and the storage counter alone, only adds lines to the console, and
    never returns null without having logged why. *)
Theorem transport_errors_are_contained E w :
  exists b w' ls,
    getFirebaseMessaging E w = (inl b, w') /\
    firebaseMessaging w' = b /\ same_data w w' /\
    console w' = console w ++ ls /\
    (b = false -> ls <> []).
Proof.
  unfold getFirebaseMessaging, initializeFirebaseMessaging.
  destruct (parseFirebaseCredential_uniform E) as (c & ls0 & Hparse).
  destruct w as [us its os fm apps ps cs dc ck].
  destruct fm.
  { exists true, (mkWorld us its os true apps ps cs dc ck), [].
    rewrite app_nil_r. split_and!; try reflexivity; [now repeat split | discriminate]. }
  run_monad.
  destruct (Nat.eqb apps 0).
  - rewrite Hparse. simpl.
    destruct (json_truthy c); simpl.
    + destruct (sdk_initializeApp E c); simpl.
      * eexists false, _, (ls0 ++ [_]). rewrite app_assoc.
        split_and!; try reflexivity; [now repeat split | now destruct ls0].
      * destruct (sdk_messaging E); simpl.
        -- eexists false, _, ((ls0 ++ [_]) ++ [_]). rewrite !app_assoc.
           split_and!; try reflexivity; [now repeat split|].
           intros _ H. now apply app_eq_nil in H as [_ [=]].
        -- eexists true, _, (ls0 ++ [_]). rewrite app_assoc.
           split_and!; try reflexivity; [now repeat split | discriminate].
    + eexists false, _, (ls0 ++ [_]). rewrite app_assoc.
      split_and!; try reflexivity; [now repeat split | now destruct ls0].
  - destruct (sdk_messaging E); simpl.
    + eexists false, _, [_].
      split_and!; try reflexivity; [now repeat split | discriminate].
    + eexists true, _, []. rewrite app_nil_r.
      split_and!; try reflexivity; [now repeat split | discriminate].
Qed.

(** X4: a credential text that parses, as it is, to a falsy value (null,
    false, 0, the empty string) is taken as no credential: the base64 reading
    is not tried, the SDK is not called, the warning is logged and the
    transport stays uninitialised. *)
Theorem falsy_credential_is_no_credential E w raw c :
  firebaseMessaging w = false -> admin_apps w = 0 ->
  getRawFirebaseCredential E = Some raw -> raw <> [] ->
  JSON_parse E raw = inl c -> json_truthy c = false ->
  getFirebaseMessaging E w =
    (inl false, set_console (console w ++ [LogNotConfigured]) w).
Proof.
  intros Hfm Happs Hraw Hne Hparse Hfalsy.
  unfold getFirebaseMessaging, initializeFirebaseMessaging,
         parseFirebaseCredential.
  rewrite Hraw. destruct raw as [|u raw]; [done|].
  destruct w as [us its os fm apps ps cs dc ck]. simpl in Hfm, Happs.
  subst fm apps. run_monad. rewrite Hparse. simpl. now rewrite Hfalsy.
Qed.

Lemma falsy_credential_is_no_credential_witness :
  let parse s := if bool_decide (s = js "null") then inl JNull
                 else Demo.parse s in
  let decode (s : jsstring) := js "{}" in
  let E := mkEnv (Some (js "null")) None parse decode (fun _ => None) None
                 (Demo.provider []) Demo.no_faults (fun _ => None) in
  (JSON_parse E (js "null") = inl JNull /\
   JSON_parse E (base64_utf8 E (js "null")) = inl (JObject [])) /\
  getFirebaseMessaging E Demo.world =
    (inl false,
     set_console (console Demo.world ++ [LogNotConfigured]) Demo.world).
Proof.
  intros parse decode E. split; [split; reflexivity|].
  apply (falsy_credential_is_no_credential E Demo.world (js "null") JNull);
    first [reflexivity | discriminate].
Defined.

(** ** The data payload *)

Lemma coerce_idem v : coerce (coerce v) = coerce v.
Proof. now destruct v. Qed.

Lemma Number_toString_safe z :
  (Z.abs z < 2 ^ 53)%Z -> Number_toString z = decimal z.
Proof.
  intros Hz. unfold Number_toString, nearest_double.
  assert (Z.log2 (Z.abs z) - 52 <= 0)%Z as He.
  { destruct (Z.eq_dec (Z.abs z) 0%Z) as [->|Hnz]; [simpl; lia|].
    assert (Z.log2 (Z.abs z) < 53)%Z; [|lia].
    apply Z.log2_lt_pow2; lia. }
  apply Z.leb_le in He. rewrite He. reflexivity.
Qed.

(** X5: [buildDataPayload] keeps the keys of its argument and makes every
    value a string: a string stays as it is, null and undefined become the
    empty string, true and false become "true" and "false" (false is not
    taken for an absent value), and a number becomes the text [String]
    gives it, which is its decimal digits up to 2^53 and, from 1e21 on, the
    exponent form; applied to its own result it changes nothing. *)
Theorem buildDataPayload_normalises data :
  dom (buildDataPayload data) = dom data /\
  (forall key v, buildDataPayload data !! key = Some v -> exists s, v = VStr s) /\
  (forall key s, data !! key = Some (VStr s) ->
                 buildDataPayload data !! key = Some (VStr s)) /\
  (forall key v, data !! key = Some v -> v = VNull \/ v = VUndefined ->
                 buildDataPayload data !! key = Some (VStr [])) /\
  (forall key b, data !! key = Some (VBool b) ->
                 buildDataPayload data !! key =
                   Some (VStr (if b then js "true" else js "false"))) /\
  (forall key z, data !! key = Some (VNum z) ->
                 buildDataPayload data !! key = Some (VStr (Number_toString z)) /\
                 ((Z.abs z < 2 ^ 53)%Z -> Number_toString z = decimal z)) /\
  (Number_toString 7 = js "7" /\ Number_toString (-42) = js "-42" /\
   Number_toString (10 ^ 21 - 1) = js "1e+21" /\
   Number_toString (10 ^ 21) = js "1e+21" /\
   Number_toString (2 ^ 70) = js "1.1805916207174113e+21") /\
  (forall key, data !! key = None -> buildDataPayload data !! key = None) /\
  buildDataPayload (buildDataPayload data) = buildDataPayload data.
Proof.
  rewrite !buildDataPayload_fmap. split_and!.
  - apply dom_fmap_L.
  - intros key v. rewrite lookup_fmap.
    destruct (data !! key) as [x|]; [|discriminate].
    intros [= <-]. apply coerce_is_string.
  - intros key s H. now rewrite lookup_fmap, H.
  - intros key v H [-> | ->]; now rewrite lookup_fmap, H.
  - intros key b H. rewrite lookup_fmap, H. now destruct b.
  - intros key z H. split; [now rewrite lookup_fmap, H|].
    apply Number_toString_safe.
  - vm_compute. reflexivity.
  - vm_compute. reflexivity.
  - vm_compute. reflexivity.
  - vm_compute. reflexivity.
  - vm_compute. reflexivity.
  - intros key H. now rewrite lookup_fmap, H.
  - rewrite <- map_fmap_compose. apply map_fmap_ext. intros key v _.
    apply coerce_idem.
Qed.

Lemma buildDataPayload_normalises_witness :
  let data : gmap jsstring jsval :=
    <[js "offerId" := VNum 7]>
      (<[js "amount" := VNum (10 ^ 21)]>
         (<[js "note" := VNull]> (<[js "name" := VStr (js "Bob")]> ∅))) in
  map_to_list (buildDataPayload data) ≡ₚ
    [(js "offerId", VStr (js "7")); (js "amount", VStr (js "1e+21"));
     (js "note", VStr []); (js "name", VStr (js "Bob"))] /\
  buildDataPayload data !! js "name" = Some (VStr (js "Bob")) /\
  buildDataPayload data !! js "note" = Some (VStr []) /\
  buildDataPayload data !! js "offerId" = Some (VStr (decimal 7)).
Proof.
  intros data.
  destruct (buildDataPayload_normalises data)
    as (_ & _ & Hstr & Hnull & _ & Hnum & _).
  split_and!.
  - refine (bool_decide_unpack (_ ≡ₚ _) _). vm_compute. exact I.
  - apply Hstr. reflexivity.
  - apply (Hnull _ VNull); [reflexivity | now left].
  - destruct (Hnum (js "offerId") 7%Z eq_refl) as [Hsent Hsafe].
    rewrite Hsent, (Hsafe eq_refl). reflexivity.
Defined.

(** ** More on sending *)

Lemma forEach_responses_sublist batch rs : forall index,
  index + length rs <= length batch ->
  sublist (forEach_responses batch rs index []) (drop index batch).
Proof.
  induction rs as [|r rs IH]; intros index Hlen; simpl in *.
  - apply sublist_nil_l.
  - rewrite forEach_responses_app, collect_invalid_rejected.
    destruct (lookup_lt_is_Some_2 batch index) as [x Hx]; [lia|].
    rewrite (drop_S _ _ _ Hx), Hx. simpl.
    specialize (IH (S index) ltac:(lia)).
    destruct (token_rejected r); simpl.
    + now apply sublist_skip.
    + now apply sublist_cons.
Qed.

Lemma invalid_tokens_sublist batches rs :
  one_result_per_token batches rs ->
  sublist (concat (zip_with invalid_in batches rs)) (concat batches).
Proof.
  induction 1 as [|batch r batches rs Hlen _ IH]; simpl; [constructor|].
  apply sublist_app; [|exact IH].
  unfold invalid_in. rewrite <- (drop_0 batch) at 2.
  now apply forEach_responses_sublist.
Qed.

Lemma StronglySorted_lt_map_mono {A} (P : A -> Prop) (f g : A -> nat) l :
  Forall P l ->
  (forall a b, P a -> P b -> f a < f b -> g a < g b) ->
  StronglySorted lt (map f l) -> StronglySorted lt (map g l).
Proof.
  intros HP Hmono. induction HP as [|a l Ha HP IH]; simpl; intros Hs.
  - constructor.
  - apply StronglySorted_inv in Hs as [Hs Hall]. constructor; [now apply IH|].
    rewrite Forall_forall in Hall. rewrite Forall_forall in HP.
    rewrite Forall_forall. intros y Hy.
    apply list_elem_of_In, in_map_iff in Hy as (b & <- & Hb).
    apply list_elem_of_In in Hb. apply Hmono; [done | now apply HP |].
    apply Hall, list_elem_of_In, in_map, list_elem_of_In, Hb.
Qed.

Lemma StronglySorted_sublist {A} (R : A -> A -> Prop) l1 l2 :
  sublist l1 l2 -> StronglySorted R l2 -> StronglySorted R l1.
Proof.
  induction 1 as [|x l1 l2 Hsub IH|x l1 l2 Hsub IH]; intros Hs.
  - constructor.
  - apply StronglySorted_inv in Hs as [Hs Hall]. constructor; [now apply IH|].
    rewrite Forall_forall in *. intros y Hy. apply Hall.
    eapply elem_of_sublist; [exact Hy | exact Hsub].
  - apply StronglySorted_inv in Hs as [Hs _]. now apply IH.
Qed.

Lemma first_index_cons_ne t x l :
  t <> x -> first_index t (x :: l) = S (first_index t l).
Proof. intros H. simpl. now rewrite bool_decide_eq_false_2 by congruence. Qed.

Lemma first_index_cons_eq t l : first_index t (t :: l) = 0.
Proof. simpl. now rewrite bool_decide_eq_true_2. Qed.

Lemma lookup_first_index t l : t ∈ l -> l !! first_index t l = Some t.
Proof.
  induction l as [|x l IH]; [now rewrite elem_of_nil|].
  intros Hin. simpl. destruct (bool_decide_reflect (x = t)) as [->|Hne].
  - reflexivity.
  - apply elem_of_cons in Hin as [->|Hin]; [done|]. now apply IH.
Qed.

(** The insertion order of a [Set]: what [fold_left Set_add] appends is
    listed by first occurrence in the list it folds over. *)
Lemma fold_Set_add_first_index l : forall acc,
  exists new,
    fold_left Set_add l acc = acc ++ new /\
    Forall (fun t => t ∉ acc) new /\
    StronglySorted lt (map (fun t => first_index t l) new).
Proof.
  induction l as [|v l IH]; intros acc; simpl fold_left.
  - exists []. rewrite app_nil_r. repeat split; constructor.
  - unfold Set_add at 2. destruct (bool_decide_reflect (v ∈ acc)) as [Hin|Hin].
    + destruct (IH acc) as (new & Heq & Hnew & Hs).
      exists new. split; [exact Heq|]. split; [exact Hnew|].
      apply (StronglySorted_lt_map_mono (fun t => t ∉ acc)
               (fun t => first_index t l)); [exact Hnew | | exact Hs].
      intros a b Ha Hb Hlt.
      rewrite !first_index_cons_ne by (intros ->; contradiction). lia.
    + destruct (IH (acc ++ [v])) as (new & Heq & Hnew & Hs).
      exists (v :: new). split; [now rewrite Heq, <- app_assoc|].
      assert (Forall (fun t => t <> v) new) as Hne.
      { eapply Forall_impl; [exact Hnew|]. intros t Ht ->. apply Ht.
        apply elem_of_app. right. left. }
      split.
      * constructor; [exact Hin|]. eapply Forall_impl; [exact Hnew|].
        intros t Ht Hacc. apply Ht, elem_of_app. now left.
      * cbn [map]. constructor.
        -- apply (StronglySorted_lt_map_mono (fun t => t <> v)
                    (fun t => first_index t l)); [exact Hne | | exact Hs].
           intros a b Ha Hb Hlt. rewrite !first_index_cons_ne by done. lia.
        -- rewrite Forall_forall. intros y Hy.
           apply list_elem_of_In, in_map_iff in Hy as (b & <- & Hb).
           apply list_elem_of_In in Hb. rewrite Forall_forall in Hne.
           rewrite first_index_cons_eq, first_index_cons_ne by now apply Hne.
           lia.
Qed.

Lemma first_index_filter_mono l a b :
  truthy a = true -> truthy b = true ->
  first_index a (List.filter truthy l) < first_index b (List.filter truthy l) ->
  first_index a l < first_index b l.
Proof.
  intros Ha Hb. induction l as [|x l IH]; simpl List.filter; [simpl; lia|].
  destruct (truthy x) eqn:Hx.
  - simpl. destruct (bool_decide_reflect (x = a)) as [Hxa|Hxa];
      destruct (bool_decide_reflect (x = b)) as [Hxb|Hxb]; lia.
  - intros Hlt. apply IH in Hlt.
    rewrite !first_index_cons_ne by (intros ->; congruence). lia.
Qed.

Lemma uniqueTokens_first_index tokens :
  StronglySorted lt
    (map (fun t => first_index t tokens) (uniqueTokens_of tokens)).
Proof.
  unfold uniqueTokens_of, new_Set.
  destruct (fold_Set_add_first_index (List.filter truthy tokens) [])
    as (new & Heq & _ & Hs).
  simpl in Heq.
  assert (Forall (fun t => truthy t = true) new) as Htruthy.
  { rewrite Forall_forall. intros t Ht. rewrite <- Heq in Ht.
    apply elem_of_fold_Set_add in Ht as [Ht|Ht]; [now apply elem_of_nil in Ht|].
    now apply elem_of_filter_truthy in Ht. }
  rewrite Heq.
  apply (StronglySorted_lt_map_mono (fun t => truthy t = true)
           (fun t => first_index t (List.filter truthy tokens)));
    [exact Htruthy | | exact Hs].
  intros a b Ha Hb. now apply first_index_filter_mono.
Qed.

(** X6: when the provider answers every batch with at most one result per
    token, the tokens [sendPushNotification] reports as invalid are tokens of
    its input (truthy ones), none is reported twice, and they are listed in
    the order of their first occurrence in the input: the positions of
    their first occurrences there increase strictly along the report. *)
Theorem invalid_tokens_come_from_the_input
  E tokens notification data android w rs :
  let batches := batches_from (uniqueTokens_of tokens) 0 [] in
  configured E w ->
  provider_answers E (length (pushed w))
    (map (fun b => multicast_message b notification data android) batches)
    = Some rs ->
  one_result_per_token batches rs ->
  exists r,
    fst (sendPushNotification E tokens notification data android w) = inl r /\
    sublist (PushResult.invalidTokens r) (uniqueTokens_of tokens) /\
    NoDup (PushResult.invalidTokens r) /\
    (forall t, t ∈ PushResult.invalidTokens r ->
               t ∈ tokens /\ truthy t = true /\
               tokens !! first_index t tokens = Some t) /\
    StronglySorted lt
      (map (fun t => first_index t tokens) (PushResult.invalidTokens r)).
Proof.
  intros batches Hconf Hrs Hcontract.
  destruct (configured_run E w Hconf) as (w' & Hrun & _ & Hsame).
  rewrite sendPushNotification_unfold, Hrun.
  destruct Hsame as (_ & _ & _ & Hpushed & _). rewrite <- Hpushed in Hrs.
  rewrite (send_batches_answers E notification data android _ rs) by exact Hrs.
  eexists. split; [reflexivity|]. cbn [PushResult.invalidTokens app].
  assert (sublist (concat (zip_with invalid_in batches rs))
                  (uniqueTokens_of tokens)) as Hsub.
  { pose proof (invalid_tokens_sublist _ _ Hcontract) as H.
    unfold batches in H at 2. now rewrite concat_batches_from in H. }
  split; [exact Hsub|]. split; [|split].
  - eapply sublist_NoDup; [|exact Hsub]. apply NoDup_new_Set.
  - intros t Ht. apply (elem_of_sublist _ _ _ Ht) in Hsub as Hin.
    rename Hin into Ht'. clear Ht. rename Ht' into Ht.
    unfold uniqueTokens_of in Ht.
    rewrite elem_of_new_Set, elem_of_filter_truthy in Ht.
    destruct Ht as [Hin Htr]. split; [exact Hin|]. split; [exact Htr|].
    now apply lookup_first_index.
  - eapply StronglySorted_sublist;
      [exact (fmap_sublist _ _ _ Hsub) | apply uniqueTokens_first_index].
Qed.

Lemma invalid_tokens_come_from_the_input_witness :
  let E := Demo.env [Demo.tok 2; Demo.tok 9] Demo.no_faults in
  let tokens := [Demo.tok 2; Demo.tok 1; VNull; Demo.tok 2; Demo.tok 9] in
  let ok := SendResponse.mk true None in
  let ko := SendResponse.mk false (Some Demo.unregistered) in
  let rs := [BatchResponse.mk [ko; ok; ko] 1 2] in
  one_result_per_token (batches_from (uniqueTokens_of tokens) 0 []) rs /\
  exists r,
    fst (sendPushNotification E tokens Demo.notification ∅
                              AndroidOptions.empty Demo.world) = inl r /\
    sublist (PushResult.invalidTokens r) (uniqueTokens_of tokens) /\
    NoDup (PushResult.invalidTokens r) /\
    (forall t, t ∈ PushResult.invalidTokens r ->
               t ∈ tokens /\ truthy t = true /\
               tokens !! first_index t tokens = Some t) /\
    StronglySorted lt
      (map (fun t => first_index t tokens) (PushResult.invalidTokens r)).
Proof.
  intros E tokens ok ko rs.
  assert (one_result_per_token (batches_from (uniqueTokens_of tokens) 0 []) rs)
    as Hc.
  { unfold one_result_per_token.
    refine (bool_decide_unpack (Forall2 _ _ _) _). vm_compute. exact I. }
  split; [exact Hc|].
  apply (invalid_tokens_come_from_the_input E tokens Demo.notification ∅
           AndroidOptions.empty Demo.world rs); [reflexivity | | exact Hc].
  vm_compute. reflexivity.
Defined.

(** X7: a batch the provider rejects aborts [sendPushNotification]: the call
    throws the provider's error, the batches before it and the rejected one
    have been handed over, none after it is, and the counts of the batches
    already delivered are not returned. *)
Theorem rejected_batch_aborts_the_dispatch
  E tokens notification data android w pre batch post rs e :
  let message_of b := multicast_message b notification data android in
  configured E w ->
  batches_from (uniqueTokens_of tokens) 0 [] = pre ++ batch :: post ->
  provider_answers E (length (pushed w)) (map message_of pre) = Some rs ->
  sendEachForMulticast E (length (pushed w) + length pre) (message_of batch)
    = inr e ->
  fst (sendPushNotification E tokens notification data android w) = inr e /\
  pushed (snd (sendPushNotification E tokens notification data android w)) =
    pushed w ++ map message_of (pre ++ [batch]).
Proof.
  intros message_of Hconf Hbatches Hrs Hrej.
  destruct (configured_run E w Hconf) as (w' & Hrun & _ & Hsame).
  rewrite sendPushNotification_unfold, Hrun, Hbatches.
  destruct Hsame as (_ & _ & _ & Hpushed & _).
  rewrite <- Hpushed in Hrs, Hrej.
  rewrite (send_batches_rejected E notification data android pre batch post
             rs 0 0 [] w' e Hrs Hrej).
  simpl. now rewrite Hpushed.
Qed.

Lemma rejected_batch_aborts_the_dispatch_witness :
  let outage : exn := Error (js "messaging/internal-error") in
  let E := mkEnv (Some (js "{}")) None Demo.parse Demo.decode (fun _ => None)
                 None
                 (fun k m => if Nat.eqb k 1 then inr outage
                             else Demo.provider [] k m)
                 Demo.no_faults (fun _ => None) in
  let tokens := map Demo.tok (seq 1 1001) in
  let r := sendPushNotification E tokens Demo.notification ∅
                                AndroidOptions.empty Demo.world in
  map length (batches_from (uniqueTokens_of tokens) 0 []) = [500; 500; 1] /\
  fst r = inr outage /\
  map (fun m => length (MulticastMessage.tokens m)) (pushed (snd r)) = [500; 500].
Proof.
  intros outage E tokens r.
  pose (batches := batches_from (uniqueTokens_of tokens) 0 []).
  pose (pre := take 1 batches).
  pose (batch := default [] (batches !! 1)).
  pose (post := drop 2 batches).
  pose (message_of b := multicast_message b Demo.notification ∅
                                          AndroidOptions.empty).
  pose (rs := default [] (provider_answers E 0 (map message_of pre))).
  destruct (rejected_batch_aborts_the_dispatch E tokens Demo.notification ∅
              AndroidOptions.empty Demo.world pre batch post rs outage)
    as [Hfst Hpushed].
  - reflexivity.
  - vm_compute. reflexivity.
  - vm_compute. reflexivity.
  - vm_compute. reflexivity.
  - split; [vm_compute; reflexivity|].
    split; [exact Hfst|]. fold r in Hpushed. rewrite Hpushed.
    vm_compute. reflexivity.
Defined.

(** ** What a dispatch can change *)

Lemma pull_in_sublist bad ts : sublist (pull_in bad ts) ts.
Proof.
  unfold pull_in. induction ts as [|t ts IH]; simpl; [constructor|].
  destruct (negb _); [now apply sublist_skip | now apply sublist_cons].
Qed.

Lemma pruned_of_refl u : pruned_of u u.
Proof. unfold pruned_of. now split_and!. Qed.

Lemma pruned_of_pull_tokens bad now u : pruned_of u (pull_tokens bad now u).
Proof. unfold pruned_of. split_and!; try reflexivity. apply pull_in_sublist. Qed.

Lemma update_first_Forall2 {A} (R : A -> A -> Prop) p f l :
  (forall x, R x x) -> (forall x, R x (f x)) ->
  Forall2 R l (update_first p f l).
Proof.
  intros Hrefl Hf. induction l as [|x l IH]; simpl; [constructor|].
  destruct (p x); constructor; auto. now apply Forall_Forall2_diag, Forall_forall.
Qed.

Lemma update_first_no_match {A} (p : A -> bool) f l :
  List.find p l = None -> update_first p f l = l.
Proof.
  induction l as [|x l IH]; simpl; [done|].
  destruct (p x); [done|]. intros H. now rewrite IH.
Qed.

Ltac users_unchanged :=
  cbv zeta; simpl;
  split_and!; [congruence | congruence | congruence | left; congruence].

#[local] Opaque js.

(** The ways a dispatch can leave the world: up to the transport's state,
    the console, the call log and the storage counter, either as it was, or
    with the one pruning write applied. *)
Lemma sendOfferNotification_effect E a w :
  let r := sendOfferNotification E a w in
  items (snd r) = items w /\ offers (snd r) = offers w /\
  clock (snd r) = clock w /\
  (users (snd r) = users w \/
   exists p, fst r = inl (RPush p) /\ PushResult.invalidTokens p <> [] /\
             users (snd r) =
               update_first (user_has_id (OfferNotification.recipientUserId a))
                            (pull_tokens (PushResult.invalidTokens p) (clock w))
                            (users w)).
Proof.
  intros r. assert (r = sendOfferNotification E a w) as Hr by reflexivity.
  clearbody r.
  unfold sendOfferNotification, User_findOne, storage in Hr.
  unfold bind at 1 in Hr.
  destruct (db_fault E (db_calls w)) as [e|]; [subst r; users_unchanged|].
  cbn beta iota in Hr. cbn [users set_db_calls] in Hr.
  match type of Hr with
  | context [Nat.eqb (length ?l) 0] => destruct (Nat.eqb (length l) 0)
  end; [subst r; users_unchanged|].
  unfold bind at 1 in Hr.
  destruct (notification_body _ _ _) as [[body|e] w0] eqn:Hbody.
  2:{ apply notification_body_state in Hbody. subst w0 r. users_unchanged. }
  pose proof (notification_body_state _ _ _ _ _ Hbody). subst w0.
  unfold bind at 1 in Hr. rewrite sendPushNotification_unfold in Hr.
  destruct (getFirebaseMessaging_spec E (set_db_calls (S (db_calls w)) w))
    as (b & w1 & Hrun & _ & Hu & Hi & Ho & _ & _ & Hc).
  rewrite Hrun in Hr. simpl in Hu, Hi, Ho, Hc.
  destruct b; [|subst r; users_unchanged].
  match type of Hr with
  | context [send_batches E ?bs ?n ?d ?an 0 0 [] w1] =>
      destruct (send_batches_pushed E n d an bs 0 0 [] w1) as (k & _ & Hw & _);
      destruct (send_batches E bs n d an 0 0 [] w1) as [[p|e] w2]
  end; simpl in Hw; subst w2; [|subst r; users_unchanged].
  unfold bind in Hr.
  destruct (decide (PushResult.invalidTokens p = [])) as [Hnil|Hne].
  { rewrite Hnil in Hr. subst r. users_unchanged. }
  destruct (Nat.eqb_spec (length (PushResult.invalidTokens p)) 0) as [Hz|_].
  { now apply nil_length_inv in Hz. }
  cbn [negb] in Hr. rewrite removeInvalidTokens_spec in Hr by done.
  destruct (db_fault E _); subst r; [users_unchanged|].
  simpl. rewrite ?Hu, ?Hi, ?Ho, ?Hc.
  split_and!; try reflexivity. right. now exists p.
Qed.

#[local] Transparent js.

Lemma update_first_cases {A} (p : A -> bool) f l :
  update_first p f l = l \/
  exists before x after,
    l = before ++ x :: after /\ Forall (fun y => p y = false) before /\
    p x = true /\ update_first p f l = before ++ f x :: after.
Proof.
  induction l as [|x l IH]; simpl; [now left|].
  destruct (p x) eqn:Hx.
  - right. exists [], x, l. repeat split; [constructor | exact Hx].
  - destruct IH as [-> | (before & y & after & -> & Hb & Hy & ->)]; [now left|].
    right. exists (x :: before), y, after. repeat split; [|exact Hy].
    now constructor.
Qed.

(** X8: a dispatch never touches the items or the offers, and it changes at
    most one user document: the users are afterwards as they were, or the
    dispatch returned a push result that names invalid tokens and the first
    document with the recipient's id, and no other, has lost exactly those
    tokens from its flat set and has the time of the write as [updatedAt]
    (its other fields, the per-device map among them, are as before). So
    no document gains a token, and when the dispatch throws, skips, or
    names no invalid token, no user document changes. *)
Theorem dispatch_only_prunes E a w :
  let r := sendOfferNotification E a w in
  let recipient := user_has_id (OfferNotification.recipientUserId a) in
  items (snd r) = items w /\ offers (snd r) = offers w /\
  (users (snd r) = users w \/
   exists p before u after,
     fst r = inl (RPush p) /\ PushResult.invalidTokens p <> [] /\
     users w = before ++ u :: after /\
     Forall (fun v => recipient v = false) before /\ recipient u = true /\
     users (snd r) =
       before ++ pull_tokens (PushResult.invalidTokens p) (clock w) u :: after /\
     User.fcmTokens (pull_tokens (PushResult.invalidTokens p) (clock w) u) =
       List.filter (fun t => negb (bool_decide (t ∈ PushResult.invalidTokens p)))
                   (User.fcmTokens u) /\
     pruned_of u (pull_tokens (PushResult.invalidTokens p) (clock w) u)) /\
  Forall2 pruned_of (users w) (users (snd r)) /\
  ((forall p, fst r = inl (RPush p) -> PushResult.invalidTokens p = []) ->
   users (snd r) = users w).
Proof.
  intros r recipient. destruct (sendOfferNotification_effect E a w)
    as (Hi & Ho & _ & Hu). fold r in Hi, Ho, Hu.
  fold recipient in Hu.
  split_and!; [exact Hi | exact Ho | | |].
  - destruct Hu as [-> | (p & Hp & Hne & ->)]; [now left|].
    destruct (update_first_cases recipient
                (pull_tokens (PushResult.invalidTokens p) (clock w)) (users w))
      as [-> | (before & u & after & Hw & Hb & Hu & ->)]; [now left|].
    right. exists p, before, u, after.
    split_and!; try done. apply pruned_of_pull_tokens.
  - destruct Hu as [-> | (p & _ & _ & ->)].
    + apply Forall_Forall2_diag, Forall_forall. intros. apply pruned_of_refl.
    + apply update_first_Forall2;
        [apply pruned_of_refl | apply pruned_of_pull_tokens].
  - intros Hnone. destruct Hu as [-> | (p & Hp & Hne & _)]; [done|].
    now apply Hnone in Hp.
Qed.

Lemma dispatch_only_prunes_witness :
  let outage : exn := Error (js "messaging/internal-error") in
  let E := mkEnv (Some (js "{}")) None Demo.parse Demo.decode (fun _ => None)
                 None (fun k m => inr outage) Demo.no_faults (fun _ => None) in
  let a := Demo.offer_notification VUndefined in
  let E' := Demo.env [Demo.tok 2] Demo.no_faults in
  (fst (sendOfferNotification E a Demo.world) = inr outage /\
   users (snd (sendOfferNotification E a Demo.world)) = users Demo.world) /\
  (items (snd (sendOfferNotification E' a Demo.world)) = items Demo.world /\
   users (snd (sendOfferNotification E' a Demo.world)) =
     [pull_tokens [Demo.tok 2] 1000 (Demo.user "u1" [Demo.tok 1; Demo.tok 2]);
      Demo.user "u2" []] /\
   User.fcmTokens
     (pull_tokens [Demo.tok 2] 1000 (Demo.user "u1" [Demo.tok 1; Demo.tok 2]))
   = [Demo.tok 1]).
Proof.
  intros outage E a E'. split.
  - split; [reflexivity|].
    apply (dispatch_only_prunes E a Demo.world). intros p [=].
  - split; [apply (dispatch_only_prunes E' a Demo.world)|].
    split; vm_compute; reflexivity.
Defined.

(** ** Pruning *)

Lemma pull_in_absent bad ts :
  (forall t, t ∈ bad -> t ∉ ts) -> pull_in bad ts = ts.
Proof.
  intros Habs. unfold pull_in. induction ts as [|t ts IH]; simpl; [done|].
  rewrite bool_decide_eq_false_2.
  - simpl. f_equal. apply IH. intros x Hx Hin. apply (Habs x Hx). now right.
  - intros Hin. apply (Habs t Hin). now left.
Qed.

Lemma pull_in_comm a b ts : pull_in a (pull_in b ts) = pull_in b (pull_in a ts).
Proof.
  unfold pull_in. induction ts as [|t ts IH]; simpl; [done|].
  destruct (negb (bool_decide (t ∈ b))) eqn:Hb,
           (negb (bool_decide (t ∈ a))) eqn:Ha; simpl;
    rewrite ?Ha, ?Hb; now rewrite IH.
Qed.

Lemma pull_in_idem a ts : pull_in a (pull_in a ts) = pull_in a ts.
Proof.
  unfold pull_in. induction ts as [|t ts IH]; simpl; [done|].
  destruct (negb (bool_decide (t ∈ a))) eqn:Ha; simpl;
    rewrite ?Ha; now rewrite IH.
Qed.

Lemma update_first_twice {A} (p : A -> bool) f g l :
  (forall x, p (g x) = p x) ->
  update_first p f (update_first p g l) = update_first p (fun x => f (g x)) l.
Proof.
  intros Hp. induction l as [|x l IH]; simpl; [done|].
  destruct (p x) eqn:Hx; simpl.
  - now rewrite Hp, Hx.
  - now rewrite Hx, IH.
Qed.

Lemma update_first_ext {A} (p : A -> bool) f g l :
  (forall x, f x = g x) -> update_first p f l = update_first p g l.
Proof.
  intros H. induction l as [|x l IH]; simpl; [done|].
  destruct (p x); now rewrite ?H, ?IH.
Qed.

(** X9: pruning is silent where it has nothing to do: with an empty list it
    issues no storage operation at all; for a user that does not exist the
    write changes no document and logs nothing; and for tokens the user does
    not hold the token set stays as it is, only [updatedAt] is set. *)
Theorem pruning_nothing E userId invalid w :
  (invalid = [] -> removeInvalidTokens E userId invalid w = (inl tt, w)) /\
  (invalid <> [] -> db_fault E (db_calls w) = None ->
   List.find (user_has_id userId) (users w) = None ->
   removeInvalidTokens E userId invalid w =
     (inl tt, set_db_calls (S (db_calls w)) w)) /\
  (forall u,
     invalid <> [] -> db_fault E (db_calls w) = None ->
     List.find (user_has_id userId) (users w) = Some u ->
     (forall t, t ∈ invalid -> t ∉ User.fcmTokens u) ->
     exists u',
       List.find (user_has_id userId)
                 (users (snd (removeInvalidTokens E userId invalid w)))
         = Some u' /\
       User.fcmTokens u' = User.fcmTokens u /\
       User.updatedAt u' = clock w /\ pruned_of u u').
Proof.
  split_and!.
  - now intros ->.
  - intros Hne Hdb Hnone. rewrite removeInvalidTokens_spec, Hdb by done.
    rewrite update_first_no_match by done. now destruct w.
  - intros u Hne Hdb Hfind Habs.
    rewrite removeInvalidTokens_spec, Hdb by done.
    exists (pull_tokens invalid (clock w) u). split_and!.
    + cbn [snd users set_users set_db_calls].
      apply find_update_first; [exact Hfind|].
      apply find_some in Hfind as [_ Hp]. exact Hp.
    + now apply pull_in_absent.
    + reflexivity.
    + apply pruned_of_pull_tokens.
Qed.

Lemma pruning_nothing_witness :
  let E := Demo.env [] Demo.no_faults in
  removeInvalidTokens E (VStr (js "u1")) [] Demo.world = (inl tt, Demo.world) /\
  users (snd (removeInvalidTokens E (VStr (js "nobody")) [Demo.tok 1]
                                  Demo.world)) = users Demo.world /\
  (User.fcmTokens <$>
     List.find (user_has_id (VStr (js "u1")))
       (users (snd (removeInvalidTokens E (VStr (js "u1")) [Demo.tok 7]
                                        Demo.world))))
    = Some [Demo.tok 1; Demo.tok 2].
Proof.
  intros E.
  destruct (pruning_nothing E (VStr (js "u1")) [] Demo.world) as (H1 & _ & _).
  destruct (pruning_nothing E (VStr (js "nobody")) [Demo.tok 1] Demo.world)
    as (_ & H2 & _).
  destruct (pruning_nothing E (VStr (js "u1")) [Demo.tok 7] Demo.world)
    as (_ & _ & H3).
  split; [exact (H1 eq_refl)|]. split.
  - rewrite H2; [reflexivity | discriminate | reflexivity | reflexivity].
  - destruct (H3 (Demo.user "u1" [Demo.tok 1; Demo.tok 2]))
      as (u' & Hf & Ht & _); [discriminate | reflexivity | reflexivity | |].
    + intros t ->%list_elem_of_singleton.
      refine (bool_decide_unpack (_ ∉ _) _). vm_compute. exact I.
    + rewrite Hf. simpl. now rewrite Ht.
Defined.

(** X10: pruning is a subtraction: when the storage answers, two prunings of
    the same user leave the same world in either order, and pruning the same
    tokens a second time removes nothing more. *)
Theorem pruning_commutes E userId a b w :
  db_fault E (db_calls w) = None -> db_fault E (S (db_calls w)) = None ->
  let prune l w := snd (removeInvalidTokens E userId l w) in
  prune b (prune a w) = prune a (prune b w) /\
  users (prune a (prune a w)) = users (prune a w).
Proof.
  intros Hdb0 Hdb1 prune.
  assert (forall l w0, db_fault E (db_calls w0) = None ->
            prune l w0 =
            if decide (l = []) then w0
            else set_users (update_first (user_has_id userId)
                                         (pull_tokens l (clock w0)) (users w0))
                           (set_db_calls (S (db_calls w0)) w0)) as Hprune.
  { intros l w0 Hdb. unfold prune. destruct (decide (l = [])) as [->|Hne].
    - reflexivity.
    - now rewrite removeInvalidTokens_spec, Hdb. }
  assert (forall l, db_fault E (db_calls (prune l w)) = None) as Hdb'.
  { intros l. rewrite Hprune by done. now destruct (decide (l = [])). }
  split.
  - rewrite (Hprune b (prune a w)), (Hprune a (prune b w)) by apply Hdb'.
    rewrite !Hprune by done.
    destruct (decide (a = [])), (decide (b = [])); try reflexivity.
    cbn [users clock db_calls set_users set_db_calls].
    rewrite !update_first_twice by reflexivity.
    rewrite (update_first_ext _ _
               (fun x => pull_tokens a (clock w) (pull_tokens b (clock w) x)));
      [reflexivity|].
    intros u. unfold pull_tokens. simpl. now rewrite pull_in_comm.
  - rewrite (Hprune a (prune a w)) by apply Hdb'. rewrite !Hprune by done.
    destruct (decide (a = [])); [reflexivity|].
    cbn [users clock db_calls set_users set_db_calls].
    rewrite update_first_twice by reflexivity.
    apply update_first_ext. intros u. unfold pull_tokens. simpl.
    now rewrite pull_in_idem.
Qed.

Lemma pruning_commutes_witness :
  let E := Demo.env [] Demo.no_faults in
  let prune l w := snd (removeInvalidTokens E (VStr (js "u1")) l w) in
  prune [Demo.tok 2] (prune [Demo.tok 1; Demo.tok 5] Demo.world) =
  prune [Demo.tok 1; Demo.tok 5] (prune [Demo.tok 2] Demo.world) /\
  (User.fcmTokens <$>
     head (users (prune [Demo.tok 2] (prune [Demo.tok 1; Demo.tok 5] Demo.world))))
    = Some [].
Proof.
  intros E prune. split; [|reflexivity].
  exact (proj1 (pruning_commutes E (VStr (js "u1")) [Demo.tok 1; Demo.tok 5]
                  [Demo.tok 2] Demo.world eq_refl eq_refl)).
Defined.

(** X11: pruning clears the flat token set only: after a token registered
    under a device id has been pruned, the user's [deviceTokens] still maps
    that device to the pruned token. *)
Theorem pruning_keeps_the_device_entry E w u userId token deviceId :
  truthy userId = true -> truthy token = true -> truthy deviceId = true ->
  List.find (user_has_id userId) (users w) = Some u ->
  db_fault E (db_calls w) = None -> db_fault E (S (db_calls w)) = None ->
  let t := VStr (ToString token) in
  let w1 := snd (post_notifications_token E
                   (TokenBody.mk userId token deviceId) w) in
  let w2 := snd (removeInvalidTokens E userId [t] w1) in
  exists u2,
    List.find (user_has_id userId) (users w2) = Some u2 /\
    (t ∉ User.fcmTokens u2) /\
    ((t ∉ User.fcmTokens u) -> User.fcmTokens u2 = User.fcmTokens u) /\
    User.deviceTokens u2 !! ToString deviceId = Some (ToString token).
Proof.
  intros Hu Ht Hd Hfind Hdb0 Hdb1 t w1 w2.
  destruct (post_notifications_token_ok E (TokenBody.mk userId token deviceId)
              w u Hu Ht Hdb0 Hfind) as [Hrun Hfind1].
  cbn [TokenBody.userId] in Hrun, Hfind1.
  unfold w2, w1. rewrite Hrun. cbn [snd].
  rewrite removeInvalidTokens_spec by discriminate.
  cbn [db_calls set_users set_db_calls]. rewrite Hdb1.
  eexists. split_and!.
  - cbn [snd users set_users set_db_calls]. apply find_update_first.
    + exact Hfind1.
    + apply find_some in Hfind as [_ Hp]. exact Hp.
  - cbn [pull_tokens User.fcmTokens]. rewrite pull_in_spec.
    intros [_ Hnot]. apply Hnot. now left.
  - intros Habs.
    cbn [pull_tokens apply_TokenUpdate User.fcmTokens token_update
         addToSet_fcmTokens TokenBody.token].
    fold t. unfold addToSet. rewrite bool_decide_eq_false_2 by done.
    unfold pull_in. rewrite List.filter_app. simpl.
    rewrite bool_decide_eq_true_2 by now left. simpl. rewrite app_nil_r.
    apply (pull_in_absent [t]).
    intros x ->%list_elem_of_singleton. exact Habs.
  - cbn [pull_tokens apply_TokenUpdate User.deviceTokens token_update
         set_deviceTokens TokenBody.deviceId TokenBody.token].
    rewrite Hd. apply lookup_set_path.
Qed.

Lemma pruning_keeps_the_device_entry_witness :
  let E := Demo.env [] Demo.no_faults in
  let w1 := snd (post_notifications_token E
                   (TokenBody.mk (VStr (js "u1")) (Demo.tok 3)
                                 (VStr (js "D1"))) Demo.world) in
  let w2 := snd (removeInvalidTokens E (VStr (js "u1")) [Demo.tok 3] w1) in
  exists u2,
    List.find (user_has_id (VStr (js "u1"))) (users w2) = Some u2 /\
    (Demo.tok 3 ∉ User.fcmTokens u2) /\
    User.fcmTokens u2 = [Demo.tok 1; Demo.tok 2] /\
    User.deviceTokens u2 !! js "D1" = Some (js "t3").
Proof.
  intros E w1 w2.
  destruct (pruning_keeps_the_device_entry E Demo.world
              (Demo.user "u1" [Demo.tok 1; Demo.tok 2])
              (VStr (js "u1")) (Demo.tok 3) (VStr (js "D1"))
              eq_refl eq_refl eq_refl eq_refl eq_refl eq_refl)
    as (u2 & Hfind & Hnot & Hsame & Hdev).
  exists u2. split_and!; [exact Hfind | exact Hnot | | exact Hdev].
  apply Hsame. refine (bool_decide_unpack (_ ∉ _) _). vm_compute. exact I.
Defined.

(** ** More on token registration *)

Lemma User_findOneAndUpdate_tokens_cases E id p w :
  let w1 := set_db_calls (S (db_calls w)) w in
  User_findOneAndUpdate_tokens E id p w =
  match db_fault E (db_calls w) with
  | Some e => (inr e, w1)
  | None =>
      match List.find (user_has_id id) (users w) with
      | Some u =>
          (inl (Some (apply_TokenUpdate p u)),
           set_users (update_first (user_has_id id) (apply_TokenUpdate p)
                                   (users w)) w1)
      | None => (inl None, w1)
      end
  end.
Proof.
  unfold User_findOneAndUpdate_tokens, storage.
  destruct (db_fault E (db_calls w)); [reflexivity|].
  unfold ret, bind, get, modify; cbn [users set_db_calls];
    destruct (List.find _ (users w)); reflexivity.
Qed.

(** X12: the registration route always answers, and an answer other than
    200 means that no user document was written: 400, without any storage
    operation, when [userId] or [token] is missing; 404 when no user has the
    id, whatever the device id is; and, when the storage fails, 500 with a
    fixed text (the storage error goes to the log, not to the client). *)
Theorem registration_failures_write_nothing E b w :
  (exists response w',
     post_notifications_token E b w = (inl response, w') /\
     (status response <> 200 -> users w' = users w)) /\
  (truthy (TokenBody.userId b) = false \/ truthy (TokenBody.token b) = false ->
   post_notifications_token E b w =
     (inl (mkResponse 400 (BError (js "userId and token are required"))), w)) /\
  (truthy (TokenBody.userId b) = true -> truthy (TokenBody.token b) = true ->
   db_fault E (db_calls w) = None ->
   List.find (user_has_id (TokenBody.userId b)) (users w) = None ->
   post_notifications_token E b w =
     (inl (mkResponse 404 (BError (js "User not found"))),
      set_db_calls (S (db_calls w)) w)) /\
  (forall e,
     truthy (TokenBody.userId b) = true -> truthy (TokenBody.token b) = true ->
     db_fault E (db_calls w) = Some e ->
     post_notifications_token E b w =
       (inl (mkResponse 500 (BError (js "Failed to register device token"))),
        set_console (console w ++ [LogRegisterFailed e])
                    (set_db_calls (S (db_calls w)) w))).
Proof.
  split_and!.
  - unfold post_notifications_token.
    destruct (negb (truthy (TokenBody.userId b))
              || negb (truthy (TokenBody.token b))).
    { eexists _, w. split; reflexivity. }
    unfold try_catch, new_Date. unfold bind at 1. unfold bind at 1.
    unfold bind at 1. rewrite User_findOneAndUpdate_tokens_cases.
    destruct (db_fault E (db_calls w)).
    { eexists _, _. split; reflexivity. }
    destruct (List.find _ (users w)).
    + eexists _, _. split; [reflexivity|]. simpl. congruence.
    + eexists _, _. split; reflexivity.
  - intros H. unfold post_notifications_token.
    destruct H as [-> | ->]; simpl; [reflexivity|].
    now rewrite orb_true_r.
  - intros Hu Ht Hdb Hfind. unfold post_notifications_token.
    rewrite Hu, Ht. cbn [negb orb].
    unfold try_catch, new_Date. unfold bind at 1. unfold bind at 1.
    unfold bind at 1. rewrite User_findOneAndUpdate_tokens_cases, Hdb.
    now rewrite Hfind.
  - intros e Hu Ht Hdb. unfold post_notifications_token.
    rewrite Hu, Ht. cbn [negb orb].
    unfold try_catch, new_Date. unfold bind at 1. unfold bind at 1.
    unfold bind at 1. now rewrite User_findOneAndUpdate_tokens_cases, Hdb.
Qed.

Lemma registration_failures_write_nothing_witness :
  let E := Demo.env [] Demo.no_faults in
  let body u t := TokenBody.mk u t (VStr (js "a.b")) in
  post_notifications_token E (body (VStr (js "u1")) (VStr [])) Demo.world =
    (inl (mkResponse 400 (BError (js "userId and token are required"))),
     Demo.world) /\
  fst (post_notifications_token E (body (VStr (js "u9")) (Demo.tok 3))
                                Demo.world) =
    inl (mkResponse 404 (BError (js "User not found"))) /\
  post_notifications_token (Demo.env [] (Demo.fault_at 0))
                           (body (VStr (js "u1")) (Demo.tok 3)) Demo.world =
    (inl (mkResponse 500 (BError (js "Failed to register device token"))),
     set_console [LogRegisterFailed (Error (js "connection lost"))]
                 (set_db_calls 1 Demo.world)).
Proof.
  intros E body. split; [|split].
  - apply (proj1 (proj2 (registration_failures_write_nothing E
                           (body (VStr (js "u1")) (VStr [])) Demo.world))).
    now right.
  - erewrite (proj1 (proj2 (proj2 (registration_failures_write_nothing E
                (body (VStr (js "u9")) (Demo.tok 3)) Demo.world))));
      first [reflexivity | discriminate].
  - apply (proj2 (proj2 (proj2 (registration_failures_write_nothing
             (Demo.env [] (Demo.fault_at 0))
             (body (VStr (js "u1")) (Demo.tok 3)) Demo.world))));
      reflexivity.
Defined.

(** X13: a successful registration writes one user document and only adds
    to it: the documents before and after it in the collection, the items
    and the offers are untouched; in the document itself everything but
    [fcmTokens], [deviceTokens], [lastActive] and [updatedAt] is as before;
    every token it held is still there, in place; and the per-device map,
    read by path, holds the token at the device id and changes nowhere but
    at that path and below it, and not at all without a device id. The
    answer is 200 with the new token set. *)
Theorem registration_only_adds E b w u :
  truthy (TokenBody.userId b) = true ->
  truthy (TokenBody.token b) = true ->
  db_fault E (db_calls w) = None ->
  List.find (user_has_id (TokenBody.userId b)) (users w) = Some u ->
  let w' := snd (post_notifications_token E b w) in
  exists u' before after,
    fst (post_notifications_token E b w) =
      inl (mkResponse 200 (BTokens (User.fcmTokens u') (clock w)
                                   (js "Device token registered"))) /\
    users w = before ++ u :: after /\ users w' = before ++ u' :: after /\
    items w' = items w /\ offers w' = offers w /\
    (User.id u' = User.id u /\ User.name u' = User.name u /\
     User.email u' = User.email u /\
     User.profileImageUrl u' = User.profileImageUrl u /\
     User.tradeScore u' = User.tradeScore u /\ User.level u' = User.level u /\
     User.carbonSaved u' = User.carbonSaved u /\
     User.createdAt u' = User.createdAt u) /\
    (User.lastActive u' = clock w /\ User.updatedAt u' = clock w) /\
    User.fcmTokens u `prefix_of` User.fcmTokens u' /\
    VStr (ToString (TokenBody.token b)) ∈ User.fcmTokens u' /\
    (truthy (TokenBody.deviceId b) = true ->
     User.deviceTokens u' !! ToString (TokenBody.deviceId b) =
       Some (ToString (TokenBody.token b)) /\
     forall d, d <> ToString (TokenBody.deviceId b) ->
               below (ToString (TokenBody.deviceId b)) d = false ->
               User.deviceTokens u' !! d = User.deviceTokens u !! d) /\
    (truthy (TokenBody.deviceId b) = false ->
     User.deviceTokens u' = User.deviceTokens u).
Proof.
  intros Hu Ht Hdb Hfind w'.
  destruct (post_notifications_token_ok E b w u Hu Ht Hdb Hfind)
    as [Hrun _].
  destruct (update_first_split (user_has_id (TokenBody.userId b))
              (apply_TokenUpdate (token_update b (clock w))) (users w) u Hfind)
    as (before & after & H1 & H2 & _).
  exists (apply_TokenUpdate (token_update b (clock w)) u), before, after.
  unfold w'. rewrite Hrun.
  cbn [fst snd users items offers set_users set_db_calls].
  split_and!; try reflexivity; try assumption.
  - cbn [apply_TokenUpdate User.fcmTokens]. unfold addToSet.
    case_bool_decide; [reflexivity | now apply prefix_app_r].
  - cbn [apply_TokenUpdate User.fcmTokens token_update addToSet_fcmTokens].
    apply elem_of_addToSet. now right.
  - intros Hd. cbn [apply_TokenUpdate User.deviceTokens token_update
                    set_deviceTokens]. rewrite Hd.
    split; [apply lookup_set_path|].
    intros d Hne Hbelow. now apply lookup_set_path_ne.
  - intros Hd. cbn [apply_TokenUpdate User.deviceTokens token_update
                    set_deviceTokens]. now rewrite Hd.
Qed.

Lemma registration_only_adds_witness :
  let E := Demo.env [] Demo.no_faults in
  let b := TokenBody.mk (VStr (js "u2")) (Demo.tok 9) (VStr (js "a.b")) in
  let w' := snd (post_notifications_token E b Demo.world) in
  fst (post_notifications_token E b Demo.world) =
    inl (mkResponse 200 (BTokens [Demo.tok 9] 1000
                                 (js "Device token registered"))) /\
  exists u' before after,
    users Demo.world = before ++ Demo.user "u2" [] :: after /\
    users w' = before ++ u' :: after /\
    items w' = items Demo.world /\
    User.name u' = User.name (Demo.user "u2" []) /\
    Demo.tok 9 ∈ User.fcmTokens u' /\
    User.deviceTokens u' !! js "a.b" = Some (js "t9").
Proof.
  intros E b w'. split; [vm_compute; reflexivity|].
  destruct (registration_only_adds E b Demo.world (Demo.user "u2" []))
    as (u' & before & after & _ & H1 & H2 & Hi & _ & Hsame & _ & _ & Hin
        & Hdev & _);
    try reflexivity.
  exists u', before, after.
  split_and!; [exact H1 | exact H2 | exact Hi | | exact Hin |].
  - exact (proj1 (proj2 Hsame)).
  - exact (proj1 (Hdev eq_refl)).
Defined.

(** ** More on the offer notification route *)

(** What a dispatch returns tells how far it went: the no-tokens result
    only after a successful lookup that found no truthy token, and a push
    result only after one that found some. *)
Lemma sendOfferNotification_result E a w :
  match fst (sendOfferNotification E a w) with
  | inl (RSkip r) =>
      r = SkipResult.mk true (js "no_tokens") /\
      db_fault E (db_calls w) = None /\ recipient_tokens a w = []
  | inl (RPush _) =>
      db_fault E (db_calls w) = None /\ recipient_tokens a w <> []
  | inr _ => True
  end.
Proof.
  unfold sendOfferNotification, User_findOne, storage.
  unfold bind at 1.
  destruct (db_fault E (db_calls w)) as [e|]; [exact I|].
  cbn beta iota. cbn [users set_db_calls].
  fold (recipient_of a w). fold (recipient_tokens a w).
  destruct (Nat.eqb_spec (length (recipient_tokens a w)) 0) as [Hz|Hnz].
  { apply nil_length_inv in Hz. now split_and!. }
  assert (recipient_tokens a w <> []) as Hne by (now intros Hnil; rewrite Hnil in Hnz).
  unfold bind at 1.
  destruct (notification_body _ _ _) as [[body|e] w0]; [|exact I].
  unfold bind at 1.
  destruct (sendPushNotification _ _ _ _ _ _) as [[p|e] w1]; [|exact I].
  unfold bind.
  match goal with
  | |- context [(if ?c then ?x else ?y) w1] =>
      destruct ((if c then x else y) w1) as [[[]|e] w2]
  end; [|exact I].
  now split.
Qed.

(** X14: [POST /api/v1/notifications/offers] always answers. The status is
    400 exactly when one of [offerId], [recipientUserId], [senderUserId],
    [senderName] is falsy, and then nothing at all has been done; it is 404
    exactly when the fields are there, the lookup succeeded and the
    recipient has no truthy token; a 200 carries a push result, with the
    text chosen by its [successCount]; every other answer carries one of
    four fixed texts, never the text of the error; and the items and the
    offers are never written. *)
Theorem offer_route_answers E b w :
  let valid :=
    truthy (OfferNotification.offerId b)
    && truthy (OfferNotification.recipientUserId b)
    && truthy (OfferNotification.senderUserId b)
    && truthy (OfferNotification.senderName b) in
  exists response w',
    post_notifications_offers E b w = (inl response, w') /\
    (status response = 400 <-> valid = false) /\
    (valid = false -> w' = w) /\
    (status response = 404 <->
     valid = true /\ db_fault E (db_calls w) = None /\
     recipient_tokens b w = []) /\
    (status response = 200 ->
     recipient_tokens b w <> [] /\
     exists r,
       body response =
         BPush r (if Nat.eqb (PushResult.successCount r) 0
                  then js "No valid device tokens available"
                  else js "Notification dispatched")) /\
    (status response <> 200 ->
     exists text,
       body response = BError text /\
       text ∈ [js "offerId, recipientUserId, senderUserId and senderName are required";
               js "Recipient has no registered notification tokens";
               js "Push notifications not configured on the server";
               js "Failed to send offer notification"]) /\
    items w' = items w /\ offers w' = offers w.
Proof.
  intros valid. unfold post_notifications_offers, try_catch.
  assert (negb (truthy (OfferNotification.offerId b))
          || negb (truthy (OfferNotification.recipientUserId b))
          || negb (truthy (OfferNotification.senderUserId b))
          || negb (truthy (OfferNotification.senderName b)) = negb valid)
    as -> by (unfold valid; repeat destruct (truthy _); reflexivity).
  destruct valid.
  2:{ eexists _, _. split; [reflexivity|]. cbn [status body negb].
      split_and!; try done.
      - split; [discriminate | now intros [? _]].
      - intros _. eexists. split; [reflexivity|]. now left. }
  cbn [negb]. unfold bind.
  pose proof (sendOfferNotification_result E b w) as Hres.
  destruct (sendOfferNotification_effect E b w) as (Hi & Ho & _).
  destruct (sendOfferNotification E b w) as [[[r|p]|e] w1] eqn:Hrun;
    simpl in Hres, Hi, Ho.
  - destruct Hres as (-> & Hdb & Htok). cbn [SkipResult.skipped].
    eexists _, _. split; [reflexivity|]. cbn [status body].
    split_and!; [split; discriminate | discriminate | done | discriminate
                | | exact Hi | exact Ho].
    intros _. eexists. split; [reflexivity|]. right. now left.
  - destruct Hres as (Hdb & Htok).
    eexists _, _. split; [reflexivity|]. cbn [status body].
    split_and!; [split; discriminate | discriminate
                | split; [discriminate | now intros (_ & _ & Hnil)]
                | | done | exact Hi | exact Ho].
    intros _. split; [exact Htok|]. now eexists.
  - assert (~ (true = true /\ db_fault E (db_calls w) = None /\
               recipient_tokens b w = [])) as Hnot.
    { intros (_ & Hdb & Hnil).
      rewrite (sendOfferNotification_skip E b w Hdb Hnil) in Hrun.
      discriminate Hrun. }
    case_bool_decide.
    + eexists _, _. split; [reflexivity|]. cbn [status body].
      split_and!; [split; discriminate | discriminate
                  | split; [discriminate | now intros Hyes]
                  | discriminate | | exact Hi | exact Ho].
      intros _. eexists. split; [reflexivity|]. right. right. now left.
    + eexists _, _. split; [reflexivity|]. cbn [status body].
      split_and!; [split; discriminate | discriminate
                  | split; [discriminate | now intros Hyes]
                  | discriminate | | exact Hi | exact Ho].
      intros _. eexists. split; [reflexivity|]. right. right. right. now left.
Qed.

(** X15: a [message] that is truthy but not a string (a number, [true])
    makes [message.trim()] throw once the recipient is known to have
    tokens: the route answers 500 with its fixed text, the error goes to the
    log, the transport is not consulted (so the answer is 500 and not 503
    also on a server without credentials) and nothing is handed to the
    provider. *)
Theorem non_text_message_fails E b w :
  truthy (OfferNotification.offerId b) = true ->
  truthy (OfferNotification.recipientUserId b) = true ->
  truthy (OfferNotification.senderUserId b) = true ->
  truthy (OfferNotification.senderName b) = true ->
  db_fault E (db_calls w) = None ->
  recipient_tokens b w <> [] ->
  truthy (OfferNotification.message b) = true ->
  (forall s, OfferNotification.message b <> VStr s) ->
  post_notifications_offers E b w =
    (inl (mkResponse 500 (BError (js "Failed to send offer notification"))),
     set_console
       (console w ++ [LogSendFailed (Error (js "message.trim is not a function"))])
       (set_db_calls (S (db_calls w)) w)).
Proof.
  intros H1 H2 H3 H4 Hdb Htok Hm Hs.
  unfold post_notifications_offers, try_catch. rewrite H1, H2, H3, H4.
  cbn [negb orb]. unfold bind at 1.
  unfold sendOfferNotification, User_findOne. unfold bind at 1.
  rewrite storage_ok by done. cbn beta iota. cbn [fst snd users set_db_calls].
  fold (recipient_of b w). fold (recipient_tokens b w).
  destruct (Nat.eqb_spec (length (recipient_tokens b w)) 0) as [Hz|_].
  { now apply nil_length_inv in Hz. }
  unfold bind at 1, notification_body. rewrite Hm. unfold bind at 1.
  destruct (OfferNotification.message b) as [| |t|z|s] eqn:Hmsg;
    try discriminate Hm; try (now destruct (Hs s)); reflexivity.
Qed.

Lemma non_text_message_fails_witness :
  let b := Demo.offer_notification (VNum 5) in
  post_notifications_offers Demo.env_no_credential b Demo.world =
    (inl (mkResponse 500 (BError (js "Failed to send offer notification"))),
     set_console
       [LogSendFailed (Error (js "message.trim is not a function"))]
       (set_db_calls 1 Demo.world)) /\
  post_notifications_offers Demo.env_no_credential
                            (Demo.offer_notification (VStr (js "5")))
                            Demo.world =
    (inl (mkResponse 503
            (BError (js "Push notifications not configured on the server"))),
     set_console [LogNotConfigured] (set_db_calls 1 Demo.world)).
Proof.
  intros b. split; [|vm_compute; reflexivity].
  apply (non_text_message_fails Demo.env_no_credential b Demo.world);
    try reflexivity.
  - vm_compute. discriminate.
  - intros s. discriminate.
Defined.

(** ** The items listing *)

Lemma search_regex_query E q w :
  search_regex E q w =
  (match query_regex E q with
   | Some re => inl re
   | None => inr (Error (js "Regular expression is invalid"))
   end, w).
Proof.
  unfold search_regex, query_regex.
  destruct (env_truthy _); [|reflexivity].
  now destruct (regex_i E _).
Qed.

(** The five ways a listing request can go. *)
Lemma get_items_cases E q w :
  let page := default 1%Z (ItemsQuery.page q) in
  let limit := default 20%Z (ItemsQuery.limit q) in
  let skip := ((page - 1) * limit)%Z in
  let w1 := set_db_calls (S (db_calls w)) w in
  let w2 := set_db_calls (S (S (db_calls w))) w in
  let failed text w' := (inl (mkResponse 500 (BError text)), w') in
  get_items E q w =
  match db_fault E (db_calls w) with
  | Some e => failed (message e) w1
  | None =>
      match query_regex E q with
      | None => failed (js "Regular expression is invalid") w1
      | Some re =>
          if Z.ltb skip 0 then failed (js "Skip value must be non-negative") w1
          else
            match db_fault E (S (db_calls w)) with
            | Some e => failed (message e) w2
            | None =>
                let found := List.filter (items_filter q re) (items w) in
                let skipped := drop (Z.to_nat skip) (sort_createdAt_desc found) in
                let total := Z.of_nat (length found) in
                (inl (mkResponse 200
                        (BItems (if Z.eqb limit 0 then skipped
                                 else take (Z.abs_nat limit) skipped)
                                (Pagination.mk page limit total
                                               (ceil_div total limit)))),
                 w2)
            end
      end
  end.
Proof.
  intros page limit skip w1 w2 failed.
  unfold get_items, try_catch. unfold bind at 1.
  unfold Item_find, storage.
  destruct (db_fault E (db_calls w)) as [e|]; [reflexivity|].
  unfold bind at 1. rewrite search_regex_query.
  destruct (query_regex E q) as [re|] eqn:Hre; [|reflexivity].
  fold page limit. rewrite Z.mul_1_r. fold skip.
  destruct (Z.ltb skip 0); [reflexivity|].
  unfold bind at 1, get, ret. cbn [fst snd].
  unfold bind at 1, Item_countDocuments, storage. cbn [db_calls set_db_calls].
  destruct (db_fault E (S (db_calls w))) as [e|]; [reflexivity|].
  unfold bind at 1. rewrite search_regex_query, Hre.
  reflexivity.
Qed.

Lemma insert_desc_perm i l : insert_desc i l ≡ₚ i :: l.
Proof.
  induction l as [|j l IH]; simpl; [reflexivity|].
  destruct (Z.leb _ _); [reflexivity|].
  rewrite IH. apply perm_swap.
Qed.

Lemma sort_createdAt_desc_perm l : sort_createdAt_desc l ≡ₚ l.
Proof.
  induction l as [|i l IH]; simpl; [reflexivity|].
  now rewrite insert_desc_perm, IH.
Qed.

Lemma insert_desc_newest_first i l :
  newest_first l -> newest_first (insert_desc i l).
Proof.
  unfold newest_first. induction 1 as [|j l Hl IH Hj]; simpl.
  - repeat constructor.
  - destruct (Z.leb_spec (Item.createdAt j) (Item.createdAt i)) as [Hle|Hlt].
    + constructor; [now constructor|].
      constructor; [exact Hle|].
      eapply Forall_impl; [exact Hj|]. simpl. intros x Hx. lia.
    + constructor; [exact IH|].
      apply (insert_desc_Forall
               (fun x => (Item.createdAt x <= Item.createdAt j)%Z));
        [lia | exact Hj].
Qed.

Lemma sort_createdAt_desc_newest_first l :
  newest_first (sort_createdAt_desc l).
Proof.
  induction l as [|i l IH]; simpl; [constructor|].
  now apply insert_desc_newest_first.
Qed.


(** The page a successful listing answers with is a window of the whole
    listing. *)
Lemma get_items_window E q w data pagination w' :
  get_items E q w = (inl (mkResponse 200 (BItems data pagination)), w') ->
  let page := default 1%Z (ItemsQuery.page q) in
  let limit := default 20%Z (ItemsQuery.limit q) in
  let skipped := drop (Z.to_nat ((page - 1) * limit)) (listing E q w) in
  (0 <= (page - 1) * limit)%Z /\
  data = (if Z.eqb limit 0 then skipped else take (Z.abs_nat limit) skipped) /\
  pagination =
    Pagination.mk page limit (Z.of_nat (length (listing E q w)))
                  (ceil_div (Z.of_nat (length (listing E q w))) limit) /\
  w' = set_db_calls (S (S (db_calls w))) w /\
  exists re, query_regex E q = Some re.
Proof.
  rewrite get_items_cases. cbv zeta. unfold listing.
  destruct (db_fault E (db_calls w)); [discriminate|].
  destruct (query_regex E q) as [re|]; [|discriminate].
  destruct (Z.ltb_spec ((default 1%Z (ItemsQuery.page q) - 1)
                        * default 20%Z (ItemsQuery.limit q)) 0);
    [discriminate|].
  destruct (db_fault E (S (db_calls w))); [discriminate|].
  rewrite (Permutation_length (sort_createdAt_desc_perm _)).
  intros [= <- <- <-]. split_and!; try done. now exists re.
Qed.

(** X16: every item of a listing's page is a document of the collection
    that meets the whole query: it is available, of the given category, of
    the given owner, and its name or its description matches the search
    pattern (an empty parameter counts as absent); [total] counts all the
    items the query selects, not those of the page; and a listing writes
    nothing. *)
Theorem listing_matches_the_query E q w data pagination w' :
  get_items E q w = (inl (mkResponse 200 (BItems data pagination)), w') ->
  (forall x, x ∈ data ->
     x ∈ items w /\ Item.isAvailable x = true /\
     (forall c, ItemsQuery.category q = Some c -> c <> [] ->
                Item.category x = c) /\
     (forall o, ItemsQuery.ownerId q = Some o -> o <> [] ->
                Item.ownerId x = o) /\
     (forall s, ItemsQuery.search q = Some s -> s <> [] ->
        exists re, regex_i E s = Some re /\
                   (re (Item.name x) = true \/ re (Item.description x) = true))) /\
  (forall x, x ∈ listing E q w <-> x ∈ items w /\
     exists re, query_regex E q = Some re /\ items_filter q re x = true) /\
  Pagination.total pagination = Z.of_nat (length (listing E q w)) /\
  length data <= length (listing E q w) /\
  users w' = users w /\ items w' = items w /\ offers w' = offers w /\
  pushed w' = pushed w.
Proof.
  intros Hrun.
  destruct (get_items_window E q w data pagination w' Hrun)
    as (_ & Hdata & -> & -> & re & Hre).
  assert (forall x, x ∈ listing E q w <-> x ∈ items w /\
            exists re, query_regex E q = Some re /\ items_filter q re x = true)
    as Hlist.
  { intros x. unfold listing. rewrite Hre.
    rewrite sort_createdAt_desc_perm, !list_elem_of_In, filter_In.
    split; [intros [? ?]; split; [done | now exists re]|].
    intros [? (re' & [= <-] & ?)]. now split. }
  assert (sublist data (listing E q w)) as Hsub.
  { rewrite Hdata. destruct (Z.eqb _ 0).
    - apply sublist_drop.
    - etransitivity; [apply sublist_take | apply sublist_drop]. }
  split_and!; try reflexivity; [|exact Hlist | now apply sublist_length].
  intros x Hx. eapply elem_of_sublist in Hx; [|exact Hsub].
  apply Hlist in Hx as [Hin (re' & Hre' & Hf)].
  rewrite Hre in Hre'. injection Hre' as <-.
  unfold items_filter in Hf.
  apply andb_prop in Hf as [Hf Ho]. apply andb_prop in Hf as [Hf Hs].
  apply andb_prop in Hf as [Ha Hc].
  split_and!; [exact Hin | exact Ha | | |].
  - intros c Hq Hne. rewrite Hq in Hc. destruct c; [done|].
    simpl in Hc. now apply bool_decide_eq_true in Hc.
  - intros o Hq Hne. rewrite Hq in Ho. destruct o; [done|].
    simpl in Ho. now apply bool_decide_eq_true in Ho.
  - intros s Hq Hne. unfold query_regex in Hre. rewrite Hq in Hs, Hre.
    destruct s; [done|]. simpl in Hs, Hre.
    exists re. split; [exact Hre|]. now apply orb_prop.
Qed.

Lemma listing_matches_the_query_witness :
  let E := Demo.env [] Demo.no_faults in
  let q := ItemsQuery.mk None None (Some (js "Music")) (Some (js "guitar"))
                         (Some (js "u1")) in
  let w := set_items [Demo.item "i1" true 5; Demo.item "i2" false 7;
                      Demo.item "i3" true 9] Demo.world in
  data_of (get_items E q w) = [Demo.item "i3" true 9; Demo.item "i1" true 5] /\
  forall x, x ∈ data_of (get_items E q w) ->
            x ∈ items w /\ Item.isAvailable x = true.
Proof.
  intros E q w. split; [vm_compute; reflexivity|].
  intros x Hx.
  destruct (get_items E q w) as [[[s [e|o|i|data pagination|t r m|p m|k m]]|e] w']
    eqn:Hrun; try (vm_compute in Hrun; discriminate Hrun).
  assert (s = 200) as -> by (vm_compute in Hrun; now injection Hrun as <-).
  destruct (listing_matches_the_query E q w data pagination w' Hrun)
    as (Hall & _).
  destruct (Hall x Hx) as (Hin & Ha & _). now split.
Defined.



Lemma pages_concat {A} (l : list A) (L P : nat) :
  length l <= P * L ->
  concat (map (fun p => take L (drop ((p - 1) * L) l)) (seq 1 P)) = l.
Proof.
  revert l. induction P as [|P IH]; intros l Hlen.
  - simpl in *. symmetry. now apply nil_length_inv, Nat.le_0_r.
  - cbn [seq map concat]. rewrite <- seq_shift, map_map.
    change ((1 - 1) * L) with 0. rewrite drop_0.
    transitivity (take L l ++ drop L l); [|apply take_drop]. f_equal.
    rewrite <- (IH (drop L l)) by (rewrite length_drop; lia).
    f_equal. apply map_ext_in. intros p Hp%in_seq.
    rewrite drop_drop. do 2 f_equal. destruct p; simpl; lia.
Qed.

Lemma listing_selected E q w :
  listing E q w = sort_createdAt_desc (selected E q w).
Proof. unfold listing, selected. now destruct (query_regex E q). Qed.

(** Items with pairwise distinct [createdAt] have one newest-first order. *)
Lemma newest_first_unique l1 : forall l2,
  NoDup (map Item.createdAt l1) -> l1 ≡ₚ l2 ->
  newest_first l1 -> newest_first l2 -> l1 = l2.
Proof.
  induction l1 as [|a l1 IH]; intros l2 Hnd Hperm Hs1 Hs2.
  - now apply Permutation_nil_l in Hperm.
  - destruct l2 as [|b l2]; [now apply Permutation_nil_r in Hperm|].
    apply StronglySorted_inv in Hs1 as [Hs1 Ha].
    apply StronglySorted_inv in Hs2 as [Hs2 Hb].
    apply NoDup_cons in Hnd as [Hnotin Hnd].
    rewrite Forall_forall in Ha. rewrite Forall_forall in Hb.
    assert (a = b) as <-.
    { assert (a ∈ b :: l2) as Ha2 by (rewrite <- Hperm; left).
      assert (b ∈ a :: l1) as Hb1 by (rewrite Hperm; left).
      apply elem_of_cons in Ha2 as [|Ha2]; [done|].
      apply elem_of_cons in Hb1 as [|Hb1]; [done|]. exfalso.
      apply Hb in Ha2. apply Ha in Hb1 as Hle.
      apply Hnotin. assert (Item.createdAt a = Item.createdAt b) as -> by lia.
      change (Item.createdAt b ∈ map Item.createdAt l1).
      apply list_elem_of_In, in_map, list_elem_of_In, Hb1. }
    f_equal. apply IH; try done. eapply Permutation_cons_inv, Hperm.
Qed.

(** X18: for a query whose selected items have pairwise distinct
    [createdAt] (so that newest first is one order, whatever the store does
    among equal dates) and a positive [limit], the pages 1, 2, ...,
    [pagination.pages] put end to end are the whole listing, each item
    once: page [p] is the items from position [(p - 1) * limit] on, at most
    [limit] of them, [total] and [pages] are the same on every page, and a
    page is empty exactly when its number is beyond [pages]. Each page is a
    request of its own, made in any state of the server that holds the same
    items. *)
Theorem pages_partition_the_listing E q w (ws : nat -> World) :
  let limit := default 20%Z (ItemsQuery.limit q) in
  (0 < limit)%Z ->
  query_regex E q <> None ->
  NoDup (map Item.createdAt (selected E q w)) ->
  (forall p, items (ws p) = items w /\
             db_fault E (db_calls (ws p)) = None /\
             db_fault E (S (db_calls (ws p))) = None) ->
  (forall l, l ≡ₚ selected E q w -> newest_first l -> l = listing E q w) /\
  exists pages : nat,
    (forall p, 1 <= p ->
       exists data pagination,
         fst (get_items E (at_page (Z.of_nat p) q) (ws p)) =
           inl (mkResponse 200 (BItems data pagination)) /\
         data = take (Z.to_nat limit)
                     (drop ((p - 1) * Z.to_nat limit) (listing E q w)) /\
         Pagination.total pagination = Z.of_nat (length (selected E q w)) /\
         Pagination.pages pagination = Some (Z.of_nat pages) /\
         length data <= Z.to_nat limit /\
         (data = [] <-> pages < p)) /\
    concat (map (fun p => data_of (get_items E (at_page (Z.of_nat p) q) (ws p)))
                (seq 1 pages)) = listing E q w.
Proof.
  intros limit Hpos Hre Hdistinct Hws.
  split.
  { intros l Hperm Hsorted. rewrite listing_selected.
    apply newest_first_unique; [| |exact Hsorted|].
    - now rewrite Hperm.
    - now rewrite Hperm, sort_createdAt_desc_perm.
    - apply sort_createdAt_desc_newest_first. }
  clear Hdistinct.
  assert (length (selected E q w) = length (listing E q w)) as Hsel.
  { rewrite listing_selected. symmetry.
    apply Permutation_length, sort_createdAt_desc_perm. }
  rewrite Hsel. clear Hsel.
  destruct (query_regex E q) as [re|] eqn:Hq; [clear Hre|done].
  set (all := listing E q w).
  set (L := Z.to_nat limit).
  set (total := Z.of_nat (length all)).
  set (d := (- total / limit)%Z).
  assert (limit * d <= - total < limit * (d + 1))%Z as Hd.
  { split; [now apply Z.mul_div_le | now apply Z.mul_succ_div_gt]. }
  assert (d <= 0)%Z as Hd0 by (unfold total in *; nia).
  exists (Z.to_nat (- d)).
  assert (length all <= Z.to_nat (- d) * L) as Hfits
    by (unfold total, L in *; nia).
  assert (forall p, 1 <= p ->
            get_items E (at_page (Z.of_nat p) q) (ws p) =
            (inl (mkResponse 200
                    (BItems (take L (drop ((p - 1) * L) all))
                       (Pagination.mk (Z.of_nat p) limit total
                                      (Some (Z.of_nat (Z.to_nat (- d))))))),
             set_db_calls (S (S (db_calls (ws p)))) (ws p))) as Hrun.
  { intros p Hp. destruct (Hws p) as (Hitems & Hdb1 & Hdb2).
    rewrite get_items_cases. cbv zeta.
    rewrite Hdb1, Hdb2.
    change (query_regex E (at_page (Z.of_nat p) q)) with (query_regex E q).
    rewrite Hq.
    change (default 1%Z (ItemsQuery.page (at_page (Z.of_nat p) q)))
      with (Z.of_nat p).
    change (default 20%Z (ItemsQuery.limit (at_page (Z.of_nat p) q)))
      with limit.
    destruct (Z.ltb_spec ((Z.of_nat p - 1) * limit) 0) as [Hneg|_]; [nia|].
    destruct (Z.eqb_spec limit 0) as [Hz|_]; [lia|].
    change (items_filter (at_page (Z.of_nat p) q)) with (items_filter q).
    rewrite Hitems.
    rewrite <- (Permutation_length
                  (sort_createdAt_desc_perm
                     (List.filter (items_filter q re) (items w)))).
    assert (sort_createdAt_desc (List.filter (items_filter q re) (items w)) = all)
      as -> by (unfold all, listing; now rewrite Hq).
    fold total.
    assert (Z.to_nat ((Z.of_nat p - 1) * limit) = (p - 1) * L) as ->
      by (unfold L; nia).
    assert (Z.abs_nat limit = L) as -> by (unfold L; lia).
    unfold ceil_div.
    destruct (Z.eqb_spec limit 0) as [Hz|_]; [lia|].
    fold d. now rewrite Z2Nat.id by lia. }
  split.
  - intros p Hp. eexists _, _. rewrite (Hrun p Hp). cbn [fst].
    split; [reflexivity|]. split; [reflexivity|].
    cbn [Pagination.total Pagination.pages].
    split; [reflexivity|]. split; [reflexivity|].
    split; [rewrite length_take; lia|].
    split.
    + intros Hnil. apply (f_equal length) in Hnil.
      rewrite length_take, length_drop in Hnil. simpl in Hnil.
      unfold total, L in *. nia.
    + intros Hbeyond. apply nil_length_inv.
      rewrite length_take, length_drop. unfold total, L in *. nia.
  - etransitivity; [|exact (pages_concat all L (Z.to_nat (- d)) Hfits)].
    f_equal. apply map_ext_in. intros p Hp%in_seq.
    unfold data_of. rewrite Hrun by lia. reflexivity.
Qed.

Lemma pages_partition_the_listing_witness :
  let E := Demo.env [] Demo.no_faults in
  let q := ItemsQuery.mk None (Some 2%Z) None None None in
  let i1 := Demo.item "i1" true 5 in
  let i2 := Demo.item "i2" true 9 in
  let i3 := Demo.item "i3" true 7 in
  let w := set_items [i1; i2; i3] Demo.world in
  let page1 := get_items E (at_page 1 q) w in
  let page2 := get_items E (at_page 2 q) (set_db_calls 2 w) in
  listing E q w = [i2; i3; i1] /\
  (data_of page1 = [i2; i3] /\ data_of page2 = [i1]) /\
  exists pages,
    Pagination.pages <$> pagination_of page1 = Some (Some (Z.of_nat pages)) /\
    Pagination.total <$> pagination_of page1 = Some 3%Z /\
    data_of page1 ++ data_of page2 = listing E q w.
Proof.
  intros E q i1 i2 i3 w page1 page2.
  split; [vm_compute; reflexivity|].
  split; [split; vm_compute; reflexivity|].
  destruct (pages_partition_the_listing E q w
              (fun p => set_db_calls (2 * (p - 1)) w))
    as (_ & pages & Hpage & Hall);
    [reflexivity | discriminate | | intros p; now split_and! |].
  { refine (bool_decide_unpack (NoDup _) _). vm_compute. exact I. }
  exists pages.
  destruct (Hpage 1 (le_n 1)) as (data & pg & Hrun & _ & Htotal & Hpages & _).
  change (set_db_calls (2 * (1 - 1)) w) with w in Hrun.
  change (Z.of_nat 1) with 1%Z in Hrun. fold page1 in Hrun.
  split; [unfold pagination_of; rewrite Hrun; cbn; now rewrite Hpages|].
  split; [unfold pagination_of; rewrite Hrun; cbn; now rewrite Htotal|].
  assert (pages = 2) as ->.
  { assert (Pagination.pages <$> pagination_of page1 = Some (Some 2%Z)) as Hp
      by (vm_compute; reflexivity).
    unfold pagination_of in Hp. rewrite Hrun in Hp. cbn in Hp.
    rewrite Hpages in Hp. injection Hp as Hp. lia. }
  cbn [seq map concat] in Hall. rewrite app_nil_r in Hall. exact Hall.
Defined.

(** ** Deleting and fetching one item *)

Lemma delete_item_cases E itemId w :
  let w1 := set_db_calls (S (db_calls w)) w in
  delete_item E itemId w =
  match db_fault E (db_calls w) with
  | Some e => (inl (mkResponse 500 (BError (message e))), w1)
  | None =>
      match List.find (item_has_id itemId) (items w) with
      | Some i =>
          (inl (mkResponse 200 (BItem (soft_delete (clock w) i))),
           set_items (update_first (item_has_id itemId) (soft_delete (clock w))
                                   (items w)) w1)
      | None => (inl (mkResponse 404 (BError (js "Item not found"))), w1)
      end
  end.
Proof.
  intros w1. unfold delete_item, try_catch, new_Date. unfold bind at 1.
  unfold bind at 1, Item_findOneAndUpdate_soft_delete, storage.
  destruct (db_fault E (db_calls w)); [reflexivity|].
  unfold bind at 1, get. cbn [items set_db_calls].
  destruct (List.find _ (items w)); reflexivity.
Qed.

Lemma get_item_cases E itemId w :
  let w1 := set_db_calls (S (db_calls w)) w in
  get_item E itemId w =
  (inl match db_fault E (db_calls w) with
       | Some e => mkResponse 500 (BError (message e))
       | None =>
           match List.find (item_has_id itemId) (items w) with
           | Some i => mkResponse 200 (BItem i)
           | None => mkResponse 404 (BError (js "Item not found"))
           end
       end, w1).
Proof.
  intros w1. unfold get_item, try_catch, Item_findOne, storage.
  unfold bind at 1.
  destruct (db_fault E (db_calls w)); [reflexivity|].
  cbn [items set_db_calls].
  destruct (List.find _ (items w)); reflexivity.
Qed.

Lemma items_filter_soft_delete q re t i :
  items_filter q re (soft_delete t i) = false.
Proof. reflexivity. Qed.

Lemma listing_after_soft_delete E q itemId t w0 w :
  items w = update_first (item_has_id itemId) (soft_delete t) (items w0) ->
  listing E q w ⊆+ listing E q w0.
Proof.
  intros Hitems. unfold listing.
  destruct (query_regex E q) as [re|]; [|reflexivity].
  rewrite !sort_createdAt_desc_perm, Hitems. clear Hitems.
  apply sublist_submseteq.
  induction (items w0) as [|x l IH]; simpl; [constructor|].
  destruct (item_has_id itemId x).
  - cbn [List.filter]. rewrite items_filter_soft_delete.
    destruct (items_filter q re x); [apply sublist_cons|]; reflexivity.
  - cbn [List.filter].
    destruct (items_filter q re x); [apply sublist_skip|]; exact IH.
Qed.

Lemma filter_update_first_unavailable q re itemId t l d :
  List.find (item_has_id itemId) l = Some d ->
  Item.isAvailable d = false ->
  List.filter (items_filter q re)
              (update_first (item_has_id itemId) (soft_delete t) l) =
  List.filter (items_filter q re) l.
Proof.
  intros Hfind Hd. induction l as [|x l IH]; simpl in *; [done|].
  destruct (item_has_id itemId x); cbn [List.filter].
  - injection Hfind as ->. rewrite items_filter_soft_delete.
    unfold items_filter. now rewrite Hd.
  - now rewrite IH.
Qed.

(** X19: [DELETE /api/v1/items/:itemId] never removes a document. It always
    answers; 404 exactly when the storage answered and no item has the id;
    an answer other than 200 means that nothing was written; in every case
    the collection holds the same ids in the same order, each item being
    the one it was or, for the first one with the id, its soft-deleted
    copy; users, offers and the provider are not touched; and no listing
    gains an item. *)
Theorem delete_never_removes E itemId w :
  let w' := snd (delete_item E itemId w) in
  exists response,
    fst (delete_item E itemId w) = inl response /\
    (status response = 404 <->
     db_fault E (db_calls w) = None /\
     forall i, i ∈ items w -> Item.id i <> itemId) /\
    (status response <> 200 -> items w' = items w) /\
    map Item.id (items w') = map Item.id (items w) /\
    Forall2 (fun i i' => i' = i \/
                         (Item.id i = itemId /\ i' = soft_delete (clock w) i))
            (items w) (items w') /\
    users w' = users w /\ offers w' = offers w /\ pushed w' = pushed w /\
    (forall E' q, listing E' q w' ⊆+ listing E' q w).
Proof.
  intros w'. unfold w'. rewrite delete_item_cases. cbv zeta.
  assert (forall l : list Item.t, Forall2 (fun i i' => i' = i \/
            (Item.id i = itemId /\ i' = soft_delete (clock w) i)) l l) as Hsame.
  { intros l. apply Forall_Forall2_diag, Forall_forall. now left. }
  destruct (db_fault E (db_calls w)) as [e|].
  { eexists. split; [reflexivity|]. cbn [fst snd status].
    split_and!; try reflexivity; [|apply Hsame].
    split; [discriminate | now intros [? _]]. }
  destruct (List.find (item_has_id itemId) (items w)) as [i|] eqn:Hfind.
  - eexists. split; [reflexivity|]. cbn [fst snd status items set_items].
    split_and!; try reflexivity.
    + split; [discriminate|]. intros [_ Hnone].
      apply find_some in Hfind as [Hin Hid].
      apply bool_decide_eq_true in Hid.
      now destruct (Hnone i (proj2 (list_elem_of_In _ _) Hin)).
    + intros Hne. now destruct Hne.
    + clear Hfind. induction (items w) as [|x l IH]; simpl; [done|].
      destruct (item_has_id itemId x); simpl; [done | now rewrite IH].
    + clear Hfind. induction (items w) as [|x l IH]; simpl; [constructor|].
      destruct (item_has_id itemId x) eqn:Hx.
      * constructor; [|apply Hsame]. right.
        now apply bool_decide_eq_true in Hx.
      * constructor; [now left | exact IH].
    + intros E' q. now apply (listing_after_soft_delete E' q itemId (clock w)).
  - eexists. split; [reflexivity|]. cbn [fst snd status].
    split_and!; try reflexivity; [|apply Hsame].
    split; [intros _; split; [reflexivity|] | reflexivity].
    intros i Hin Hid.
    apply list_elem_of_In in Hin. apply (find_none _ _ Hfind) in Hin.
    unfold item_has_id in Hin. now apply bool_decide_eq_false in Hin.
Qed.

(** X20: a soft-deleted item is still served by id. After a successful
    [DELETE], [GET /api/v1/items/:itemId] answers 200 with the very document
    the [DELETE] returned, whose [isAvailable] is false; a second [DELETE]
    finds it again and leaves every listing as it is. Fetching by id writes
    nothing, answers 404 exactly for an id no document has, and a document
    it returns has the id asked for. *)
Theorem deleted_item_is_still_served E itemId w :
  let w1 := snd (delete_item E itemId w) in
  (forall i,
     db_fault E (db_calls w) = None ->
     db_fault E (S (db_calls w)) = None ->
     List.find (item_has_id itemId) (items w) = Some i ->
     exists i',
       fst (delete_item E itemId w) = inl (mkResponse 200 (BItem i')) /\
       fst (get_item E itemId w1) = inl (mkResponse 200 (BItem i')) /\
       Item.isAvailable i' = false /\
       status_of (fst (delete_item E itemId w1)) = Some 200 /\
       forall E' q,
         listing E' q (snd (delete_item E itemId w1)) = listing E' q w1) /\
  (exists response,
     get_item E itemId w = (inl response, set_db_calls (S (db_calls w)) w) /\
     (status response = 404 <->
      db_fault E (db_calls w) = None /\
      forall i, i ∈ items w -> Item.id i <> itemId) /\
     (forall i, body response = BItem i -> i ∈ items w /\ Item.id i = itemId)).
Proof.
  intros w1. split.
  - intros i Hdb1 Hdb2 Hfind. exists (soft_delete (clock w) i).
    assert (w1 = set_items (update_first (item_has_id itemId)
                              (soft_delete (clock w)) (items w))
                           (set_db_calls (S (db_calls w)) w)) as Hw1.
    { unfold w1. rewrite delete_item_cases. cbv zeta.
      now rewrite Hdb1, Hfind. }
    assert (List.find (item_has_id itemId) (items w1) =
            Some (soft_delete (clock w) i)) as Hfind1.
    { rewrite Hw1. cbn [items set_items].
      apply find_update_first; [exact Hfind|].
      apply find_some in Hfind as [_ Hid]. exact Hid. }
    assert (db_fault E (db_calls w1) = None) as Hdb
      by (rewrite Hw1; exact Hdb2).
    split_and!.
    + rewrite delete_item_cases. cbv zeta. now rewrite Hdb1, Hfind.
    + rewrite get_item_cases. cbv zeta. now rewrite Hdb, Hfind1.
    + reflexivity.
    + rewrite delete_item_cases. cbv zeta. now rewrite Hdb, Hfind1.
    + intros E' q. rewrite delete_item_cases. cbv zeta.
      rewrite Hdb, Hfind1. unfold listing.
      destruct (query_regex E' q) as [re|]; [|reflexivity].
      f_equal. cbn [snd items set_items set_db_calls].
      now apply (filter_update_first_unavailable q re itemId (clock w1)
                   (items w1) (soft_delete (clock w) i)).
  - eexists. split; [apply get_item_cases|].
    destruct (db_fault E (db_calls w)) as [e|].
    { cbn [status body]. split; [|discriminate].
      split; [discriminate | now intros [? _]]. }
    destruct (List.find (item_has_id itemId) (items w)) as [i|] eqn:Hfind;
      cbn [status body].
    + apply find_some in Hfind as [Hin Hid].
      apply bool_decide_eq_true in Hid. apply list_elem_of_In in Hin.
      split.
      * split; [discriminate|]. intros [_ Hnone]. now destruct (Hnone i Hin).
      * now intros i' [= <-].
    + split; [|discriminate].
      split; [intros _; split; [reflexivity|] | reflexivity].
      intros i Hin Hid.
      apply list_elem_of_In in Hin. apply (find_none _ _ Hfind) in Hin.
      unfold item_has_id in Hin. now apply bool_decide_eq_false in Hin.
Qed.

Lemma deleted_item_is_still_served_witness :
  let E := Demo.env [] Demo.no_faults in
  let w1 := snd (delete_item E (js "i1") Demo.world) in
  fst (get_item E (js "i1") w1) =
    inl (mkResponse 200 (BItem (soft_delete 1000 (Demo.item "i1" true 5)))) /\
  data_of (get_items E (ItemsQuery.mk None None None None None) w1) =
    [Demo.item "i2" true 7] /\
  status_of (fst (get_item E (js "i9") w1)) = Some 404.
Proof.
  intros E w1.
  destruct (proj1 (deleted_item_is_still_served E (js "i1") Demo.world)
              (Demo.item "i1" true 5) eq_refl eq_refl eq_refl)
    as (i' & Hdel & Hget & _).
  fold w1 in Hget.
  assert (i' = soft_delete 1000 (Demo.item "i1" true 5)) as ->.
  { vm_compute in Hdel. injection Hdel as <-. vm_compute. reflexivity. }
  split_and!; [exact Hget | vm_compute; reflexivity | vm_compute; reflexivity].
Defined.

(** ** Creating an offer *)

Lemma Offer_save_cases E o w :
  let w1 := set_db_calls (S (db_calls w)) w in
  Offer_save E o w =
  if is_empty (Offer.id o) || is_empty (Offer.fromUserId o)
     || is_empty (Offer.toUserId o) || is_empty (Offer.requestedItemId o)
     || negb (bool_decide (Offer.status o ∈ offer_statuses))
  then (inr (Error (js "Offer validation failed")), w)
  else
    match db_fault E (db_calls w) with
    | Some e => (inr e, w1)
    | None =>
        if existsb (fun o' => bool_decide (Offer.id o' = Offer.id o))
                   (offers w)
        then (inr (Error (js "E11000 duplicate key error")), w1)
        else (inl o, set_offers (offers w ++ [o]) w1)
    end.
Proof.
  intros w1. unfold Offer_save, storage.
  destruct (_ || _); [reflexivity|].
  destruct (db_fault E (db_calls w)); [reflexivity|].
  unfold bind at 1, get. cbn [offers set_db_calls].
  destruct (existsb _ _); reflexivity.
Qed.

Lemma offer_valid_spec o :
  is_empty (Offer.id o) || is_empty (Offer.fromUserId o)
  || is_empty (Offer.toUserId o) || is_empty (Offer.requestedItemId o)
  || negb (bool_decide (Offer.status o ∈ offer_statuses)) = false <->
  offer_valid o.
Proof.
  unfold offer_valid. rewrite !orb_false_iff, negb_false_iff, bool_decide_eq_true.
  assert (forall s : jsstring, is_empty s = false <-> s <> []) as Hne
    by (intros []; simpl; split; congruence).
  rewrite !Hne. tauto.
Qed.

Lemma offer_fresh_spec (o : Offer.t) os :
  existsb (fun o' => bool_decide (Offer.id o' = Offer.id o)) os = false <->
  Offer.id o ∉ map Offer.id os.
Proof.
  induction os as [|x os IH]; simpl.
  - split; [intros _; apply not_elem_of_nil | reflexivity].
  - rewrite orb_false_iff, IH, not_elem_of_cons, bool_decide_eq_false.
    split; intros [H1 H2]; split; congruence.
Qed.

(** The lookups of the queue, then the dispatch. *)
Lemma queueOfferNotification_try_cases E offer w :
  let w2 := set_db_calls (S (S (db_calls w))) w in
  queueOfferNotification_try E offer w =
  match db_fault E (db_calls w), db_fault E (S (db_calls w)) with
  | None, None =>
      match sendOfferNotification E (notification_of_offer offer w) w2 with
      | (inl _, w') => (inl tt, w')
      | (inr e, w') => (inr e, w')
      end
  | Some e, _ => (inr e, w2)
  | None, Some e => (inr e, w2)
  end.
Proof.
  intros w2. unfold queueOfferNotification_try, Promise_all2.
  unfold bind at 1. unfold User_findOne, Item_findOne, storage.
  destruct (db_fault E (db_calls w)) as [e|]; cbn [db_calls set_db_calls].
  { destruct (db_fault E (S (db_calls w))); reflexivity. }
  destruct (db_fault E (S (db_calls w))) as [e|]; [reflexivity|].
  cbn [users items set_db_calls]. unfold bind.
  change (set_db_calls (S (S (db_calls w))) (set_db_calls (S (db_calls w)) w))
    with w2.
  unfold notification_of_offer.
  destruct (sendOfferNotification E _ w2) as [[r|e] w']; reflexivity.
Qed.

(** What queueing the notification of an offer can do to the world. *)
Lemma queueOfferNotificationForOffer_effect E offer w :
  let w' := snd (queueOfferNotificationForOffer E (Some offer) w) in
  let a := notification_of_offer offer w in
  items w' = items w /\ offers w' = offers w /\ clock w' = clock w /\
  (users w' = users w \/
   exists bad,
     users w' = update_first (user_has_id (VStr (Offer.toUserId offer)))
                             (pull_tokens bad (clock w)) (users w)) /\
  exists k,
    pushed w' =
    pushed w ++
    map (offer_message a)
        (take k (batches_from (uniqueTokens_of (recipient_tokens a w)) 0 [])).
Proof.
  intros w' a. unfold w'. clear w'.
  unfold queueOfferNotificationForOffer, try_catch.
  rewrite queueOfferNotification_try_cases. cbv zeta. fold a.
  assert (exists k, pushed w = pushed w ++ map (offer_message a)
            (take k (batches_from (uniqueTokens_of (recipient_tokens a w)) 0 [])))
    as Hnone by (exists 0; simpl; now rewrite app_nil_r).
  destruct (db_fault E (db_calls w)) as [e|].
  { cbn [snd log modify]. split_and!; try reflexivity; [now left | exact Hnone]. }
  destruct (db_fault E (S (db_calls w))) as [e|].
  { cbn [snd log modify]. split_and!; try reflexivity; [now left | exact Hnone]. }
  set (w2 := set_db_calls (S (S (db_calls w))) w).
  destruct (sendOfferNotification_effect E a w2) as (Hi & Ho & Hc & Hu).
  destruct (sendOfferNotification_pushed E a w2) as (k & Hp).
  change (recipient_tokens a w2) with (recipient_tokens a w) in Hp.
  change (pushed w2) with (pushed w) in Hp.
  change (items w2) with (items w) in Hi.
  change (offers w2) with (offers w) in Ho.
  change (clock w2) with (clock w) in Hc, Hu.
  change (users w2) with (users w) in Hu.
  assert (users (snd (sendOfferNotification E a w2)) = users w \/
          exists bad,
            users (snd (sendOfferNotification E a w2)) =
            update_first (user_has_id (VStr (Offer.toUserId offer)))
                         (pull_tokens bad (clock w)) (users w)) as Hu'.
  { destruct Hu as [Hu | (p & _ & _ & Hu)]; [now left|].
    right. now exists (PushResult.invalidTokens p). }
  destruct (sendOfferNotification E a w2) as [[r|e] w3];
    cbn [snd fst log modify] in *;
    (split_and!; [exact Hi | exact Ho | exact Hc | exact Hu' |]);
    now exists k.
Qed.

Lemma post_offers_cases E b w :
  let w1 := set_db_calls (S (db_calls w)) w in
  post_offers E b w =
  match Offer_save E b w with
  | (inl o, w') =>
      (inl (mkResponse 201 (BOffer o)),
       snd (queueOfferNotificationForOffer E (Some o) w'))
  | (inr e, w') => (inl (mkResponse 500 (BError (message e))), w')
  end.
Proof.
  intros w1. unfold post_offers, try_catch. unfold bind at 1.
  destruct (Offer_save E b w) as [[o|e] w']; [|reflexivity].
  unfold bind, detached.
  pose proof (queueOfferNotificationForOffer_total E (Some o) w') as Ht.
  destruct (queueOfferNotificationForOffer E (Some o) w') as [[[]|e] w''];
    [reflexivity | discriminate Ht].
Qed.


(** X22: creating an offer notifies nobody but its recipient. Whatever the
    storage, the transport and the provider do, the messages a
    [POST /api/v1/offers] hands to the provider are messages of the
    notification built from the new offer (sender name and item name
    looked up, with their defaults), for the first batches of the
    recipient's tokens: every token in them is a truthy token of the user
    [toUserId], and the title names the sender, or "A SwopTrader user" when
    the sender is unknown or has an empty name. *)
Theorem offer_creation_notifies_only_the_recipient E b w :
  let w' := snd (post_offers E b w) in
  let a := notification_of_offer b w in
  let sender :=
    match List.find (user_has_id (VStr (Offer.fromUserId b))) (users w) with
    | Some u => if is_empty (User.name u) then js "A SwopTrader user"
                else User.name u
    | None => js "A SwopTrader user"
    end in
  exists sent,
    pushed w' = pushed w ++ sent /\
    (exists k,
       sent = map (offer_message a)
                  (take k (batches_from
                             (uniqueTokens_of (recipient_tokens a w)) 0 []))) /\
    forall m, m ∈ sent ->
      Notification.title (MulticastMessage.notification m) =
        sender ++ js " sent you an offer" /\
      forall t, t ∈ MulticastMessage.tokens m ->
        truthy t = true /\
        exists u,
          List.find (user_has_id (VStr (Offer.toUserId b))) (users w) = Some u /\
          t ∈ User.fcmTokens u.
Proof.
  intros w' a sender. unfold w'. clear w'.
  assert (exists k,
            pushed (snd (post_offers E b w)) =
            pushed w ++
            map (offer_message a)
                (take k (batches_from
                           (uniqueTokens_of (recipient_tokens a w)) 0 [])))
    as (k & Hk).
  { rewrite post_offers_cases, Offer_save_cases. cbv zeta.
    assert (exists k, pushed w = pushed w ++ map (offer_message a)
              (take k (batches_from (uniqueTokens_of (recipient_tokens a w)) 0 [])))
      as Hnone by (exists 0; simpl; now rewrite app_nil_r).
    destruct (_ || _); [exact Hnone|].
    destruct (db_fault E (db_calls w)); [exact Hnone|].
    destruct (existsb _ _); [exact Hnone|].
    cbn [snd].
    now destruct (queueOfferNotificationForOffer_effect E b
                    (set_offers (offers w ++ [b])
                       (set_db_calls (S (db_calls w)) w)))
      as (_ & _ & _ & _ & Hp). }
  eexists. split; [exact Hk|]. split; [now exists k|].
  intros m (batch & <- & Hbatch)%list_elem_of_In%in_map_iff. split.
  - cbn [offer_message multicast_message MulticastMessage.notification
         Notification.title].
    f_equal. unfold resolved_sender, a, notification_of_offer, sender.
    cbn [OfferNotification.senderName].
    destruct (List.find (user_has_id (VStr (Offer.fromUserId b))) (users w))
      as [u|]; [|reflexivity].
    destruct (User.name u); reflexivity.
  - intros t Ht.
    cbn [offer_message multicast_message MulticastMessage.tokens] in Ht.
    assert (t ∈ uniqueTokens_of (recipient_tokens a w)) as Hin.
    { pose proof (concat_batches_from
                    (uniqueTokens_of (recipient_tokens a w)) 0 []) as Hc.
      simpl in Hc. rewrite drop_0 in Hc. rewrite <- Hc.
      apply list_elem_of_In, in_concat. exists batch. split.
      - eapply list_elem_of_In, elem_of_sublist;
          [apply list_elem_of_In, Hbatch | apply sublist_take].
      - now apply list_elem_of_In. }
    unfold uniqueTokens_of in Hin.
    apply elem_of_new_Set, elem_of_filter_truthy in Hin as [Hin Htruthy].
    split; [exact Htruthy|].
    unfold recipient_tokens, recipient_of, a in Hin.
    cbn [notification_of_offer OfferNotification.recipientUserId] in Hin.
    destruct (List.find (user_has_id (VStr (Offer.toUserId b))) (users w))
      as [u|]; [|now apply elem_of_nil in Hin].
    exists u. split; [reflexivity|].
    now apply elem_of_filter_truthy in Hin as [Hin _].
Qed.

Lemma offer_creation_notifies_only_the_recipient_witness :
  let E := Demo.env [] Demo.no_faults in
  let w' := snd (post_offers E Demo.offer Demo.world) in
  map MulticastMessage.tokens (pushed w') = [[Demo.tok 1; Demo.tok 2]] /\
  forall m, m ∈ pushed w' ->
    Notification.title (MulticastMessage.notification m) =
      js "u2 sent you an offer".
Proof.
  intros E w'.
  destruct (offer_creation_notifies_only_the_recipient E Demo.offer Demo.world)
    as (sent & Hp & _ & Hall).
  fold w' in Hp. split; [vm_compute; reflexivity|].
  intros m Hm. rewrite Hp in Hm. apply Hall in Hm as [Ht _]. exact Ht.
Defined.

(** ** What the requests keep of the collections *)

Lemma same_user_identity_refl u : same_user_identity u u.
Proof. now repeat split. Qed.

Lemma item_kept_refl i : item_kept i i.
Proof. now repeat split. Qed.

Lemma same_user_identity_trans u1 u2 u3 :
  same_user_identity u1 u2 -> same_user_identity u2 u3 ->
  same_user_identity u1 u3.
Proof.
  unfold same_user_identity.
  intros (? & ? & ? & ? & ? & ? & ? & ?) (? & ? & ? & ? & ? & ? & ? & ?).
  split_and!; congruence.
Qed.

Lemma item_kept_trans i1 i2 i3 :
  item_kept i1 i2 -> item_kept i2 i3 -> item_kept i1 i3.
Proof.
  unfold item_kept.
  intros (? & ? & ? & ? & ? & ? & ? & ? & Ha) (? & ? & ? & ? & ? & ? & ? & ? & Hb).
  split_and!; try congruence. intros Hav. now apply Ha, Hb.
Qed.

Lemma Forall2_same {A} (R : A -> A -> Prop) l :
  (forall x, R x x) -> Forall2 R l l.
Proof. intros H. apply Forall_Forall2_diag, Forall_forall. auto. Qed.

Lemma documents_step_refl w w' :
  users w' = users w -> items w' = items w -> offers w' = offers w ->
  documents_step w w'.
Proof.
  intros Hu Hi Ho. unfold documents_step. rewrite Hu, Hi, Ho.
  split_and!; [| |now left].
  - apply Forall2_same, same_user_identity_refl.
  - apply Forall2_same, item_kept_refl.
Qed.

Lemma documents_step_users w w' p f :
  (forall u, same_user_identity u (f u)) ->
  users w' = users w \/ users w' = update_first p f (users w) ->
  items w' = items w -> offers w' = offers w ->
  documents_step w w'.
Proof.
  intros Hf Hu Hi Ho. unfold documents_step. rewrite Hi, Ho.
  split_and!; [| |now left].
  - destruct Hu as [-> | ->].
    + apply Forall2_same, same_user_identity_refl.
    + apply update_first_Forall2; [apply same_user_identity_refl | exact Hf].
  - apply Forall2_same, item_kept_refl.
Qed.

Lemma post_notifications_token_effect E b w :
  let w' := snd (post_notifications_token E b w) in
  items w' = items w /\ offers w' = offers w /\
  (users w' = users w \/
   users w' = update_first (user_has_id (TokenBody.userId b))
                           (apply_TokenUpdate (token_update b (clock w)))
                           (users w)).
Proof.
  intros w'. unfold w'. clear w'.
  remember (post_notifications_token E b w) as r eqn:Hr.
  unfold post_notifications_token in Hr.
  destruct (negb (truthy (TokenBody.userId b))
            || negb (truthy (TokenBody.token b))).
  { subst r. simpl. split_and!; [reflexivity | reflexivity | now left]. }
  unfold try_catch, new_Date in Hr. unfold bind at 1 in Hr.
  unfold bind at 1 in Hr. unfold bind at 1 in Hr.
  rewrite User_findOneAndUpdate_tokens_cases in Hr.
  fold (token_update b (clock w)) in Hr.
  destruct (db_fault E (db_calls w)).
  { subst r. simpl. split_and!; [reflexivity | reflexivity | now left]. }
  destruct (List.find _ (users w)); subst r; simpl.
  - split_and!; [reflexivity | reflexivity | now right].
  - split_and!; [reflexivity | reflexivity | now left].
Qed.

Lemma post_notifications_offers_effect E b w :
  let w' := snd (post_notifications_offers E b w) in
  items w' = items w /\ offers w' = offers w /\
  (users w' = users w \/
   exists bad,
     users w' = update_first (user_has_id (OfferNotification.recipientUserId b))
                             (pull_tokens bad (clock w)) (users w)).
Proof.
  intros w'. unfold w'. clear w'. unfold post_notifications_offers, try_catch.
  destruct (_ || _).
  { simpl. split_and!; [reflexivity | reflexivity | now left]. }
  unfold bind.
  destruct (sendOfferNotification_effect E b w) as (Hi & Ho & _ & Hu).
  assert (users (snd (sendOfferNotification E b w)) = users w \/
          exists bad,
            users (snd (sendOfferNotification E b w)) =
            update_first (user_has_id (OfferNotification.recipientUserId b))
                         (pull_tokens bad (clock w)) (users w)) as Hu'.
  { destruct Hu as [Hu | (p & _ & _ & Hu)]; [now left|].
    right. now exists (PushResult.invalidTokens p). }
  destruct (sendOfferNotification E b w) as [[[r|p]|e] w1];
    cbn [fst snd] in *.
  - destruct (SkipResult.skipped r); now split_and!.
  - now split_and!.
  - case_bool_decide; now split_and!.
Qed.

(** One request keeps the users and the items, up to tokens, availability
    and dates, and stores at most one new, valid offer with a fresh id. *)
Lemma handle_effect E r w : documents_step w (snd (handle E r w)).
Proof.
  destruct r as [b|b|q|itemId|b]; unfold handle.
  - destruct (post_notifications_token_effect E b w) as (Hi & Ho & Hu).
    eapply documents_step_users; [|exact Hu | exact Hi | exact Ho].
    intros u. now repeat split.
  - destruct (post_notifications_offers_effect E b w) as (Hi & Ho & Hu).
    destruct Hu as [Hu | (bad & Hu)].
    + now apply documents_step_refl.
    + eapply (documents_step_users _ _ _ (pull_tokens bad (clock w)));
        [|right; exact Hu | exact Hi | exact Ho].
      intros u. now repeat split.
  - rewrite get_items_cases. cbv zeta.
    destruct (db_fault E (db_calls w)); [now apply documents_step_refl|].
    destruct (query_regex E q); [|now apply documents_step_refl].
    destruct (Z.ltb _ 0); [now apply documents_step_refl|].
    destruct (db_fault E (S (db_calls w))); now apply documents_step_refl.
  - rewrite delete_item_cases. cbv zeta.
    destruct (db_fault E (db_calls w)); [now apply documents_step_refl|].
    destruct (List.find _ (items w)); [|now apply documents_step_refl].
    unfold documents_step. cbn [snd users items offers set_items set_db_calls].
    split_and!; [apply Forall2_same, same_user_identity_refl | | now left].
    apply update_first_Forall2; [apply item_kept_refl|].
    intros i. unfold item_kept. split_and!; try reflexivity. discriminate.
  - rewrite post_offers_cases, Offer_save_cases. cbv zeta.
    destruct (_ || _) eqn:Hvalid; [now apply documents_step_refl|].
    destruct (db_fault E (db_calls w)); [now apply documents_step_refl|].
    destruct (existsb _ _) eqn:Hfresh; [now apply documents_step_refl|].
    apply offer_valid_spec in Hvalid. apply offer_fresh_spec in Hfresh.
    cbn [snd].
    destruct (queueOfferNotificationForOffer_effect E b
                (set_offers (offers w ++ [b])
                   (set_db_calls (S (db_calls w)) w)))
      as (Hi & Ho & _ & Hu & _).
    cbn [users items offers clock set_offers set_db_calls] in Hi, Ho, Hu.
    unfold documents_step. rewrite Hi, Ho. split_and!.
    + destruct Hu as [-> | (bad & ->)].
      * apply Forall2_same, same_user_identity_refl.
      * apply update_first_Forall2; [apply same_user_identity_refl|].
        intros u. now repeat split.
    + apply Forall2_same, item_kept_refl.
    + right. now exists b.
Qed.

(** X23: the requests of the modelled routes keep the documents. After any
    sequence of them the users are the same users, in the same order, with
    their identity and profile fields as they were (only tokens, device
    map and dates change); the items are the same items, none of which has
    become available again; no stored offer was changed or removed, the
    new ones coming after them; and if the offers had distinct ids and
    valid documents before, they still do. *)
Theorem server_keeps_its_documents E rs w :
  let w' := serve E rs w in
  Forall2 same_user_identity (users w) (users w') /\
  Forall2 item_kept (items w) (items w') /\
  offers w `prefix_of` offers w' /\
  (NoDup (map Offer.id (offers w)) -> NoDup (map Offer.id (offers w'))) /\
  (Forall offer_valid (offers w) -> Forall offer_valid (offers w')).
Proof.
  revert w. induction rs as [|r rs IH]; intros w; cbv zeta.
  { cbn [serve fold_left]. split_and!; try done.
    - apply Forall2_same, same_user_identity_refl.
    - apply Forall2_same, item_kept_refl. }
  change (serve E (r :: rs) w) with (serve E rs (snd (handle E r w))).
  destruct (handle_effect E r w) as (Hu & Hi & Ho).
  destruct (IH (snd (handle E r w))) as (IHu & IHi & IHo & IHn & IHv).
  split_and!.
  - eapply Forall2_trans; [|exact Hu | exact IHu].
    intros x y z. apply same_user_identity_trans.
  - eapply Forall2_trans; [|exact Hi | exact IHi].
    intros x y z. apply item_kept_trans.
  - etransitivity; [|exact IHo].
    destruct Ho as [-> | (o & -> & _)]; [reflexivity | now apply prefix_app_r].
  - intros Hn. apply IHn.
    destruct Ho as [-> | (o & -> & _ & Hfresh)]; [exact Hn|].
    rewrite map_app. apply NoDup_app. split_and!; [exact Hn | | ].
    + intros x Hx [<-|[]]%list_elem_of_In. contradiction.
    + apply NoDup_singleton.
  - intros Hv. apply IHv.
    destruct Ho as [-> | (o & -> & Hvalid & _)]; [exact Hv|].
    apply Forall_app. split; [exact Hv | now constructor].
Qed.

(** ** The admin clean-up *)

Lemma orphaned_spec w o :
  o ∈ List.filter (fun ownerId =>
                     negb (bool_decide
                             (ownerId ∈ remove_dups (map User.id (users w)))))
                  (remove_dups (map Item.ownerId (items w))) <->
  o ∈ map Item.ownerId (items w) /\ o ∉ map User.id (users w).
Proof.
  rewrite list_elem_of_In, filter_In, <- list_elem_of_In.
  rewrite negb_true_iff, bool_decide_eq_false, !elem_of_remove_dups.
  reflexivity.
Qed.

Lemma filter_orphans w :
  List.filter
    (fun i => negb (bool_decide
       (Item.ownerId i ∈
        List.filter (fun ownerId =>
                       negb (bool_decide
                               (ownerId ∈ remove_dups (map User.id (users w)))))
                    (remove_dups (map Item.ownerId (items w))))))
    (items w) =
  List.filter (has_owner w) (items w).
Proof.
  apply filter_ext_in. intros i Hi. unfold has_owner.
  destruct (decide (Item.ownerId i ∈ map User.id (users w))) as [Hin|Hout].
  - rewrite (bool_decide_eq_true_2 _ Hin), bool_decide_eq_false_2; [done|].
    rewrite orphaned_spec. now intros [_ Hno].
  - rewrite (bool_decide_eq_false_2 _ Hout), bool_decide_eq_true_2; [done|].
    rewrite orphaned_spec. split; [|exact Hout].
    apply list_elem_of_In, in_map, Hi.
Qed.

Lemma filter_length_0 {A} (p : A -> bool) l :
  length (List.filter p l) = 0 -> Forall (fun x => p x = false) l.
Proof.
  induction l as [|x l IH]; simpl; [constructor|].
  destruct (p x) eqn:Hx; [discriminate|]. intros H. constructor; auto.
Qed.

Lemma cleanup_cases E w :
  let orphaned :=
    List.filter (fun ownerId =>
                   negb (bool_decide
                           (ownerId ∈ remove_dups (map User.id (users w)))))
                (remove_dups (map Item.ownerId (items w))) in
  let kept := List.filter (has_owner w) (items w) in
  let deleted := length (items w) - length kept in
  let at_call n := set_db_calls (n + db_calls w) w in
  cleanup_orphaned_items_try E w =
  match db_fault E (db_calls w) with
  | Some e => (inr e, at_call 1)
  | None =>
      match db_fault E (S (db_calls w)) with
      | Some e => (inr e, at_call 2)
      | None =>
          if Nat.eqb (length orphaned) 0
          then (inl (Cleanup.mk (js "No orphaned items found") 0 None),
                at_call 2)
          else
            match db_fault E (S (S (db_calls w))) with
            | Some e => (inr e, at_call 3)
            | None =>
                (inl (Cleanup.mk
                        (js "Cleaned up " ++ ToString (VNum (Z.of_nat deleted))
                         ++ js " orphaned items")
                        deleted (Some orphaned)),
                 set_items kept (at_call 3))
            end
      end
  end.
Proof.
  intros orphaned kept deleted at_call.
  unfold cleanup_orphaned_items_try, Item_distinct_ownerId, User_distinct_id.
  unfold bind at 1, storage at 1.
  destruct (db_fault E (db_calls w)); [reflexivity|].
  unfold bind at 1, storage at 1. cbn [db_calls set_db_calls items users].
  destruct (db_fault E (S (db_calls w))); [reflexivity|].
  cbn [db_calls set_db_calls items users]. fold orphaned.
  destruct (Nat.eqb (length orphaned) 0); [reflexivity|].
  unfold bind at 1, Item_deleteMany_ownerId_in, storage.
  cbn [db_calls set_db_calls].
  destruct (db_fault E (S (S (db_calls w)))); [reflexivity|].
  unfold bind, get, modify, ret. cbn [items set_db_calls].
  unfold orphaned. rewrite filter_orphans. reflexivity.
Qed.

Lemma filter_all {A} (p : A -> bool) l :
  Forall (fun x => p x = true) l -> List.filter p l = l.
Proof.
  induction 1 as [|x l Hx _ IH]; simpl; [done|]. now rewrite Hx, IH.
Qed.

(** No owner is orphaned exactly when every item has its owner. *)
Lemma no_orphans_spec w :
  length (List.filter
            (fun ownerId =>
               negb (bool_decide
                       (ownerId ∈ remove_dups (map User.id (users w)))))
            (remove_dups (map Item.ownerId (items w)))) = 0 <->
  Forall (fun i => has_owner w i = true) (items w).
Proof.
  rewrite Forall_forall. split.
  - intros Hz%nil_length_inv i Hi. unfold has_owner.
    apply bool_decide_eq_true.
    destruct (decide (Item.ownerId i ∈ map User.id (users w))) as [|Hout];
      [done|].
    assert (Item.ownerId i ∈ @nil jsstring) as Hin; [|now apply elem_of_nil in Hin].
    rewrite <- Hz. apply orphaned_spec. split; [|exact Hout].
    apply list_elem_of_In, in_map, list_elem_of_In, Hi.
  - intros Hall.
    match goal with |- length ?l = 0 => destruct l as [|o l'] eqn:Hl end;
      [reflexivity|].
    assert (o ∈ o :: l') as Ho by (now left).
    rewrite <- Hl in Ho. apply orphaned_spec in Ho as [Hin Hout].
    apply list_elem_of_In, in_map_iff in Hin as (i & <- & Hi).
    apply list_elem_of_In, Hall in Hi. unfold has_owner in Hi.
    now apply bool_decide_eq_true in Hi.
Qed.

(** X24: the clean-up removes exactly the orphans. Whatever the storage
    does, an item whose owner is a user is never removed, and users and
    offers are not touched; when the three storage operations succeed, the
    items left are exactly those whose owner exists, in their order,
    available or not; [deletedCount] is the number of documents removed,
    [orphanedOwnerIds] lists the owners that no user document has; and a
    second clean-up finds nothing to do. *)
Theorem cleanup_removes_exactly_the_orphans E w :
  let r := cleanup_orphaned_items_try E w in
  let w' := snd r in
  (users w' = users w /\ offers w' = offers w /\
   (items w' = items w \/ items w' = List.filter (has_owner w) (items w)) /\
   forall i, i ∈ items w -> has_owner w i = true -> i ∈ items w') /\
  ((forall n, db_fault E n = None) ->
   exists result,
     fst r = inl result /\
     items w' = List.filter (has_owner w) (items w) /\
     Cleanup.deletedCount result = length (items w) - length (items w') /\
     (forall ids, Cleanup.orphanedOwnerIds result = Some ids ->
        forall o, o ∈ ids <->
                  o ∈ map Item.ownerId (items w) /\
                  o ∉ map User.id (users w)) /\
     (Cleanup.orphanedOwnerIds result = None <->
      Forall (fun i => has_owner w i = true) (items w)) /\
     cleanup_orphaned_items_try E w' =
       (inl (Cleanup.mk (js "No orphaned items found") 0 None),
        set_db_calls (2 + db_calls w') w')).
Proof.
  intros r w'. unfold w', r. clear r w'. split.
  - rewrite cleanup_cases. cbv zeta.
    assert (forall its : list Item.t,
              its = items w \/ its = List.filter (has_owner w) (items w) ->
              forall i, i ∈ items w -> has_owner w i = true -> i ∈ its)
      as Hkeeps.
    { intros its [-> | ->] i Hi Ho; [exact Hi|].
      apply list_elem_of_In, filter_In. split; [|exact Ho].
      now apply list_elem_of_In. }
    destruct (db_fault E (db_calls w)).
    { cbn [snd users offers items set_db_calls].
      split_and!; [done | done | now left | apply Hkeeps; now left]. }
    destruct (db_fault E (S (db_calls w))).
    { cbn [snd users offers items set_db_calls].
      split_and!; [done | done | now left | apply Hkeeps; now left]. }
    destruct (Nat.eqb _ 0).
    { cbn [snd users offers items set_db_calls].
      split_and!; [done | done | now left | apply Hkeeps; now left]. }
    destruct (db_fault E (S (S (db_calls w)))).
    { cbn [snd users offers items set_db_calls].
      split_and!; [done | done | now left | apply Hkeeps; now left]. }
    cbn [snd users offers items set_db_calls set_items].
    split_and!; [done | done | now right | apply Hkeeps; now right].
  - intros Hdb. rewrite cleanup_cases. cbv zeta. rewrite !Hdb.
    destruct (Nat.eqb_spec
                (length (List.filter
                   (fun ownerId =>
                      negb (bool_decide
                              (ownerId ∈ remove_dups (map User.id (users w)))))
                   (remove_dups (map Item.ownerId (items w))))) 0)
      as [Hz|Hnz].
    + pose proof (proj1 (no_orphans_spec w) Hz) as Hall.
      eexists. split; [reflexivity|].
      cbn [snd items set_db_calls Cleanup.deletedCount
           Cleanup.orphanedOwnerIds].
      rewrite (filter_all _ _ Hall).
      split_and!; [reflexivity | lia | discriminate | done |].
      rewrite cleanup_cases. cbv zeta. rewrite !Hdb.
      cbn [users items set_db_calls]. rewrite Hz. reflexivity.
    + eexists. split; [reflexivity|].
      cbn [snd items set_items set_db_calls Cleanup.deletedCount
           Cleanup.orphanedOwnerIds].
      split_and!; [reflexivity | reflexivity | | |].
      * intros ids [= <-] o. apply orphaned_spec.
      * split; [discriminate|]. intros Hall%no_orphans_spec. contradiction.
      * rewrite cleanup_cases. cbv zeta. rewrite !Hdb.
        cbn [users items set_items set_db_calls].
        set (w1 := set_items (List.filter (has_owner w) (items w)) w).
        assert (Forall (fun i => has_owner w1 i = true) (items w1)) as Hall.
        { apply Forall_forall. intros i Hi%list_elem_of_In%filter_In.
          exact (proj2 Hi). }
        apply no_orphans_spec in Hall. cbn [w1 users items set_items] in Hall.
        rewrite Hall. reflexivity.
Qed.

Lemma cleanup_removes_exactly_the_orphans_witness :
  let E := Demo.env [] Demo.no_faults in
  let orphan := Item.mk (js "i3") (js "drum") (js "a drum") (js "Music")
                        (js "good") [] (js "u7") false 1 1 in
  let w := set_items [Demo.item "i1" true 5; orphan; Demo.item "i2" false 7]
                     Demo.world in
  exists result,
    fst (cleanup_orphaned_items_try E w) = inl result /\
    items (snd (cleanup_orphaned_items_try E w)) =
      [Demo.item "i1" true 5; Demo.item "i2" false 7] /\
    Cleanup.deletedCount result = 1 /\
    Cleanup.message result = js "Cleaned up 1 orphaned items".
Proof.
  intros E orphan w.
  destruct (proj2 (cleanup_removes_exactly_the_orphans E w))
    as (result & Hrun & Hitems & Hcount & _); [reflexivity|].
  exists result. split; [exact Hrun|].
  split; [rewrite Hitems; vm_compute; reflexivity|].
  split; [rewrite Hcount, Hitems; vm_compute; reflexivity|].
  vm_compute in Hrun. injection Hrun as <-. vm_compute. reflexivity.
Defined.

(** ** From registration to delivery *)

(** The transport does not look at the users. *)
Lemma getFirebaseMessaging_set_users E us w :
  getFirebaseMessaging E (set_users us w) =
  (fst (getFirebaseMessaging E w), set_users us (snd (getFirebaseMessaging E w))).
Proof.
  unfold getFirebaseMessaging, initializeFirebaseMessaging.
  destruct (parseFirebaseCredential_uniform E) as (c & ls & Hparse).
  destruct w as [us0 its os fm apps ps cs dc ck].
  destruct fm; [reflexivity|].
  unfold set_users. run_monad.
  destruct (Nat.eqb apps 0).
  - rewrite !Hparse. simpl.
    destruct (json_truthy c); simpl; [|reflexivity].
    destruct (sdk_initializeApp E c); simpl; [reflexivity|].
    destruct (sdk_messaging E); reflexivity.
  - destruct (sdk_messaging E); reflexivity.
Qed.

Lemma configured_set_users E us w :
  configured E w -> configured E (set_users us w).
Proof.
  unfold configured. now rewrite getFirebaseMessaging_set_users.
Qed.

Lemma provider_answers_total E msgs :
  (forall k m, exists r, sendEachForMulticast E k m = inl r) ->
  forall k, exists rs, provider_answers E k msgs = Some rs.
Proof.
  intros Hok. induction msgs as [|m ms IH]; intros k; simpl.
  - now exists [].
  - destruct (Hok k m) as (r & ->). destruct (IH (S k)) as (rs & ->).
    now exists (r :: rs).
Qed.

(** X25: a registered token is notified. After the registration of a
    (non-empty) token for an existing user, under any device id or none, an
    offer notification addressed to that user, on a server whose storage
    and transport work and whose provider answers, is answered 200 and
    hands the provider messages whose token lists, put together, hold the
    new token, every token once, none of them falsy. *)
Theorem registered_token_is_notified E w u userId s deviceId a :
  truthy userId = true -> s <> [] ->
  List.find (user_has_id userId) (users w) = Some u ->
  db_fault E (db_calls w) = None -> db_fault E (S (db_calls w)) = None ->
  configured E w ->
  (forall k m, exists r, sendEachForMulticast E k m = inl r) ->
  OfferNotification.recipientUserId a = userId ->
  truthy (OfferNotification.offerId a) = true ->
  truthy (OfferNotification.senderUserId a) = true ->
  truthy (OfferNotification.senderName a) = true ->
  text_or_absent (OfferNotification.message a) ->
  let w1 := snd (post_notifications_token E
                   (TokenBody.mk userId (VStr s) deviceId) w) in
  let r := post_notifications_offers E a w1 in
  exists batches,
    status_of (fst r) = Some 200 /\
    pushed (snd r) = pushed w ++ map (offer_message a) batches /\
    VStr s ∈ concat batches /\ NoDup (concat batches) /\
    Forall (fun t => truthy t = true) (concat batches).
Proof.
  intros Hu Hs Hfind Hdb0 Hdb1 Hconf Hprov Hrec H1 H3 H4 Hmsg w1 r.
  set (b := TokenBody.mk userId (VStr s) deviceId).
  assert (truthy (TokenBody.token b) = true) as Ht by (now destruct s).
  destruct (post_notifications_token_ok E b w u Hu Ht Hdb0 Hfind)
    as [Hrun1 Hfind1].
  set (u1 := apply_TokenUpdate (token_update b (clock w)) u) in *.
  assert (w1 = set_users (update_first (user_has_id userId)
                            (apply_TokenUpdate (token_update b (clock w)))
                            (users w))
                         (set_db_calls (S (db_calls w)) w)) as Hw1
    by (unfold w1; fold b; now rewrite Hrun1).
  assert (db_fault E (db_calls w1) = None) as Hdb by (now rewrite Hw1).
  assert (recipient_of a w1 = Some u1) as Hrecip.
  { unfold recipient_of. rewrite Hrec, Hw1. exact Hfind1. }
  assert (configured E w1) as Hconf1.
  { rewrite Hw1. now apply configured_set_users, configured_set_db_calls. }
  assert (VStr s ∈ List.filter truthy (User.fcmTokens u1)) as Hin.
  { apply elem_of_filter_truthy. split; [|now destruct s].
    apply elem_of_addToSet. now right. }
  assert (List.filter truthy (User.fcmTokens u1) <> []) as Hsome.
  { intros Hnil. rewrite Hnil in Hin. now apply elem_of_nil in Hin. }
  set (batches := batches_from
                    (uniqueTokens_of (List.filter truthy (User.fcmTokens u1)))
                    0 []).
  destruct (provider_answers_total E (map (offer_message a) batches) Hprov
              (length (pushed w1))) as (rs & Hrs).
  destruct (sendOfferNotification_run E a w1 u1 Hdb Hrecip Hsome Hmsg Hconf1
              rs Hrs) as (w2 & Hsame & _ & Hrun).
  cbv zeta in Hrun.
  assert (pushed w1 = pushed w) as Hp1 by (now rewrite Hw1).
  assert (concat batches =
          uniqueTokens_of (List.filter truthy (User.fcmTokens u1))) as Hcat.
  { unfold batches. rewrite concat_batches_from. simpl. now rewrite drop_0. }
  assert (exists response,
            r = (inl response, snd (sendOfferNotification E a w1)) /\
            status response = 200) as (response & Hr & Hstatus).
  { unfold r, post_notifications_offers, try_catch.
    rewrite Hrec, H1, Hu, H3, H4. cbn [negb orb]. unfold bind.
    rewrite Hrun. eexists. split; reflexivity. }
  exists batches. rewrite Hr, Hrun. cbn [fst snd status_of].
  split_and!.
  - now rewrite Hstatus.
  - destruct (decide _).
    + cbn [pushed set_pushed]. now rewrite Hp1.
    + rewrite removeInvalidTokens_pushed. cbn [pushed set_pushed].
      now rewrite Hp1.
  - rewrite Hcat. unfold uniqueTokens_of. apply elem_of_new_Set.
    apply elem_of_filter_truthy. split; [exact Hin | now destruct s].
  - rewrite Hcat. apply NoDup_new_Set.
  - rewrite Hcat. apply Forall_forall. intros t Htok.
    unfold uniqueTokens_of in Htok.
    now apply elem_of_new_Set, elem_of_filter_truthy in Htok as [_ ?].
Qed.

Lemma registered_token_is_notified_witness :
  let E := Demo.env [] Demo.no_faults in
  let w := snd (getFirebaseMessaging E Demo.world) in
  let a := Demo.offer_notification (VStr (js "hello")) in
  let w1 := snd (post_notifications_token E
                   (TokenBody.mk (VStr (js "u1")) (VStr (js "t9"))
                                 (VStr (js "a.b")))
                   w) in
  exists batches,
    pushed (snd (post_notifications_offers E a w1)) =
      map (offer_message a) batches /\
    VStr (js "t9") ∈ concat batches.
Proof.
  intros E w a w1.
  destruct (registered_token_is_notified E w
              (Demo.user "u1" [Demo.tok 1; Demo.tok 2])
              (VStr (js "u1")) (js "t9") (VStr (js "a.b")) a)
    as (batches & _ & Hp & Hin & _);
    try reflexivity; try discriminate;
    try (intros k m; eexists; reflexivity).
  exists batches. split; [exact Hp | exact Hin].
Defined.

(** ** Creating an item *)

Lemma item_valid_spec i :
  is_empty (Item.id i) || is_empty (Item.name i)
  || is_empty (Item.description i) || is_empty (Item.category i)
  || is_empty (Item.condition i) || is_empty (Item.ownerId i) = false <->
  item_valid i.
Proof.
  unfold item_valid. rewrite !orb_false_iff.
  assert (forall s : jsstring, is_empty s = false <-> s <> []) as Hne
    by (intros []; simpl; split; congruence).
  rewrite !Hne. tauto.
Qed.

Lemma item_fresh_spec (i : Item.t) its :
  existsb (fun i' => bool_decide (Item.id i' = Item.id i)) its = false <->
  Item.id i ∉ map Item.id its.
Proof.
  induction its as [|x its IH]; simpl.
  - split; [intros _; apply not_elem_of_nil | reflexivity].
  - rewrite orb_false_iff, IH, not_elem_of_cons, bool_decide_eq_false.
    split; intros [H1 H2]; split; congruence.
Qed.

Lemma post_items_cases E b w :
  let w1 := set_db_calls (S (db_calls w)) w in
  post_items E b w =
  if is_empty (Item.id b) || is_empty (Item.name b)
     || is_empty (Item.description b) || is_empty (Item.category b)
     || is_empty (Item.condition b) || is_empty (Item.ownerId b)
  then (inl (mkResponse 500 (BError (js "Item validation failed"))), w)
  else
    match db_fault E (db_calls w) with
    | Some e => (inl (mkResponse 500 (BError (message e))), w1)
    | None =>
        if existsb (fun i' => bool_decide (Item.id i' = Item.id b)) (items w)
        then (inl (mkResponse 500
                     (BError (js "E11000 duplicate key error"))), w1)
        else (inl (mkResponse 201 (BItem b)), set_items (items w ++ [b]) w1)
    end.
Proof.
  intros w1. unfold post_items, try_catch, Item_save.
  unfold bind at 1.
  destruct (_ || _); [reflexivity|].
  unfold storage.
  destruct (db_fault E (db_calls w)); [reflexivity|].
  unfold bind at 1, get. cbn [items set_db_calls].
  destruct (existsb _ _); reflexivity.
Qed.

Lemma find_fresh_app i its :
  Item.id i ∉ map Item.id its ->
  List.find (item_has_id (Item.id i)) (its ++ [i]) = Some i.
Proof.
  induction its as [|x its IH]; simpl; intros Hfresh.
  - unfold item_has_id. now rewrite bool_decide_eq_true_2.
  - apply not_elem_of_cons in Hfresh as [Hx Hfresh].
    unfold item_has_id at 1. rewrite bool_decide_eq_false_2 by congruence.
    now apply IH.
Qed.

(** X26: a created item is served. [POST /api/v1/items] answers 201
    exactly when the required fields are there, the storage accepts the
    write and the id is new; otherwise it answers 500 and stores nothing.
    After a 201 the item is the last document of the collection, it is the
    one served for its id, it is part of every listing whose query it
    meets (so of none when it was created unavailable), and posting a
    document with the same id again is refused. *)
Theorem created_item_is_served E b w :
  let w1 := snd (post_items E b w) in
  exists response,
    fst (post_items E b w) = inl response /\
    (status response = 201 \/ status response = 500) /\
    (status response = 201 <->
     db_fault E (db_calls w) = None /\ item_valid b /\
     Item.id b ∉ map Item.id (items w)) /\
    (users w1 = users w /\ offers w1 = offers w /\ pushed w1 = pushed w /\
     console w1 = console w) /\
    (status response = 500 -> items w1 = items w) /\
    (status response = 201 ->
     body response = BItem b /\ items w1 = items w ++ [b] /\
     (forall E' q,
        b ∈ listing E' q w1 <->
        exists re, query_regex E' q = Some re /\ items_filter q re b = true) /\
     (forall E', db_fault E' (db_calls w1) = None ->
        fst (get_item E' (Item.id b) w1) = inl (mkResponse 200 (BItem b)) /\
        forall b', Item.id b' = Item.id b ->
          exists text,
            fst (post_items E' b' w1) = inl (mkResponse 500 (BError text)) /\
            items (snd (post_items E' b' w1)) = items w1)).
Proof.
  intros w1. unfold w1. clear w1. rewrite post_items_cases. cbv zeta.
  destruct (_ || _) eqn:Hvalid.
  { assert (~ item_valid b) as Hnot
      by (intros Hv%item_valid_spec; congruence).
    eexists. split; [reflexivity|]. cbn [fst snd status body].
    split_and!; [now right | | done | done | done | done | done | discriminate].
    split; [discriminate | now intros (_ & ? & _)]. }
  apply item_valid_spec in Hvalid.
  destruct (db_fault E (db_calls w)) as [e|].
  { eexists. split; [reflexivity|]. cbn [fst snd status body].
    split_and!; [now right | | done | done | done | done | done | discriminate].
    split; [discriminate | now intros [? _]]. }
  destruct (existsb _ _) eqn:Hfresh.
  { assert (~ (Item.id b ∉ map Item.id (items w))) as Hnot
      by (intros Hf%item_fresh_spec; congruence).
    eexists. split; [reflexivity|]. cbn [fst snd status body].
    split_and!; [now right | | done | done | done | done | done | discriminate].
    split; [discriminate | now intros (_ & _ & ?)]. }
  apply item_fresh_spec in Hfresh.
  eexists. split; [reflexivity|].
  cbn [fst snd status body users items offers pushed console set_items
       set_db_calls].
  split_and!; [now left | done | done | done | done | done | discriminate |].
  intros _. split_and!; try reflexivity.
  - intros E' q. unfold listing.
    destruct (query_regex E' q) as [re|].
    + cbn [items set_items].
      rewrite sort_createdAt_desc_perm, list_elem_of_In, filter_In.
      split.
      * intros [_ Hf]. now exists re.
      * intros (re' & [= <-] & Hf). split; [|exact Hf].
        apply in_or_app. right. now left.
    + split; [now intros ?%elem_of_nil | now intros (re & ? & _)].
  - intros E' Hdb. cbn [db_calls set_items set_db_calls] in Hdb. split.
    + rewrite get_item_cases. cbv zeta.
      cbn [db_calls items set_items set_db_calls].
      now rewrite Hdb, find_fresh_app.
    + intros b' Hid. rewrite post_items_cases. cbv zeta.
      cbn [db_calls items set_items set_db_calls]. rewrite Hdb.
      destruct (_ || _); [now eexists|].
      assert (existsb (fun i' => bool_decide (Item.id i' = Item.id b'))
                      (items w ++ [b]) = true) as ->; [|now eexists].
      rewrite existsb_app. simpl.
      rewrite (bool_decide_eq_true_2 (Item.id b = Item.id b')) by done.
      now rewrite orb_true_r.
Qed.

(** ** The offers listing *)

Lemma insert_offer_desc_perm o l : insert_offer_desc o l ≡ₚ o :: l.
Proof.
  induction l as [|p l IH]; simpl; [reflexivity|].
  destruct (Z.leb _ _); [reflexivity|].
  rewrite IH. apply perm_swap.
Qed.

Lemma sort_offers_desc_perm l : sort_offers_desc l ≡ₚ l.
Proof.
  induction l as [|o l IH]; simpl; [reflexivity|].
  now rewrite insert_offer_desc_perm, IH.
Qed.

Lemma get_offers_cases E q w :
  let page := default 1%Z (OffersQuery.page q) in
  let limit := default 20%Z (OffersQuery.limit q) in
  let skip := ((page - 1) * limit)%Z in
  let w1 := set_db_calls (S (db_calls w)) w in
  let w2 := set_db_calls (S (S (db_calls w))) w in
  let failed text w' := (inl (mkOffersResponse 500 (OError text)), w') in
  get_offers E q w =
  match db_fault E (db_calls w) with
  | Some e => failed (message e) w1
  | None =>
      if Z.ltb skip 0 then failed (js "Skip value must be non-negative") w1
      else
        match db_fault E (S (db_calls w)) with
        | Some e => failed (message e) w2
        | None =>
            let found := List.filter (offers_filter q) (offers w) in
            let skipped := drop (Z.to_nat skip) (sort_offers_desc found) in
            let total := Z.of_nat (length found) in
            (inl (mkOffersResponse 200
                    (OOffers (if Z.eqb limit 0 then skipped
                              else take (Z.abs_nat limit) skipped)
                             (Pagination.mk page limit total
                                            (ceil_div total limit)))),
             w2)
        end
  end.
Proof.
  intros page limit skip w1 w2 failed.
  unfold get_offers, try_catch. unfold bind at 1.
  unfold Offer_find, storage.
  destruct (db_fault E (db_calls w)) as [e|]; [reflexivity|].
  fold page limit. rewrite Z.mul_1_r. fold skip.
  destruct (Z.ltb skip 0); [reflexivity|].
  unfold bind at 1, get, ret. cbn [fst snd].
  unfold bind at 1, Offer_countDocuments, storage. cbn [db_calls set_db_calls].
  destruct (db_fault E (S (db_calls w))) as [e|]; reflexivity.
Qed.

(** X27: the offers listing shows a user only the offers that involve that
    user. Every offer of a page is a stored offer; with [userId] it was
    sent by or to that user, with [status] it has that status (an empty
    parameter counts as absent); the page is a part of the selected offers
    in the order of [createdAt], newest first; [total] counts all the
    selected offers; and the request writes nothing. *)
Theorem offers_listing_involves_the_user E q w data pagination w' :
  get_offers E q w =
    (inl (mkOffersResponse 200 (OOffers data pagination)), w') ->
  (forall o, o ∈ data ->
     o ∈ offers w /\
     (forall u, OffersQuery.userId q = Some u -> u <> [] ->
                Offer.fromUserId o = u \/ Offer.toUserId o = u) /\
     (forall s, OffersQuery.status q = Some s -> s <> [] ->
                Offer.status o = s)) /\
  StronglySorted (fun a b => (Offer.createdAt b <= Offer.createdAt a)%Z) data /\
  data ⊆+ List.filter (offers_filter q) (offers w) /\
  Pagination.total pagination =
    Z.of_nat (length (List.filter (offers_filter q) (offers w))) /\
  users w' = users w /\ items w' = items w /\ offers w' = offers w /\
  pushed w' = pushed w.
Proof.
  rewrite get_offers_cases. cbv zeta.
  destruct (db_fault E (db_calls w)); [discriminate|].
  destruct (Z.ltb _ 0); [discriminate|].
  destruct (db_fault E (S (db_calls w))); [discriminate|].
  intros [= <- <- <-].
  set (found := List.filter (offers_filter q) (offers w)).
  assert (forall l : list Offer.t,
            StronglySorted
              (fun a b => (Offer.createdAt b <= Offer.createdAt a)%Z)
              (sort_offers_desc l)) as Hsorted.
  { induction l as [|o l IH]; simpl; [constructor|].
    induction IH as [|p l' Hl' IH' Hp]; simpl; [repeat constructor|].
    destruct (Z.leb_spec (Offer.createdAt p) (Offer.createdAt o)) as [Hle|Hlt].
    - constructor; [now constructor|]. constructor; [exact Hle|].
      eapply Forall_impl; [exact Hp|]. simpl. intros x Hx. lia.
    - constructor; [exact IH'|].
      rewrite Forall_forall. intros x Hx.
      rewrite insert_offer_desc_perm in Hx.
      apply elem_of_cons in Hx as [-> | Hx]; [lia|].
      rewrite Forall_forall in Hp. now apply Hp. }
  match goal with
  | |- context [StronglySorted _ ?d] => set (page := d)
  end.
  assert (sublist page (sort_offers_desc found)) as Hsub.
  { unfold page. destruct (Z.eqb _ 0).
    - apply sublist_drop.
    - etransitivity; [apply sublist_take | apply sublist_drop]. }
  specialize (Hsorted found). clearbody page.
  split_and!; try reflexivity.
  - intros o Ho. eapply elem_of_sublist in Ho; [|exact Hsub].
    rewrite sort_offers_desc_perm in Ho.
    apply list_elem_of_In, filter_In in Ho as [Hin Hf].
    apply andb_prop in Hf as [Hs Hu].
    split_and!; [now apply list_elem_of_In | |].
    + intros u Hq Hne. rewrite Hq in Hu. destruct u; [done|]. simpl in Hu.
      apply orb_prop in Hu as [Hu|Hu]; apply bool_decide_eq_true in Hu; auto.
    + intros s Hq Hne. rewrite Hq in Hs. destruct s; [done|]. simpl in Hs.
      now apply bool_decide_eq_true in Hs.
  - induction Hsub as [|x l1 l2 Hsub IH|x l1 l2 Hsub IH]; [constructor | |].
    + apply StronglySorted_inv in Hsorted as [Hs Hx].
      constructor; [now apply IH|].
      rewrite Forall_forall in Hx. rewrite Forall_forall. intros y Hy.
      apply Hx. eapply elem_of_sublist; [exact Hy | exact Hsub].
    + apply StronglySorted_inv in Hsorted as [Hs _]. now apply IH.
  - rewrite <- (sort_offers_desc_perm found). now apply sublist_submseteq.
Qed.

Lemma offers_listing_involves_the_user_witness :
  let E := Demo.env [] Demo.no_faults in
  let o1 := Demo.offer in
  let o2 := Offer.mk (js "o2") (js "u3") (js "u4") (js "i2") []
                     (js "PENDING") VUndefined None 3 3 in
  let w := set_offers [o1; o2] Demo.world in
  let q := OffersQuery.mk None None None (Some (js "u1")) in
  fst (get_offers E q w) =
    inl (mkOffersResponse 200 (OOffers [o1] (Pagination.mk 1 20 1 (Some 1%Z)))) /\
  forall o, o ∈ [o1] ->
    Offer.fromUserId o = js "u1" \/ Offer.toUserId o = js "u1".
Proof.
  intros E o1 o2 w q. split; [vm_compute; reflexivity|].
  intros o Ho.
  destruct (offers_listing_involves_the_user E q w [o1]
              (Pagination.mk 1 20 1 (Some 1%Z))
              (set_db_calls 2 w)) as (Hall & _);
    [vm_compute; reflexivity|].
  destruct (Hall o Ho) as (_ & Hu & _).
  apply (Hu (js "u1")); [reflexivity | discriminate].
Defined.
